(** * KismetParser: a shallow embedding of [kismetParser.py]

    The development follows the Python class [KismetParser]: the decoded
    EKJSON records ([self.devices]), the three per-class dictionaries keyed
    by hardware address, the three [_process*] methods (field extraction
    followed by the upsert), the row construction of the three [_report*]
    methods, [addFile] and [parse].

    Conventions.
    - Text is [string]; characters are ASCII code points, and [upper],
      [lower] and [strip] act on ASCII letters and ASCII white space as
      Python's [str] methods do on such text.
    - Python integers are [Z].
    - A Python float is a binary64 value, given by its sign, mantissa and
      exponent ([spec_float]).
    - A Python [dict] decoded from JSON is an association list whose first
      binding of a key is the one in effect; the parser's own dictionaries
      are finite maps ([gmap string _]).
    - The module-level [logger] is modelled by the list of records each
      method emits, in order.
    - An exception is a [Raise]; the attributes of [self] as they are at
      the moment of the raise are returned next to it, because Python
      keeps the mutations made before an exception. *)

From Stdlib Require Import ZArith String Ascii List Lia DecimalString.
From Stdlib Require Import SpecFloat.
From Stdlib Require OrderedTypeEx.
From Stdlib Require Import Sorting.Sorted.
From stdpp Require Import base option list gmap strings.

Local Open Scope string_scope.
Local Open Scope list_scope.
Local Open Scope Z_scope.

(** ** Text *)

Module Text.

Definition code (c : ascii) : N := N_of_ascii c.

(** [c.isspace()] for an ASCII character: TAB..CR, FS..US and the space. *)
Definition isspace (c : ascii) : bool :=
  let n := code c in
  ((9 <=? n) && (n <=? 13) || (28 <=? n) && (n <=? 32))%N.

Definition upper_char (c : ascii) : ascii :=
  let n := code c in
  if ((97 <=? n) && (n <=? 122))%N then ascii_of_N (n - 32) else c.

Definition lower_char (c : ascii) : ascii :=
  let n := code c in
  if ((65 <=? n) && (n <=? 90))%N then ascii_of_N (n + 32) else c.

Fixpoint map_chars (f : ascii -> ascii) (s : string) : string :=
  match s with
  | EmptyString => EmptyString
  | String c r => String (f c) (map_chars f r)
  end.

(** [s.upper()] and [s.lower()] *)
Definition upper (s : string) : string := map_chars upper_char s.
Definition lower (s : string) : string := map_chars lower_char s.

Fixpoint lstrip (s : string) : string :=
  match s with
  | EmptyString => EmptyString
  | String c r => if isspace c then lstrip r else s
  end.

Fixpoint reverse_onto (s acc : string) : string :=
  match s with
  | EmptyString => acc
  | String c r => reverse_onto r (String c acc)
  end.

Definition reverse (s : string) : string := reverse_onto s EmptyString.

Definition rstrip (s : string) : string := reverse (lstrip (reverse s)).

(** [s.strip()] *)
Definition strip (s : string) : string := rstrip (lstrip s).

(** Truth value of a [str]: non-empty. *)
Definition nonempty (s : string) : bool :=
  match s with EmptyString => false | String _ _ => true end.

(** [str(z)] for an [int]: decimal, with a leading minus sign. *)
Definition of_int (z : Z) : string := NilZero.string_of_int (Z.to_int z).

(** [sep.join(l)] *)
Fixpoint join (sep : string) (l : list string) : string :=
  match l with
  | [] => EmptyString
  | [x] => x
  | x :: r => x +:+ sep +:+ join sep r
  end.

End Text.

(** ** Decoded JSON values *)

#[local] Set Warnings "-register-all".

Inductive json : Type :=
| JNull
| JBool (b : bool)
| JInt (z : Z)
| JFloat (f : spec_float)
| JStr (s : string)
| JList (l : list json)
| JDict (kvs : list (string * json)).

Inductive exn : Type :=
| Warning (msg : string)
| KeyError (key : string)
| TypeError
| ValueError
| OverflowError
| AttributeError.

Inductive result (A : Type) : Type :=
| Ok (a : A)
| Raise (e : exn).
Arguments Ok {A} a.
Arguments Raise {A} e.

Definition bind {A B : Type} (r : result A) (k : A -> result B) : result B :=
  match r with
  | Ok a => k a
  | Raise e => Raise e
  end.

#[global] Instance result_bind : MBind result := fun A B k r => bind r k.
#[global] Instance result_ret : MRet result := fun A a => Ok a.

Fixpoint assoc (k : string) (kvs : list (string * json)) : option json :=
  match kvs with
  | [] => None
  | (k', v) :: r => if String.eqb k k' then Some v else assoc k r
  end.

(** [d[k]] with a string key [k]: only a dict can be subscripted so. *)
Definition getitem (d : json) (k : string) : result json :=
  match d with
  | JDict kvs =>
      match assoc k kvs with
      | Some v => Ok v
      | None => Raise (KeyError k)
      end
  | _ => Raise TypeError
  end.

(** [k in d.keys()]: only a dict has [keys]. *)
Definition in_keys (k : string) (d : json) : result bool :=
  match d with
  | JDict kvs => Ok (bool_decide (is_Some (assoc k kvs)))
  | _ => Raise AttributeError
  end.

(** [int(f)] for a float: truncation toward zero; an infinity and NaN raise. *)
Definition int_of_float (f : spec_float) : result Z :=
  match f with
  | S754_zero _ => Ok 0
  | S754_infinity _ => Raise OverflowError
  | S754_nan => Raise ValueError
  | S754_finite s m e =>
      let v := if 0 <=? e then Z.shiftl (Z.pos m) e
               else Z.shiftr (Z.pos m) (- e) in
      Ok (if s then - v else v)
  end.

(** Truth value of a decoded value. *)
Definition truthy (v : json) : bool :=
  match v with
  | JNull => false
  | JBool b => b
  | JInt z => negb (z =? 0)
  | JFloat f => match f with S754_zero _ => false | _ => true end
  | JStr s => Text.nonempty s
  | JList l => match l with [] => false | _ => true end
  | JDict kvs => match kvs with [] => false | _ => true end
  end.

(** ** Library functions the parser calls

    The standard-library functions whose results the parser only passes
    on are taken as given: [str] of a float and of a list or dict, [int]
    of a [str], the order in which [list(set(l))] enumerates a set, the
    JSON decoder, and the local-time rendering of an epoch. *)

Record Builtins : Type := {
  (** [str(f)] for a float *)
  str_float : spec_float -> string;
  (** [str(v)] for a list or a dict *)
  str_container : json -> string;
  (** [int(s)] for a [str] *)
  int_of_str : string -> result Z;
  (** [list(set(l))] *)
  list_of_set : list string -> list string;
  (** [json.loads(line)] *)
  json_loads : string -> result json;
  (** [datetime.fromtimestamp(epoch).strftime('%Y-%m-%d %H:%M:%S')];
      [None] when the epoch is out of the platform's range *)
  local_time : Z -> option string
}.

(** What [list(set(l))] guarantees whatever the enumeration order: the
    elements of [l], each once. *)
Definition set_semantics (py : Builtins) : Prop :=
  forall l : list string,
    NoDup (list_of_set py l) /\ forall x, x ∈ list_of_set py l <-> x ∈ l.

Section Parser.

Context (py : Builtins).

(** [str(v)] *)
Definition str (v : json) : string :=
  match v with
  | JNull => "None"
  | JBool true => "True"
  | JBool false => "False"
  | JInt z => Text.of_int z
  | JFloat f => str_float py f
  | JStr s => s
  | JList _ | JDict _ => str_container py v
  end.

(** [int(v)] *)
Definition int (v : json) : result Z :=
  match v with
  | JInt z => Ok z
  | JBool b => Ok (if b then 1 else 0)
  | JFloat f => int_of_float f
  | JStr s => int_of_str py s
  | JNull | JList _ | JDict _ => Raise TypeError
  end.

(** ** The parser object *)

Inductive level : Type := DEBUG | WARNING | ERROR.

Definition LogRecord : Type := level * string.

Record BluetoothDevice : Type := {
  bt_firstTime : Z;
  bt_lastTime : Z;
  bt_manufacturer : string;
  bt_name : string;
  bt_rssi : Z
}.

Record WirelessAp : Type := {
  ap_firstTime : Z;
  ap_lastTime : Z;
  ap_manufacturer : string;
  ap_channel : Z;
  ap_auth : string;
  ap_essid : string;
  ap_rssi : Z
}.

Record WirelessClient : Type := {
  cl_firstTime : Z;
  cl_lastTime : Z;
  cl_manufacturer : string;
  cl_bssid : string;
  cl_probedSsids : list string;
  cl_rssi : Z
}.

Record KismetParser : Type := {
  devices : list json;
  bluetoothDevices : gmap string BluetoothDevice;
  wirelessAps : gmap string WirelessAp;
  wirelessClients : gmap string WirelessClient
}.

(** [__init__] *)
Definition init : KismetParser * list LogRecord :=
  ({| devices := []; bluetoothDevices := ∅; wirelessAps := ∅;
      wirelessClients := ∅ |},
   [(DEBUG, "Kismet parser initialised")]).

Definition set_devices (self : KismetParser) (l : list json) : KismetParser :=
  {| devices := l;
     bluetoothDevices := bluetoothDevices self;
     wirelessAps := wirelessAps self;
     wirelessClients := wirelessClients self |}.

Definition set_bluetooth (self : KismetParser) (mac : string)
    (d : BluetoothDevice) : KismetParser :=
  {| devices := devices self;
     bluetoothDevices := <[mac := d]> (bluetoothDevices self);
     wirelessAps := wirelessAps self;
     wirelessClients := wirelessClients self |}.

Definition set_ap (self : KismetParser) (mac : string)
    (d : WirelessAp) : KismetParser :=
  {| devices := devices self;
     bluetoothDevices := bluetoothDevices self;
     wirelessAps := <[mac := d]> (wirelessAps self);
     wirelessClients := wirelessClients self |}.

Definition set_client (self : KismetParser) (mac : string)
    (d : WirelessClient) : KismetParser :=
  {| devices := devices self;
     bluetoothDevices := bluetoothDevices self;
     wirelessAps := wirelessAps self;
     wirelessClients := <[mac := d]> (wirelessClients self) |}.

(** The sentinel stored when no signal reading is available. *)
Definition sentinel : Z := 5000.

(** [x if x else d] as the [if not x: x = d] statements do it. *)
Definition or_default (x d : string) : string :=
  if Text.nonempty x then x else d.

Definition conflict_warning (mac : string) : LogRecord :=
  (WARNING, "Conflicting information for " +:+ mac).

Definition no_mac_warning : LogRecord :=
  (WARNING, "Device without MAC address detected").

(** ** [_processBluetooth] *)

(** The first [try] block: the five required items, in source order. *)
Definition bluetooth_fields (device : json)
  : result (string * Z * Z * string * string) :=
  m ← getitem device "kismet_device_base_macaddr";
  let mac := Text.upper (str m) in
  f ← getitem device "kismet_device_base_first_time";
  firstTime ← int f;
  l ← getitem device "kismet_device_base_last_time";
  lastTime ← int l;
  mf ← getitem device "kismet_device_base_manuf";
  let manufacturer := str mf in
  n ← getitem device "kismet_device_base_name";
  let name := str n in
  Ok (mac, firstTime, lastTime, manufacturer, name).

Definition _processBluetooth (device : json) (self : KismetParser)
  : KismetParser * list LogRecord :=
  match bluetooth_fields device with
  | Raise _ => (self, [(WARNING, "Invalid bluetooth device record specified")])
  | Ok (mac, firstTime, lastTime, manufacturer, name) =>
      let rssi := sentinel in
      if negb (Text.nonempty mac) then (self, [no_mac_warning])
      else
        let manufacturer := or_default manufacturer "Unknown" in
        let name := or_default name "Unknown" in
        match bluetoothDevices self !! mac with
        | Some new =>
            let new :=
              {| bt_firstTime := Z.min firstTime (bt_firstTime new);
                 bt_lastTime := Z.max lastTime (bt_lastTime new);
                 bt_manufacturer := bt_manufacturer new;
                 bt_name := bt_name new;
                 bt_rssi := bt_rssi new |} in
            (set_bluetooth self mac new,
             if bool_decide (manufacturer ≠ bt_manufacturer new)
                || bool_decide (name ≠ bt_name new)
             then [conflict_warning mac] else [])
        | None =>
            (set_bluetooth self mac
               {| bt_firstTime := firstTime;
                  bt_lastTime := lastTime;
                  bt_manufacturer := manufacturer;
                  bt_name := name;
                  bt_rssi := rssi |},
             [])
        end
  end.

(** ** Signal strength, shared by the two wireless classes *)

(** The second [try] block of [_processWirelessAp] and
    [_processWirelessClient]; any exception gives the sentinel. *)
Definition signal_fields (device : json) : result Z :=
  s ← getitem device "kismet_device_base_signal";
  t ← getitem s "kismet.common.signal.type";
  if bool_decide (Text.lower (str t) = "none") then Ok sentinel
  else
    s' ← getitem device "kismet_device_base_signal";
    m ← getitem s' "kismet.common.signal.max_signal";
    int m.

Definition signal_strength (device : json) : Z :=
  match signal_fields device with
  | Ok rssi => rssi
  | Raise _ => sentinel
  end.

(** [rssi if abs(rssi) < abs(old) else old] *)
Definition best_signal (rssi old : Z) : Z :=
  if Z.abs rssi <? Z.abs old then rssi else old.

(** ** [_processWirelessAp] *)

Definition ap_fields (device : json)
  : result (string * Z * Z * string * Z * string * string) :=
  m ← getitem device "kismet_device_base_macaddr";
  let mac := Text.upper (str m) in
  f ← getitem device "kismet_device_base_first_time";
  firstTime ← int f;
  l ← getitem device "kismet_device_base_last_time";
  lastTime ← int l;
  mf ← getitem device "kismet_device_base_manuf";
  let manufacturer := str mf in
  c ← getitem device "kismet_device_base_channel";
  channel ← int c;
  a ← getitem device "kismet_device_base_crypt";
  let auth := str a in
  d ← getitem device "dot11_device";
  r ← getitem d "dot11.device.last_beaconed_ssid_record";
  e ← getitem r "dot11.advertisedssid.ssid";
  let essid := str e in
  Ok (mac, firstTime, lastTime, manufacturer, channel, auth, essid).

Definition _processWirelessAp (device : json) (self : KismetParser)
  : KismetParser * list LogRecord :=
  match ap_fields device with
  | Raise _ =>
      (self, [(WARNING, "Invalid wireless access point device record "
                        +:+ "specified")])
  | Ok (mac, firstTime, lastTime, manufacturer, channel, auth, essid) =>
      let rssi := signal_strength device in
      if negb (Text.nonempty mac) then (self, [no_mac_warning])
      else
        let manufacturer := or_default manufacturer "Unknown" in
        let auth := or_default auth "Unknown" in
        let essid := or_default essid "Unknown SSID" in
        match wirelessAps self !! mac with
        | Some new =>
            let new :=
              {| ap_firstTime := Z.min firstTime (ap_firstTime new);
                 ap_lastTime := Z.max lastTime (ap_lastTime new);
                 ap_manufacturer := ap_manufacturer new;
                 ap_channel := ap_channel new;
                 ap_auth := ap_auth new;
                 ap_essid := ap_essid new;
                 ap_rssi := best_signal rssi (ap_rssi new) |} in
            (set_ap self mac new,
             if bool_decide (manufacturer ≠ ap_manufacturer new)
                || bool_decide (essid ≠ ap_essid new)
                || bool_decide (channel ≠ ap_channel new)
                || bool_decide (auth ≠ ap_auth new)
             then [conflict_warning mac] else [])
        | None =>
            (set_ap self mac
               {| ap_firstTime := firstTime;
                  ap_lastTime := lastTime;
                  ap_manufacturer := manufacturer;
                  ap_channel := channel;
                  ap_auth := auth;
                  ap_essid := essid;
                  ap_rssi := rssi |},
             [])
        end
  end.

(** ** [_processWirelessClient] *)

Definition client_fields (device : json)
  : result (string * Z * Z * string * string * list string) :=
  m ← getitem device "kismet_device_base_macaddr";
  let mac := Text.upper (str m) in
  f ← getitem device "kismet_device_base_first_time";
  firstTime ← int f;
  l ← getitem device "kismet_device_base_last_time";
  lastTime ← int l;
  mf ← getitem device "kismet_device_base_manuf";
  let manufacturer := str mf in
  d ← getitem device "dot11_device";
  b ← getitem d "dot11.device.last_bssid";
  let bssid := str b in
  d' ← getitem device "dot11_device";
  has ← in_keys "dot11.device.last_probed_ssid_record" d';
  probedSsids ←
    (if has : bool then
       d'' ← getitem device "dot11_device";
       r ← getitem d'' "dot11.device.last_probed_ssid_record";
       s ← getitem r "dot11.probedssid.ssid";
       if truthy s then Ok [str s] else Ok ["Unknown SSID"]
     else Ok []);
  Ok (mac, firstTime, lastTime, manufacturer, bssid, probedSsids).

Definition _processWirelessClient (device : json) (self : KismetParser)
  : KismetParser * list LogRecord :=
  match client_fields device with
  | Raise _ =>
      (self, [(WARNING, "Invalid wireless client device record specified")])
  | Ok (mac, firstTime, lastTime, manufacturer, bssid, probedSsids) =>
      let rssi := signal_strength device in
      if negb (Text.nonempty mac) then (self, [no_mac_warning])
      else
        let manufacturer := or_default manufacturer "Unknown" in
        let bssid := or_default bssid "Unknown" in
        match wirelessClients self !! mac with
        | Some new =>
            let new :=
              {| cl_firstTime := Z.min firstTime (cl_firstTime new);
                 cl_lastTime := Z.max lastTime (cl_lastTime new);
                 cl_manufacturer := cl_manufacturer new;
                 cl_bssid := cl_bssid new;
                 cl_probedSsids :=
                   list_of_set py (probedSsids ++ cl_probedSsids new);
                 cl_rssi := best_signal rssi (cl_rssi new) |} in
            (set_client self mac new,
             if bool_decide (manufacturer ≠ cl_manufacturer new)
                || bool_decide (bssid ≠ cl_bssid new)
             then [conflict_warning mac] else [])
        | None =>
            (set_client self mac
               {| cl_firstTime := firstTime;
                  cl_lastTime := lastTime;
                  cl_manufacturer := manufacturer;
                  cl_bssid := bssid;
                  cl_probedSsids := probedSsids;
                  cl_rssi := rssi |},
             [])
        end
  end.

(** ** Report rows

    Of each [_report*] method the model keeps what is computed inside the
    [with] block: the rows and their sort.  The output file, the overwrite
    prompt and [tabulate] are outside it. *)

Inductive cell : Type :=
| CStr (s : string)
| CInt (z : Z).

Definition row : Type := list cell.

(** [_epochToDatetime] *)
Definition _epochToDatetime (epoch : Z) : option string := local_time py epoch.

(** The last column: ["Unknown"] if [abs(rssi) > 255], else the integer. *)
Definition rssi_cell (rssi : Z) : cell :=
  if 255 <? Z.abs rssi then CStr "Unknown" else CInt rssi.

(** [f"{c}"] *)
Definition format_cell (c : cell) : string :=
  match c with
  | CStr s => s
  | CInt z => Text.of_int z
  end.

(** The sort key [f"{x[-1]} {x[0]}"]; every row has at least two cells. *)
Definition sort_key (x : row) : string :=
  format_cell (List.last x (CStr "")) +:+ " "
  +:+ format_cell (List.hd (CStr "") x).

Fixpoint insert_row (x : row) (l : list row) : list row :=
  match l with
  | [] => [x]
  | y :: r =>
      if String.ltb (sort_key x) (sort_key y) then x :: l
      else y :: insert_row x r
  end.

(** [rows.sort(key=...)]: a stable sort on the string key. *)
Definition sort_rows (rows : list row) : list row :=
  List.fold_left (fun acc x => insert_row x acc) rows [].

Definition bluetooth_row (mac : string) (d : BluetoothDevice) : option row :=
  first ← _epochToDatetime (bt_firstTime d);
  last ← _epochToDatetime (bt_lastTime d);
  Some [CStr mac; CStr first; CStr last; CStr (bt_manufacturer d);
        CStr (bt_name d); rssi_cell (bt_rssi d)].

Definition ap_row (mac : string) (d : WirelessAp) : option row :=
  first ← _epochToDatetime (ap_firstTime d);
  last ← _epochToDatetime (ap_lastTime d);
  Some [CStr mac; CStr first; CStr last; CStr (ap_manufacturer d);
        CInt (ap_channel d); CStr (ap_auth d); CStr (ap_essid d);
        rssi_cell (ap_rssi d)].

Definition client_row (mac : string) (d : WirelessClient) : option row :=
  first ← _epochToDatetime (cl_firstTime d);
  last ← _epochToDatetime (cl_lastTime d);
  Some [CStr mac; CStr first; CStr last; CStr (cl_manufacturer d);
        CStr (cl_bssid d); CStr (Text.join ", " (cl_probedSsids d));
        rssi_cell (cl_rssi d)].

(** The rows of a store, sorted; an exception anywhere in the [with]
    block is reported as the [Warning] of the [except] clause.  The order
    in which the dict is traversed is immaterial: the sort keys end with
    the hardware address, so they are pairwise distinct. *)
Definition report_rows {D : Type} (mk : string -> D -> option row)
    (store : gmap string D) (outFile : string)
  : result (list row) * list LogRecord :=
  match mapM (fun kv => mk kv.1 kv.2) (map_to_list store) with
  | Some rows => (Ok (sort_rows rows), [])
  | None =>
      let error := "Could not write to output file '" +:+ outFile +:+ "'" in
      (Raise (Warning error), [(ERROR, error)])
  end.

Definition _reportBluetooth_rows (self : KismetParser) :=
  report_rows bluetooth_row (bluetoothDevices self).

Definition _reportWirelessAps_rows (self : KismetParser) :=
  report_rows ap_row (wirelessAps self).

Definition _reportWirelessClients_rows (self : KismetParser) :=
  report_rows client_row (wirelessClients self).

(** ** [addFile] *)

(** What the file system answers for the resolved path. *)
Inductive file_status : Type :=
| Missing
| Unreadable
| Readable (lines : list string).

(** The [for line in lines] loop.  A decoded record is appended to
    [self.devices] as soon as its line is decoded. *)
Fixpoint add_lines (file : string) (lines : list string) (self : KismetParser)
  : KismetParser * list LogRecord * result unit :=
  match lines with
  | [] => (self, [], Ok ())
  | line :: rest =>
      if Text.nonempty (Text.strip line) then
        match json_loads py line with
        | Ok v => add_lines file rest (set_devices self (devices self ++ [v]))
        | Raise _ =>
            let error :=
              "Input file '" +:+ file +:+ "' is not a valid EKJSON file" in
            (self, [(ERROR, error)], Raise (Warning error))
        end
      else add_lines file rest self
  end.

Definition addFile (file : string) (content : file_status)
    (self : KismetParser) : KismetParser * list LogRecord * result unit :=
  match content with
  | Missing =>
      let error := "Input file '" +:+ file +:+ "' does not exist" in
      (self, [(ERROR, error)], Raise (Warning error))
  | Unreadable =>
      let error := "Could not read input file '" +:+ file +:+ "'" in
      (self, [(ERROR, error)], Raise (Warning error))
  | Readable lines =>
      match add_lines file lines self with
      | (self', log, Ok _) =>
          (self',
           log ++ [(DEBUG, "Input file '" +:+ file +:+ "' added successfully")],
           Ok ())
      | r => r
      end
  end.

(** ** [parse] *)

(** [v == s] for a string literal [s], as a [case] literal pattern tests. *)
Definition eq_str (v : json) (s : string) : bool :=
  match v with
  | JStr s' => String.eqb s' s
  | _ => false
  end.

(** ["..." + v + "..."]: only a [str] can be concatenated to a [str]. *)
Definition concat_str (pre : string) (v : json) (post : string) : result string :=
  match v with
  | JStr s => Ok (pre +:+ s +:+ post)
  | _ => Raise TypeError
  end.

(** The body of the [for device in self.devices] loop. *)
Definition parse_device (device : json) (self : KismetParser)
  : KismetParser * list LogRecord * result unit :=
  match getitem device "kismet_device_base_type" with
  | Raise e => (self, [], Raise e)
  | Ok t =>
      if eq_str t "BTLE" then (_processBluetooth device self, Ok ())
      else if eq_str t "Wi-Fi AP" then (_processWirelessAp device self, Ok ())
      else if eq_str t "Wi-Fi Client" then
        (_processWirelessClient device self, Ok ())
      else
        match
          t' ← getitem device "kismet_device_base_type";
          concat_str "Device of unrecognised type '" t' "' detected"
        with
        | Ok msg => (self, [(WARNING, msg)], Ok ())
        | Raise e => (self, [], Raise e)
        end
  end.

Fixpoint parse_loop (ds : list json) (self : KismetParser)
  : KismetParser * list LogRecord * result unit :=
  match ds with
  | [] => (self, [], Ok ())
  | device :: rest =>
      match parse_device device self with
      | (self', log, Ok _) =>
          match parse_loop rest self' with
          | (self'', log', r) => (self'', log ++ log', r)
          end
      | r => r
      end
  end.

Definition parse (self : KismetParser)
  : KismetParser * list LogRecord * result unit :=
  match parse_loop (devices self) self with
  | (self', log, Ok _) =>
      (self',
       (DEBUG, "Initiated parsing of device data") :: log
       ++ [(DEBUG, "Parsing complete")],
       Ok ())
  | (self', log, Raise e) =>
      (self', (DEBUG, "Initiated parsing of device data") :: log, Raise e)
  end.

End Parser.

(** ** A concrete instance, to run the model on examples

    The instance stands for a CPython process in the UTC time zone.  Its
    functions agree with CPython on the values the examples below reach:
    [int] of a plain decimal numeral, [json.loads] of a JSON text without
    fractional numbers and without escapes in strings, the UTC rendering
    of an epoch.  No example contains a float, nor a list or a dict in a
    field that is printed. *)

Module Sample.

Definition nl : string := String (ascii_of_N 10) EmptyString.
Definition quote : ascii := ascii_of_N 34.
Definition backslash : ascii := ascii_of_N 92.

Fixpoint digits (s : string) (acc : Z) : option Z :=
  match s with
  | EmptyString => Some acc
  | String c r =>
      let n := Z.of_N (Text.code c) in
      if (48 <=? n) && (n <=? 57) then digits r (10 * acc + (n - 48))
      else None
  end.

(** [int(s)] for an optionally signed, non-empty run of decimal digits. *)
Definition decimal (s : string) : result Z :=
  let '(neg, body) :=
    match s with
    | String "-" r => (true, r)
    | String "+" r => (false, r)
    | _ => (false, s)
    end in
  match body with
  | EmptyString => Raise ValueError
  | _ =>
      match digits body 0 with
      | Some z => Ok (if neg : bool then - z else z)
      | None => Raise ValueError
      end
  end.

(** *** A decoder for the JSON texts of the examples

    Objects, arrays, strings without escapes, integers and the three
    literals.  A text outside this fragment is refused. *)

Definition is_ws (c : ascii) : bool :=
  let n := Text.code c in
  ((n =? 32) || (n =? 9) || (n =? 10) || (n =? 13))%N.

Fixpoint skip_ws (s : string) : string :=
  match s with
  | String c r => if is_ws c then skip_ws r else s
  | EmptyString => EmptyString
  end.

(** The characters up to the closing quote, and what follows it. *)
Fixpoint string_body (s : string) : option (string * string) :=
  match s with
  | EmptyString => None
  | String c r =>
      if Ascii.eqb c quote then Some (EmptyString, r)
      else if Ascii.eqb c backslash || (Text.code c <? 32)%N then None
      else '(t, rest) ← string_body r; Some (String c t, rest)
  end.

Fixpoint take_digits (s : string) : string * string :=
  match s with
  | String c r =>
      let n := Text.code c in
      if ((48 <=? n) && (n <=? 57))%N then
        let '(d, rest) := take_digits r in (String c d, rest)
      else (EmptyString, s)
  | EmptyString => (EmptyString, EmptyString)
  end.

(** An integer: an optional minus sign and digits without a leading
    zero, not continued by a fraction or an exponent. *)
Definition number (s : string) : option (Z * string) :=
  let '(neg, s1) :=
    match s with
    | String "-" r => (true, r)
    | _ => (false, s)
    end in
  let '(d, rest) := take_digits s1 in
  match d, rest with
  | EmptyString, _ => None
  | String "0" (String _ _), _ => None
  | _, String "." _ | _, String "e" _ | _, String "E" _ => None
  | _, _ => z ← digits d 0; Some (if neg : bool then - z else z, rest)
  end.

Fixpoint strip_prefix (p s : string) : option string :=
  match p, s with
  | EmptyString, _ => Some s
  | String a p', String b s' =>
      if Ascii.eqb a b then strip_prefix p' s' else None
  | _, _ => None
  end.

(** [d[k] = v] on an association list: a key already present keeps its
    place and takes the new value. *)
Fixpoint dict_set (k : string) (v : json) (kvs : list (string * json))
  : list (string * json) :=
  match kvs with
  | [] => [(k, v)]
  | (k', v') :: r =>
      if String.eqb k k' then (k, v) :: r else (k', v') :: dict_set k v r
  end.

Section Value.

Variable value : string -> option (json * string).

(** The elements of an array after its first bracket. *)
Fixpoint elements (fuel : nat) (s : string)
  : option (list json * string) :=
  match fuel with
  | O => None
  | S n =>
      '(v, r) ← value s;
      match skip_ws r with
      | String "]" r' => Some ([v], r')
      | String "," r' => '(vs, r'') ← elements n r'; Some (v :: vs, r'')
      | _ => None
      end
  end.

(** The members of an object after its first brace, folded into the
    dict [acc]. *)
Fixpoint members (fuel : nat) (acc : list (string * json)) (s : string)
  : option (list (string * json) * string) :=
  match fuel with
  | O => None
  | S n =>
      match skip_ws s with
      | String c r =>
          if Ascii.eqb c quote then
            '(k, r1) ← string_body r;
            match skip_ws r1 with
            | String ":" r2 =>
                '(v, r3) ← value r2;
                let acc' := dict_set k v acc in
                match skip_ws r3 with
                | String "}" r4 => Some (acc', r4)
                | String "," r4 => members n acc' r4
                | _ => None
                end
            | _ => None
            end
          else None
      | EmptyString => None
      end
  end.

End Value.

Fixpoint value (fuel : nat) (s : string) : option (json * string) :=
  match fuel with
  | O => None
  | S n =>
      match skip_ws s with
      | String "{" r =>
          match skip_ws r with
          | String "}" r' => Some (JDict [], r')
          | _ => '(kvs, r') ← members (value n) n [] r; Some (JDict kvs, r')
          end
      | String "[" r =>
          match skip_ws r with
          | String "]" r' => Some (JList [], r')
          | _ => '(vs, r') ← elements (value n) n r; Some (JList vs, r')
          end
      | String c r as t =>
          if Ascii.eqb c quote then
            '(x, r') ← string_body r; Some (JStr x, r')
          else
            match strip_prefix "null" t, strip_prefix "true" t,
                  strip_prefix "false" t with
            | Some r', _, _ => Some (JNull, r')
            | _, Some r', _ => Some (JBool true, r')
            | _, _, Some r' => Some (JBool false, r')
            | _, _, _ => '(z, r') ← number t; Some (JInt z, r')
            end
      | EmptyString => None
      end
  end.

(** [json.loads(line)] on the fragment. *)
Definition loads (line : string) : result json :=
  match value (String.length line) line with
  | Some (v, r) =>
      match skip_ws r with
      | EmptyString => Ok v
      | _ => Raise ValueError
      end
  | None => Raise ValueError
  end.

(** The JSON text of a record of the fragment, as one line of a file. *)
Fixpoint dumps (v : json) : string :=
  match v with
  | JNull => "null"
  | JBool true => "true"
  | JBool false => "false"
  | JInt z => Text.of_int z
  | JFloat _ => "NaN"
  | JStr x => String quote x +:+ String quote EmptyString
  | JList l => "[" +:+ Text.join ", " (List.map dumps l) +:+ "]"
  | JDict kvs =>
      "{" +:+ Text.join ", "
                (List.map (fun kv : string * json =>
                             String quote kv.1 +:+ String quote ": "
                             +:+ dumps kv.2) kvs)
      +:+ "}"
  end.

Definition line (v : json) : string := dumps v +:+ nl.

Definition pad (width : nat) (z : Z) : string :=
  let s := Text.of_int z in
  String.concat EmptyString
    (List.repeat "0" (width - String.length s)%nat) +:+ s.

(** The proleptic Gregorian date and time of day of an epoch, in UTC;
    years outside 1..9999 are out of range. *)
Definition utc_time (epoch : Z) : option string :=
  let days := epoch / 86400 in
  let secs := epoch mod 86400 in
  let z := days + 719468 in
  let era := z / 146097 in
  let doe := z - era * 146097 in
  let yoe := (doe - doe / 1460 + doe / 36524 - doe / 146096) / 365 in
  let doy := doe - (365 * yoe + yoe / 4 - yoe / 100) in
  let mp := (5 * doy + 2) / 153 in
  let d := doy - (153 * mp + 2) / 5 + 1 in
  let m := if mp <? 10 then mp + 3 else mp - 9 in
  let y := yoe + era * 400 + (if m <=? 2 then 1 else 0) in
  if (1 <=? y) && (y <=? 9999) then
    Some (pad 4 y +:+ "-" +:+ pad 2 m +:+ "-" +:+ pad 2 d +:+ " "
          +:+ pad 2 (secs / 3600) +:+ ":" +:+ pad 2 (secs mod 3600 / 60)
          +:+ ":" +:+ pad 2 (secs mod 60))
  else None.

Definition py : Builtins := {|
  str_float := fun _ => "nan";
  str_container := fun _ => "{}";
  int_of_str := decimal;
  list_of_set := remove_dups;
  json_loads := loads;
  local_time := utc_time
|}.

Definition empty : KismetParser := (init).1.

Definition bluetooth_record (mac : string) (first last : Z)
    (manuf name : string) : json :=
  JDict [("kismet_device_base_type", JStr "BTLE");
         ("kismet_device_base_macaddr", JStr mac);
         ("kismet_device_base_first_time", JInt first);
         ("kismet_device_base_last_time", JInt last);
         ("kismet_device_base_manuf", JStr manuf);
         ("kismet_device_base_name", JStr name)].

Definition signal (type : string) (max_signal : Z) : json :=
  JDict [("kismet.common.signal.type", JStr type);
         ("kismet.common.signal.max_signal", JInt max_signal)].

Definition ap_record (mac : string) (first last : Z) (manuf : string)
    (channel : json) (crypt essid : string) (sig : json) : json :=
  JDict [("kismet_device_base_type", JStr "Wi-Fi AP");
         ("kismet_device_base_macaddr", JStr mac);
         ("kismet_device_base_first_time", JInt first);
         ("kismet_device_base_last_time", JInt last);
         ("kismet_device_base_manuf", JStr manuf);
         ("kismet_device_base_channel", channel);
         ("kismet_device_base_crypt", JStr crypt);
         ("dot11_device",
          JDict [("dot11.device.last_beaconed_ssid_record",
                  JDict [("dot11.advertisedssid.ssid", JStr essid)])]);
         ("kismet_device_base_signal", sig)].

Definition client_record (mac : string) (first last : Z) (manuf : string)
    (bssid : string) (probed : list (string * json)) (sig : json) : json :=
  JDict [("kismet_device_base_type", JStr "Wi-Fi Client");
         ("kismet_device_base_macaddr", JStr mac);
         ("kismet_device_base_first_time", JInt first);
         ("kismet_device_base_last_time", JInt last);
         ("kismet_device_base_manuf", JStr manuf);
         ("dot11_device",
          JDict (("dot11.device.last_bssid", JStr bssid) :: probed));
         ("kismet_device_base_signal", sig)].

Definition probed_ssid (ssid : string) : list (string * json) :=
  [("dot11.device.last_probed_ssid_record",
    JDict [("dot11.probedssid.ssid", JStr ssid)])].

End Sample.

(** ** Vocabulary of the properties *)

Section Vocabulary.

Context (py : Builtins).

(** A line that is not purely white space and that the decoder refuses. *)
Definition malformed (line : string) : Prop :=
  Text.strip line ≠ "" /\ exists e, json_loads py line = Raise e.

(** The record a line contributes: none for a blank or refused line. *)
Definition decoded (line : string) : option json :=
  if Text.nonempty (Text.strip line) then
    match json_loads py line with
    | Ok v => Some v
    | Raise _ => None
    end
  else None.

(** The two defaultable items that are read from the nested
    [dot11_device] dict. *)
Definition essid_item (device : json) : result json :=
  d ← getitem device "dot11_device";
  r ← getitem d "dot11.device.last_beaconed_ssid_record";
  getitem r "dot11.advertisedssid.ssid".

Definition bssid_item (device : json) : result json :=
  d ← getitem device "dot11_device";
  getitem d "dot11.device.last_bssid".





(** Two client entries that agree up to the order of [probedSsids]. *)
Definition same_client (a b : WirelessClient) : Prop :=
  cl_firstTime a = cl_firstTime b
  /\ cl_lastTime a = cl_lastTime b
  /\ cl_manufacturer a = cl_manufacturer b
  /\ cl_bssid a = cl_bssid b
  /\ cl_rssi a = cl_rssi b
  /\ (forall x, x ∈ cl_probedSsids a <-> x ∈ cl_probedSsids b).

(** The parser objects a run can hold: a fresh parser, then any sequence
    of [addFile] and [parse] calls (whether or not a call raises). *)
Inductive reachable : KismetParser -> Prop :=
| reach_init : reachable (init).1
| reach_addFile file content self :
    reachable self -> reachable (addFile py file content self).1.1
| reach_parse self :
    reachable self -> reachable (parse py self).1.1.

(** The last cell of a row shows the stored signal [rssi]: the text
    ["Unknown"] when its magnitude exceeds 255, the integer otherwise. *)
Definition renders_signal (r : row) (rssi : Z) : Prop :=
  (255 < Z.abs rssi /\ last r = Some (CStr "Unknown"))
  \/ (Z.abs rssi <= 255 /\ last r = Some (CInt rssi)).

(** Every stored Bluetooth device carries the sentinel. *)
Definition bluetooth_unsignalled (self : KismetParser) : Prop :=
  map_Forall (fun _ d => bt_rssi d = sentinel) (bluetoothDevices self).

End Vocabulary.

(** ** Vocabulary of the further properties *)

Section Records.

Context (py : Builtins).

(** The top-level items each first [try] block subscripts. *)
Definition bluetooth_keys : list string :=
  ["kismet_device_base_macaddr"; "kismet_device_base_first_time";
   "kismet_device_base_last_time"; "kismet_device_base_manuf";
   "kismet_device_base_name"].

Definition ap_keys : list string :=
  ["kismet_device_base_macaddr"; "kismet_device_base_first_time";
   "kismet_device_base_last_time"; "kismet_device_base_manuf";
   "kismet_device_base_channel"; "kismet_device_base_crypt";
   "dot11_device"].

Definition client_keys : list string :=
  ["kismet_device_base_macaddr"; "kismet_device_base_first_time";
   "kismet_device_base_last_time"; "kismet_device_base_manuf";
   "dot11_device"].

(** [device[k]] raises. *)
Definition item_missing (device : json) (k : string) : Prop :=
  exists e, getitem device k = Raise e.

(** [int(device[k])] raises although [device[k]] does not. *)
Definition not_an_int (device : json) (k : string) : Prop :=
  exists v e, getitem device k = Ok v /\ int py v = Raise e.

(** The record has a last-probed-SSID record whose SSID cannot be read. *)
Definition probed_unreadable (device : json) : Prop :=
  exists d r e,
    getitem device "dot11_device" = Ok d
    /\ getitem d "dot11.device.last_probed_ssid_record" = Ok r
    /\ getitem r "dot11.probedssid.ssid" = Raise e.

(** What makes the first [try] block of each class raise. *)
Definition bluetooth_defect (device : json) : Prop :=
  Exists (item_missing device) bluetooth_keys
  \/ not_an_int device "kismet_device_base_first_time"
  \/ not_an_int device "kismet_device_base_last_time".

Definition ap_defect (device : json) : Prop :=
  Exists (item_missing device) ap_keys
  \/ not_an_int device "kismet_device_base_first_time"
  \/ not_an_int device "kismet_device_base_last_time"
  \/ not_an_int device "kismet_device_base_channel"
  \/ (exists e, essid_item device = Raise e).

Definition client_defect (device : json) : Prop :=
  Exists (item_missing device) client_keys
  \/ not_an_int device "kismet_device_base_first_time"
  \/ not_an_int device "kismet_device_base_last_time"
  \/ (exists e, bssid_item device = Raise e)
  \/ probed_unreadable device.

(** The key under which a record is stored: the upper-cased text of its
    hardware-address item. *)
Definition address_of (device : json) (mac : string) : Prop :=
  exists m,
    getitem device "kismet_device_base_macaddr" = Ok m
    /\ mac = Text.upper (str py m).

(** The declared type of the record is a string. *)
Definition typed (device : json) : Prop :=
  exists t, getitem device "kismet_device_base_type" = Ok (JStr t).

End Records.

(** ** Vocabulary: how the stores evolve *)

(** An entry [E'] that comes from [E] by merges: the identity fields are
    [E]'s, the time range contains [E]'s, the signal is not larger in
    magnitude, the probed SSIDs include [E]'s. *)
Definition bluetooth_grows (E E' : BluetoothDevice) : Prop :=
  bt_manufacturer E' = bt_manufacturer E
  /\ bt_name E' = bt_name E
  /\ bt_rssi E' = bt_rssi E
  /\ bt_firstTime E' <= bt_firstTime E
  /\ bt_lastTime E <= bt_lastTime E'.

Definition ap_grows (E E' : WirelessAp) : Prop :=
  ap_manufacturer E' = ap_manufacturer E
  /\ ap_channel E' = ap_channel E
  /\ ap_auth E' = ap_auth E
  /\ ap_essid E' = ap_essid E
  /\ Z.abs (ap_rssi E') <= Z.abs (ap_rssi E)
  /\ ap_firstTime E' <= ap_firstTime E
  /\ ap_lastTime E <= ap_lastTime E'.

Definition client_grows (E E' : WirelessClient) : Prop :=
  cl_manufacturer E' = cl_manufacturer E
  /\ cl_bssid E' = cl_bssid E
  /\ Z.abs (cl_rssi E') <= Z.abs (cl_rssi E)
  /\ cl_firstTime E' <= cl_firstTime E
  /\ cl_lastTime E <= cl_lastTime E'
  /\ (forall x, x ∈ cl_probedSsids E -> x ∈ cl_probedSsids E').

(** Every entry of [s] is still in [s'], grown. *)
Definition parser_grows (s s' : KismetParser) : Prop :=
  (forall mac E,
      bluetoothDevices s !! mac = Some E ->
      exists E', bluetoothDevices s' !! mac = Some E' /\ bluetooth_grows E E')
  /\ (forall mac E,
      wirelessAps s !! mac = Some E ->
      exists E', wirelessAps s' !! mac = Some E' /\ ap_grows E E')
  /\ (forall mac E,
      wirelessClients s !! mac = Some E ->
      exists E', wirelessClients s' !! mac = Some E' /\ client_grows E E').


Section Fresh.

Context (py : Builtins).




End Fresh.

(** ** Vocabulary: what is read from a record *)

Section Readings.

Context (py : Builtins).

(** The record carries the signal reading [r]: a signal item whose type
    is not ["none"] and whose maximum converts to the integer [r]. *)
Definition reading (device : json) (r : Z) : Prop :=
  exists s t m,
    getitem device "kismet_device_base_signal" = Ok s
    /\ getitem s "kismet.common.signal.type" = Ok t
    /\ Text.lower (str py t) ≠ "none"
    /\ getitem s "kismet.common.signal.max_signal" = Ok m
    /\ int py m = Ok r.

(** The last-probed-SSID record of a client record, when it has one. *)
Definition probed_record (device : json) : result json :=
  d ← getitem device "dot11_device";
  getitem d "dot11.device.last_probed_ssid_record".

End Readings.

(** ** Vocabulary: records a parser has absorbed *)

Section Covered.

Context (py : Builtins).

(** The entry of the record's address accounts for the record: its time
    range contains the record's, its signal is not larger in magnitude
    than the record's, its probed SSIDs include the record's. *)
Definition bluetooth_covered (device : json) (self : KismetParser) : Prop :=
  forall mac ft lt mf nm,
    bluetooth_fields py device = Ok (mac, ft, lt, mf, nm) ->
    mac ≠ "" ->
    exists E,
      bluetoothDevices self !! mac = Some E
      /\ bt_firstTime E <= ft /\ lt <= bt_lastTime E.

Definition ap_covered (device : json) (self : KismetParser) : Prop :=
  forall mac ft lt mf ch au es,
    ap_fields py device = Ok (mac, ft, lt, mf, ch, au, es) ->
    mac ≠ "" ->
    exists E,
      wirelessAps self !! mac = Some E
      /\ ap_firstTime E <= ft /\ lt <= ap_lastTime E
      /\ Z.abs (ap_rssi E) <= Z.abs (signal_strength py device).

Definition client_covered (device : json) (self : KismetParser) : Prop :=
  forall mac ft lt mf bs ps,
    client_fields py device = Ok (mac, ft, lt, mf, bs, ps) ->
    mac ≠ "" ->
    exists E,
      wirelessClients self !! mac = Some E
      /\ cl_firstTime E <= ft /\ lt <= cl_lastTime E
      /\ Z.abs (cl_rssi E) <= Z.abs (signal_strength py device)
      /\ forall x, x ∈ ps -> x ∈ cl_probedSsids E.

(** The same, for the class the record declares. *)
Definition covered (self : KismetParser) (device : json) : Prop :=
  forall t,
    getitem device "kismet_device_base_type" = Ok t ->
    (eq_str t "BTLE" = true -> bluetooth_covered device self)
    /\ (eq_str t "Wi-Fi AP" = true -> ap_covered device self)
    /\ (eq_str t "Wi-Fi Client" = true -> client_covered device self).

End Covered.

(** Two parsers that agree up to the order of the probed SSIDs. *)
Definition same_parser (s s' : KismetParser) : Prop :=
  devices s = devices s'
  /\ bluetoothDevices s = bluetoothDevices s'
  /\ wirelessAps s = wirelessAps s'
  /\ forall mac,
      option_Forall2 same_client
        (wirelessClients s !! mac) (wirelessClients s' !! mac).

(** ** Order of the report rows *)

(** The sort key of [x] is not above that of [y]. *)
Definition key_le (x y : row) : Prop :=
  String.ltb (sort_key y) (sort_key x) = false.

(** Another order in which a dict may hand out the items of a store. *)
Definition traversal {D : Type} (store : gmap string D)
    (items : list (string * D)) : Prop :=
  items ≡ₚ map_to_list store.

(** The rows a traversal gives, sorted as the [with] block sorts them. *)
Definition rows_of {D : Type} (mk : string -> D -> option row)
    (items : list (string * D)) : option (list row) :=
  sort_rows <$> mapM (fun kv => mk kv.1 kv.2) items.

(** Whether a text holds a space. *)
Fixpoint has_space (s : string) : bool :=
  match s with
  | EmptyString => false
  | String c r => if Ascii.eqb c " " then true else has_space r
  end.

(** A row of the device stored under [mac]: the address first, the
    signal cell last. *)
Definition row_of (mac : string) (r : row) : Prop :=
  head r = Some (CStr mac) /\ exists rssi, last r = Some (rssi_cell rssi).

(** ** The console, the output files and [main]

    What the remaining methods do outside the parser object: the
    questions asked on the console, the three output files, the summary.
    The file system holds regular files and directories under their path
    text; what the operating system and [tabulate] answer is taken as
    given.  Every method returns the world it leaves, the events it
    produced in order (log records, prompts, printed text) and how it
    ended. *)

(** What can leave a method: the exceptions of [exn], those of the
    console, and an error of the operating system outside any [try]. *)
Inductive fault : Type :=
| Python (e : exn)
| EOFError
| RecursionError
| OSError.

Inductive outcome (A : Type) : Type :=
| Returns (a : A)
| Raises (f : fault).
Arguments Returns {A} a.
Arguments Raises {A} f.

Inductive event : Type :=
| Log (r : LogRecord)
| Prompt (text : string)
| Print (text : string).

(** The content of a regular file: the text written to it, or what an
    interrupted write left. *)
Inductive content : Type :=
| Written (text : string)
| Partial.

Inductive node : Type :=
| File (c : content)
| Directory.

Record World : Type := {
  fs : gmap string node;
  stdin : list string
}.

Record System : Type := {
  (** the text of [outputDir.joinpath(name)] *)
  joinpath : string -> string -> string;
  (** the text of [path.resolve()]; [None] when it raises *)
  resolve : string -> option string;
  (** [mkdir(parents=True, exist_ok=True)]: the file system it leaves and
      whether it succeeded *)
  mkdir : string -> gmap string node -> gmap string node * bool;
  (** whether [open('w')] of a path succeeds *)
  can_open : gmap string node -> string -> bool;
  (** whether writing a text to an opened file and closing it succeeds *)
  can_write : gmap string node -> string -> string -> bool;
  (** [tabulate(rows, headings, format)] *)
  tabulate : list row -> list string -> string -> string;
  (** what the file system answers for a resolved input path *)
  read_lines : string -> file_status
}.

Definition newline : string := String (ascii_of_N 10) EmptyString.

(** [_yesNo].  [stack] is the number of nested calls the interpreter
    still allows; the input is the lines typed on the console. *)
Fixpoint _yesNo (stack : nat) (prompt : string) (input : list string)
  : list string * list event * outcome bool :=
  match stack with
  | O => (input, [], Raises RecursionError)
  | S n =>
      let ask := Prompt (prompt +:+ " (y/n): ") in
      match input with
      | [] => ([], [ask], Raises EOFError)
      | yn :: rest =>
          if bool_decide (Text.lower yn = "y") then (rest, [ask], Returns true)
          else if bool_decide (Text.lower yn = "n") then
            (rest, [ask], Returns false)
          else
            match _yesNo n prompt rest with
            | (rest', asked, r) => (rest', ask :: asked, r)
            end
      end
  end.

Section Output.

Context (py : Builtins) (os : System).

(** The common shape of [_reportBluetooth], [_reportWirelessAps] and
    [_reportWirelessClients]; they differ in the store, the row, the
    headings, the file name and the wording of the log records. *)
Definition write_report {D : Type} (mk : string -> D -> option row)
    (store : gmap string D) (noun Noun name : string)
    (headings : list string) (stack : nat)
    (outputDir filePrefix format : string) (overwrite : bool) (w : World)
  : World * list event * outcome unit :=
  if bool_decide (size store = 0%nat) then
    (w, [Log (WARNING, "No " +:+ noun +:+ " devices to report on")],
     Returns ())
  else
    let start := Log (DEBUG, "Reporting on " +:+ noun +:+ " devices") in
    let outFile := joinpath os outputDir (filePrefix +:+ name) in
    match
      if bool_decide (is_Some (fs w !! outFile)) && negb overwrite then
        _yesNo stack
          ("output file '" +:+ outFile +:+ "' exists, overwrite it?")
          (stdin w)
      else (stdin w, [], Returns true)
    with
    | (input, asked, Raises f) =>
        ({| fs := fs w; stdin := input |}, start :: asked, Raises f)
    | (input, asked, Returns false) =>
        ({| fs := fs w; stdin := input |}, start :: asked, Returns ())
    | (input, asked, Returns true) =>
        let error := "Could not write to output file '" +:+ outFile +:+ "'" in
        let failed (files : gmap string node) :=
          ({| fs := files; stdin := input |},
           start :: asked ++ [Log (ERROR, error)],
           Raises (Python (Warning error))) in
        if can_open os (fs w) outFile then
          let opened := <[outFile := File (Written "")]> (fs w) in
          match (report_rows mk store outFile).1 with
          | Raise _ => failed opened
          | Ok rows =>
              let text := tabulate os rows headings format in
              if can_write os opened outFile text then
                ({| fs := <[outFile := File (Written text)]> opened;
                    stdin := input |},
                 start :: asked
                 ++ [Log (DEBUG, Noun +:+ " report written to '"
                                 +:+ outFile +:+ "'")],
                 Returns ())
              else failed (<[outFile := File Partial]> opened)
          end
        else failed (fs w)
    end.

Definition bluetooth_headings : list string :=
  ["MAC Address"; "First Time"; "Last Time"; "Manufacturer"; "Common Name";
   "RSSI"].

Definition ap_headings : list string :=
  ["MAC Address"; "First Time"; "Last Time"; "Manufacturer"; "Channel";
   "Authentication"; "ESSID"; "RSSI"].

Definition client_headings : list string :=
  ["MAC Address"; "First Time"; "Last Time"; "Manufacturer"; "BSSID";
   "Probed SSIDs"; "RSSI"].

Definition _reportBluetooth (self : KismetParser) :=
  write_report (bluetooth_row py) (bluetoothDevices self)
    "bluetooth" "Bluetooth" "bluetooth_devices.txt" bluetooth_headings.

Definition _reportWirelessAps (self : KismetParser) :=
  write_report (ap_row py) (wirelessAps self)
    "wireless access point" "Wireless access point"
    "wireless_ap_devices.txt" ap_headings.

Definition _reportWirelessClients (self : KismetParser) :=
  write_report (client_row py) (wirelessClients self)
    "wireless client" "Wireless client"
    "wireless_client_devices.txt" client_headings.

(** [report] *)
Definition report (self : KismetParser) (stack : nat)
    (outputDir filePrefix format : string) (overwrite : bool) (w : World)
  : World * list event * outcome unit :=
  let start := Log (DEBUG, "Initiated reporting") in
  let failed (dir : string) (files : gmap string node) :=
    let error := "Could not create output directory '" +:+ dir +:+ "'" in
    ({| fs := files; stdin := stdin w |}, [start; Log (ERROR, error)],
     Raises (Python (Warning error))) in
  match resolve os outputDir with
  | None => failed outputDir (fs w)
  | Some dir =>
      match mkdir os dir (fs w) with
      | (files, false) => failed dir files
      | (files, true) =>
          let w0 := {| fs := files; stdin := stdin w |} in
          match
            _reportBluetooth self stack dir filePrefix format overwrite w0
          with
          | (w1, ev1, Raises f) => (w1, start :: ev1, Raises f)
          | (w1, ev1, Returns _) =>
              match
                _reportWirelessAps self stack dir filePrefix format
                  overwrite w1
              with
              | (w2, ev2, Raises f) => (w2, start :: ev1 ++ ev2, Raises f)
              | (w2, ev2, Returns _) =>
                  match
                    _reportWirelessClients self stack dir filePrefix format
                      overwrite w2
                  with
                  | (w3, ev3, Raises f) =>
                      (w3, start :: ev1 ++ ev2 ++ ev3, Raises f)
                  | (w3, ev3, Returns _) =>
                      (w3,
                       start :: ev1 ++ ev2 ++ ev3
                       ++ [Log (DEBUG, "Reporting complete")],
                       Returns ())
                  end
              end
          end
      end
  end.

(** [summarise] *)
Definition summarise (self : KismetParser) : string :=
  tabulate os
    [[CStr "Total bluetooth devices identified:";
      CInt (Z.of_nat (size (bluetoothDevices self)))];
     [CStr "Total wireless access points identified:";
      CInt (Z.of_nat (size (wirelessAps self)))];
     [CStr "Total wireless clients identified:";
      CInt (Z.of_nat (size (wirelessClients self)))]]
    [] "plain".

(** ** [main]

    The [try] block of [main] from the parsed arguments on; the command
    line and the logging set-up are outside the model. *)

Record Args : Type := {
  inputFiles : list string;
  outputDir : string;
  outputPrefix : string;
  format : string;
  overwrite : bool
}.

(** How the process ends: after the summary, by the [sys.exit()] of the
    [except Warning] clause, or on an exception nothing catches. *)
Inductive termination : Type :=
| Finished
| Exited
| Crashed (f : fault).

Definition uncaught (f : fault) : termination :=
  match f with
  | Python (Warning _) => Exited
  | _ => Crashed f
  end.

(** [for file in args.inputFiles: kp.addFile(file)]; [addFile] resolves
    the path before anything else. *)
Fixpoint add_files (files : list string) (self : KismetParser)
  : KismetParser * list LogRecord * outcome unit :=
  match files with
  | [] => (self, [], Returns ())
  | file :: rest =>
      match resolve os file with
      | None => (self, [], Raises OSError)
      | Some path =>
          match addFile py path (read_lines os path) self with
          | (self', log, Raise e) => (self', log, Raises (Python e))
          | (self', log, Ok _) =>
              match add_files rest self' with
              | (self'', log', r) => (self'', log ++ log', r)
              end
          end
      end
  end.

Definition main (args : Args) (stack : nat) (w : World)
  : World * list event * termination :=
  let '(kp, log0) := init in
  match add_files (inputFiles args) kp with
  | (kp1, log1, Raises f) => (w, Log <$> log0 ++ log1, uncaught f)
  | (kp1, log1, Returns _) =>
      match parse py kp1 with
      | (kp2, log2, Raise e) =>
          (w, Log <$> log0 ++ log1 ++ log2, uncaught (Python e))
      | (kp2, log2, Ok _) =>
          match
            report kp2 stack (outputDir args) (outputPrefix args)
              (format args) (overwrite args) w
          with
          | (w', ev, Raises f) =>
              (w', (Log <$> log0 ++ log1 ++ log2) ++ ev, uncaught f)
          | (w', ev, Returns _) =>
              (w',
               (Log <$> log0 ++ log1 ++ log2) ++ ev
               ++ [Print (newline +:+ "Parsing complete!" +:+ newline
                          +:+ newline +:+ summarise kp2 +:+ newline
                          +:+ newline)],
               Finished)
          end
      end
  end.

(** ** Vocabulary of the properties of the output *)

(** A console line [_yesNo] takes for an answer. *)
Definition answered (yn : string) : Prop :=
  Text.lower yn = "y" \/ Text.lower yn = "n".

(** The three report methods share their parameters. *)
Definition report_method : Type :=
  nat -> string -> string -> string -> bool -> World ->
  World * list event * outcome unit.

(** The path of the file a report method writes. *)
Definition out_file (name outputDir filePrefix : string) : string :=
  joinpath os outputDir (filePrefix +:+ name).

(** The question a report method asks before it overwrites. *)
Definition overwrite_question (outFile : string) : string :=
  "output file '" +:+ outFile +:+ "' exists, overwrite it?".

Definition write_error (outFile : string) : string :=
  "Could not write to output file '" +:+ outFile +:+ "'".

Definition create_error (dir : string) : string :=
  "Could not create output directory '" +:+ dir +:+ "'".

(** An event that is a log record: nothing asked, nothing printed. *)
Definition logged (e : event) : Prop := exists r, e = Log r.

(** What a report method may touch: no file but its own; its own file
    only if there was none, or [overwrite] was set, or the operator said
    yes; the console only if the file exists and [overwrite] is unset. *)
Definition guards (method : report_method) (name : string) : Prop :=
  forall stack outputDir filePrefix format overwrite w,
    let outFile := out_file name outputDir filePrefix in
    let res := method stack outputDir filePrefix format overwrite w in
    (forall path, path ≠ outFile -> fs res.1.1 !! path = fs w !! path)
    /\ (is_Some (fs w !! outFile) -> overwrite = false ->
        (_yesNo stack (overwrite_question outFile) (stdin w)).2
        ≠ Returns true ->
        fs res.1.1 = fs w)
    /\ (overwrite = true \/ fs w !! outFile = None ->
        stdin res.1.1 = stdin w /\ Forall logged res.1.2).

(** What a report method leaves in its file.  [rows] gives the rows of
    the store as the [with] block builds them. *)
Definition writes (method : report_method) (name : string)
    (store_size : nat) (rows : string -> result (list row))
    (headings : list string) : Prop :=
  forall stack outputDir filePrefix format overwrite w,
    let outFile := out_file name outputDir filePrefix in
    let res := method stack outputDir filePrefix format overwrite w in
    (store_size = 0%nat -> res.1.1 = w /\ res.2 = Returns ())
    /\ (res.2 = Returns () ->
        fs res.1.1 = fs w
        \/ exists table,
             rows outFile = Ok table
             /\ fs res.1.1
                = <[outFile := File (Written (tabulate os table headings
                                                format))]> (fs w))
    /\ (forall f, res.2 = Raises f ->
        fs res.1.1 = fs w
        \/ (f = Python (Warning (write_error outFile))
            /\ (fs res.1.1 = <[outFile := File (Written "")]> (fs w)
                \/ fs res.1.1 = <[outFile := File Partial]> (fs w)))).

(** An input file [addFile] refuses. *)
Definition bad_file (file : string) : Prop :=
  exists path,
    resolve os file = Some path
    /\ match read_lines os path with
       | Missing | Unreadable => True
       | Readable lines => Exists (malformed py) lines
       end.

(** The records of an input file [addFile] accepts. *)
Definition records_of (file : string) (vs : list json) : Prop :=
  exists path lines,
    resolve os file = Some path
    /\ read_lines os path = Readable lines
    /\ Forall (fun line => ¬ malformed py line) lines
    /\ vs = omap (decoded py) lines.

End Output.

(** ** A sample system

    A file system in which every path resolves to itself and every write
    succeeds, two input files, and a table layout of one line per row. *)

Module Host.

Definition join (dir name : string) : string := dir +:+ "/" +:+ name.

Definition make_dir (dir : string) (files : gmap string node)
  : gmap string node * bool :=
  match files !! dir with
  | Some (File _) => (files, false)
  | _ => (<[dir := Directory]> files, true)
  end.

Definition openable (files : gmap string node) (path : string) : bool :=
  match files !! path with
  | Some Directory => false
  | _ => true
  end.

Definition layout (rows : list row) (headings : list string)
    (format : string) : string :=
  Text.join newline
    (Text.join " | " headings
     :: ((fun r : row => Text.join " | " (format_cell <$> r)) <$> rows)).

Definition capture : list string :=
  [Sample.line (Sample.bluetooth_record "aa:bb" 10 20 "Acme" "Tag")].

(** A file whose only record declares no type. *)
Definition untyped : list string := [Sample.line (JDict [])].

Definition input (path : string) : file_status :=
  if String.eqb path "capture.ekjson" then Readable capture
  else if String.eqb path "untyped.ekjson" then Readable untyped
  else if String.eqb path "secret.ekjson" then Unreadable
  else Missing.

Definition os : System := {|
  joinpath := join;
  resolve := Some;
  mkdir := make_dir;
  can_open := openable;
  can_write := fun _ _ _ => true;
  tabulate := layout;
  read_lines := input
|}.

Definition world (files : gmap string node) (typed : list string) : World :=
  {| fs := files; stdin := typed |}.

Definition args (files : list string) (force : bool) : Args :=
  {| inputFiles := files; outputDir := "out"; outputPrefix := "";
     format := "github"; overwrite := force |}.

End Host.

(** * Properties *)

Section Facts.

Context (py : Builtins).

Implicit Types (device : json) (self : KismetParser) (mac : string).

Lemma nonempty_true (s : string) : s ≠ "" -> Text.nonempty s = true.
Proof. destruct s; [congruence | reflexivity]. Qed.

Lemma nonempty_false (s : string) : Text.nonempty s = false -> s = "".
Proof. destruct s; [reflexivity | discriminate]. Qed.

Lemma or_default_empty (d : string) : or_default "" d = d.
Proof. reflexivity. Qed.

Lemma or_default_nonempty (x d : string) : x ≠ "" -> or_default x d = x.
Proof. intros H. unfold or_default. by rewrite nonempty_true. Qed.

Lemma or_default_idem (x d : string) :
  d ≠ "" -> or_default (or_default x d) d = or_default x d.
Proof.
  intros Hd. destruct x as [|c x]; [|reflexivity].
  rewrite or_default_empty. by apply or_default_nonempty.
Qed.

(** *** What each [_process*] method does on a valid record *)

Lemma processBluetooth_insert device self mac ft lt mf nm :
  bluetooth_fields py device = Ok (mac, ft, lt, mf, nm) ->
  mac ≠ "" ->
  bluetoothDevices self !! mac = None ->
  _processBluetooth py device self =
    (set_bluetooth self mac
       {| bt_firstTime := ft; bt_lastTime := lt;
          bt_manufacturer := or_default mf "Unknown";
          bt_name := or_default nm "Unknown";
          bt_rssi := sentinel |}, []).
Proof.
  intros Hf Hm Hl. unfold _processBluetooth.
  rewrite Hf, (nonempty_true _ Hm), Hl. reflexivity.
Qed.

Lemma processBluetooth_merge device self mac ft lt mf nm E :
  bluetooth_fields py device = Ok (mac, ft, lt, mf, nm) ->
  mac ≠ "" ->
  bluetoothDevices self !! mac = Some E ->
  _processBluetooth py device self =
    (set_bluetooth self mac
       {| bt_firstTime := Z.min ft (bt_firstTime E);
          bt_lastTime := Z.max lt (bt_lastTime E);
          bt_manufacturer := bt_manufacturer E;
          bt_name := bt_name E;
          bt_rssi := bt_rssi E |},
     if bool_decide (or_default mf "Unknown" ≠ bt_manufacturer E)
        || bool_decide (or_default nm "Unknown" ≠ bt_name E)
     then [conflict_warning mac] else []).
Proof.
  intros Hf Hm Hl. unfold _processBluetooth.
  rewrite Hf, (nonempty_true _ Hm), Hl. reflexivity.
Qed.

Lemma processWirelessAp_insert device self mac ft lt mf ch au es :
  ap_fields py device = Ok (mac, ft, lt, mf, ch, au, es) ->
  mac ≠ "" ->
  wirelessAps self !! mac = None ->
  _processWirelessAp py device self =
    (set_ap self mac
       {| ap_firstTime := ft; ap_lastTime := lt;
          ap_manufacturer := or_default mf "Unknown";
          ap_channel := ch;
          ap_auth := or_default au "Unknown";
          ap_essid := or_default es "Unknown SSID";
          ap_rssi := signal_strength py device |}, []).
Proof.
  intros Hf Hm Hl. unfold _processWirelessAp.
  rewrite Hf, (nonempty_true _ Hm), Hl. reflexivity.
Qed.

Lemma processWirelessAp_merge device self mac ft lt mf ch au es E :
  ap_fields py device = Ok (mac, ft, lt, mf, ch, au, es) ->
  mac ≠ "" ->
  wirelessAps self !! mac = Some E ->
  _processWirelessAp py device self =
    (set_ap self mac
       {| ap_firstTime := Z.min ft (ap_firstTime E);
          ap_lastTime := Z.max lt (ap_lastTime E);
          ap_manufacturer := ap_manufacturer E;
          ap_channel := ap_channel E;
          ap_auth := ap_auth E;
          ap_essid := ap_essid E;
          ap_rssi := best_signal (signal_strength py device) (ap_rssi E) |},
     if bool_decide (or_default mf "Unknown" ≠ ap_manufacturer E)
        || bool_decide (or_default es "Unknown SSID" ≠ ap_essid E)
        || bool_decide (ch ≠ ap_channel E)
        || bool_decide (or_default au "Unknown" ≠ ap_auth E)
     then [conflict_warning mac] else []).
Proof.
  intros Hf Hm Hl. unfold _processWirelessAp.
  rewrite Hf, (nonempty_true _ Hm), Hl. reflexivity.
Qed.

Lemma processWirelessClient_insert device self mac ft lt mf bs ps :
  client_fields py device = Ok (mac, ft, lt, mf, bs, ps) ->
  mac ≠ "" ->
  wirelessClients self !! mac = None ->
  _processWirelessClient py device self =
    (set_client self mac
       {| cl_firstTime := ft; cl_lastTime := lt;
          cl_manufacturer := or_default mf "Unknown";
          cl_bssid := or_default bs "Unknown";
          cl_probedSsids := ps;
          cl_rssi := signal_strength py device |}, []).
Proof.
  intros Hf Hm Hl. unfold _processWirelessClient.
  rewrite Hf, (nonempty_true _ Hm), Hl. reflexivity.
Qed.

Lemma processWirelessClient_merge device self mac ft lt mf bs ps E :
  client_fields py device = Ok (mac, ft, lt, mf, bs, ps) ->
  mac ≠ "" ->
  wirelessClients self !! mac = Some E ->
  _processWirelessClient py device self =
    (set_client self mac
       {| cl_firstTime := Z.min ft (cl_firstTime E);
          cl_lastTime := Z.max lt (cl_lastTime E);
          cl_manufacturer := cl_manufacturer E;
          cl_bssid := cl_bssid E;
          cl_probedSsids := list_of_set py (ps ++ cl_probedSsids E);
          cl_rssi := best_signal (signal_strength py device) (cl_rssi E) |},
     if bool_decide (or_default mf "Unknown" ≠ cl_manufacturer E)
        || bool_decide (or_default bs "Unknown" ≠ cl_bssid E)
     then [conflict_warning mac] else []).
Proof.
  intros Hf Hm Hl. unfold _processWirelessClient.
  rewrite Hf, (nonempty_true _ Hm), Hl. reflexivity.
Qed.

(** A record that is not valid leaves the parser as it was. *)

Lemma processBluetooth_invalid device self :
  (forall mac ft lt mf nm,
      bluetooth_fields py device = Ok (mac, ft, lt, mf, nm) -> mac = "") ->
  (_processBluetooth py device self).1 = self.
Proof.
  intros H. unfold _processBluetooth.
  destruct (bluetooth_fields py device) as [[[[[mac ft] lt] mf] nm]|e] eqn:Hf;
    [|reflexivity].
  rewrite (H _ _ _ _ _ eq_refl). reflexivity.
Qed.

Lemma processWirelessAp_invalid device self :
  (forall mac ft lt mf ch au es,
      ap_fields py device = Ok (mac, ft, lt, mf, ch, au, es) -> mac = "") ->
  (_processWirelessAp py device self).1 = self.
Proof.
  intros H. unfold _processWirelessAp.
  destruct (ap_fields py device)
    as [[[[[[[mac ft] lt] mf] ch] au] es]|e] eqn:Hf; [|reflexivity].
  rewrite (H _ _ _ _ _ _ _ eq_refl). reflexivity.
Qed.

Lemma processWirelessClient_invalid device self :
  (forall mac ft lt mf bs ps,
      client_fields py device = Ok (mac, ft, lt, mf, bs, ps) -> mac = "") ->
  (_processWirelessClient py device self).1 = self.
Proof.
  intros H. unfold _processWirelessClient.
  destruct (client_fields py device)
    as [[[[[[mac ft] lt] mf] bs] ps]|e] eqn:Hf; [|reflexivity].
  rewrite (H _ _ _ _ _ _ eq_refl). reflexivity.
Qed.

End Facts.

(** ** Input files *)

Section AddFile.

Context (py : Builtins).

Lemma set_devices_id (self : KismetParser) :
  set_devices self (devices self) = self.
Proof. by destruct self. Qed.

Lemma set_devices_twice (self : KismetParser) (l k : list json) :
  set_devices (set_devices self l) k = set_devices self k.
Proof. reflexivity. Qed.

Lemma decoded_malformed (line : string) :
  malformed py line -> decoded py line = None.
Proof.
  intros [Hs [e He]]. unfold decoded.
  rewrite (nonempty_true _ Hs), He. reflexivity.
Qed.

Lemma add_lines_malformed (file : string) (lines : list string) :
  forall self : KismetParser,
    (exists line, line ∈ lines /\ malformed py line) ->
    exists pre bad post,
      lines = pre ++ bad :: post
      /\ malformed py bad
      /\ (forall l, l ∈ pre -> ~ malformed py l)
      /\ add_lines py file lines self =
           (set_devices self (devices self ++ omap (decoded py) pre),
            [(ERROR, "Input file '" +:+ file +:+ "' is not a valid EKJSON file")],
            Raise (Warning
                     ("Input file '" +:+ file +:+ "' is not a valid EKJSON file"))).
Proof.
  induction lines as [|line rest IH]; intros self (bad & Hin & Hbad).
  - by apply elem_of_nil in Hin.
  - cbn [add_lines].
    destruct (Text.nonempty (Text.strip line)) eqn:Hne.
    + destruct (json_loads py line) as [v|e] eqn:Hl.
      * assert (Hrest : exists b, b ∈ rest /\ malformed py b).
        { apply elem_of_cons in Hin as [->|Hin]; [|by eauto].
          destruct Hbad as [_ [e He]]. congruence. }
        destruct (IH (set_devices self (devices self ++ [v])) Hrest)
          as (pre & b & post & -> & Hb & Hpre & Heq).
        exists (line :: pre), b, post.
        split; [done|]. split; [done|]. split.
        -- intros l [->|Hl']%elem_of_cons; [|by apply Hpre].
           intros [_ [e He]]. congruence.
        -- rewrite Heq. cbn [omap list_omap]. unfold decoded at 2.
           rewrite Hne, Hl. cbn [set_devices devices].
           by rewrite <- app_assoc.
      * exists [], line, rest.
        split; [done|]. split; [|split].
        -- split; [|by exists e]. intros Hs. by rewrite Hs in Hne.
        -- intros l Hl'. by apply elem_of_nil in Hl'.
        -- cbn. by rewrite app_nil_r, set_devices_id.
    + assert (Hrest : exists b, b ∈ rest /\ malformed py b).
      { apply elem_of_cons in Hin as [->|Hin]; [|by eauto].
        destruct Hbad as [Hs _]. apply nonempty_false in Hne. done. }
      destruct (IH self Hrest) as (pre & b & post & -> & Hb & Hpre & Heq).
      exists (line :: pre), b, post.
      split; [done|]. split; [done|]. split.
      * intros l [->|Hl']%elem_of_cons; [|by apply Hpre].
        intros [Hs _]. apply nonempty_false in Hne. done.
      * rewrite Heq. cbn [omap list_omap]. unfold decoded at 2.
        by rewrite Hne.
Qed.


End AddFile.

(** ** Classification *)

Section Classify.

Context (py : Builtins).

Implicit Types (device : json) (self : KismetParser).

Lemma parse_device_missing_type (kvs : list (string * json)) self :
  assoc "kismet_device_base_type" kvs = None ->
  parse_device py (JDict kvs) self =
    (self, [], Raise (KeyError "kismet_device_base_type")).
Proof. intros H. unfold parse_device, getitem. by rewrite H. Qed.

Lemma parse_device_not_a_dict device self :
  (forall kvs, device ≠ JDict kvs) ->
  parse_device py device self = (self, [], Raise TypeError).
Proof. intros H. destruct device; try reflexivity. by destruct (H kvs). Qed.

Lemma parse_device_type_not_str device self (t : json) :
  getitem device "kismet_device_base_type" = Ok t ->
  (forall s, t ≠ JStr s) ->
  parse_device py device self = (self, [], Raise TypeError).
Proof.
  intros Hg Ht. unfold parse_device. rewrite Hg.
  destruct t; try reflexivity. by destruct (Ht s).
Qed.

(** A type that is a string other than the three known ones is logged
    and skipped: the parser is unchanged and the loop goes on. *)
Lemma parse_device_unrecognised device self (t : string) :
  getitem device "kismet_device_base_type" = Ok (JStr t) ->
  t ≠ "BTLE" -> t ≠ "Wi-Fi AP" -> t ≠ "Wi-Fi Client" ->
  parse_device py device self =
    (self,
     [(WARNING, "Device of unrecognised type '" +:+ t +:+ "' detected")],
     Ok ()).
Proof.
  intros Hg H1 H2 H3. unfold parse_device. rewrite Hg. unfold eq_str.
  apply String.eqb_neq in H1, H2, H3. rewrite H1, H2, H3. reflexivity.
Qed.

End Classify.

(** ** Defaults *)

Section Defaults.

Context (py : Builtins).

Implicit Types (device : json) (self : KismetParser) (mac : string).

(** An item of the first [try] block whose key is absent fails the
    block: the record is dropped as invalid. *)

Ltac absent_item Hk He :=
  repeat (match goal with
          | |- context [getitem ?d ?key] =>
              let H := fresh in
              destruct (getitem d key) eqn:H; cbn; [|by eauto]
          | |- context [int py ?v] =>
              destruct (int py v); cbn; [|by eauto]
          | |- context [in_keys ?k ?d] =>
              destruct (in_keys k d) as [[|]|]; cbn; [| |by eauto]
          | |- context [if truthy ?v then _ else _] =>
              destruct (truthy v); cbn
          end);
  try (set_unfold; intuition congruence);
  try (cbn in He; repeat match type of He with
                    | context [getitem ?d ?key] =>
                        let H := fresh in
                        destruct (getitem d key) eqn:H; cbn in He;
                        try congruence
                    end).

Lemma bluetooth_fields_absent device (k : string) (e : exn) :
  k ∈ ["kismet_device_base_manuf"; "kismet_device_base_name"] ->
  getitem device k = Raise e ->
  exists e', bluetooth_fields py device = Raise e'.
Proof. intros Hk He. unfold bluetooth_fields. absent_item Hk He. Qed.

Lemma ap_fields_absent device (k : string) (e : exn) :
  k ∈ ["kismet_device_base_manuf"; "kismet_device_base_crypt"] ->
  getitem device k = Raise e ->
  exists e', ap_fields py device = Raise e'.
Proof. intros Hk He. unfold ap_fields. absent_item Hk He. Qed.

Lemma ap_fields_absent_essid device (e : exn) :
  essid_item device = Raise e ->
  exists e', ap_fields py device = Raise e'.
Proof.
  intros He. unfold essid_item in He. unfold ap_fields.
  assert (Hk : True) by exact I. absent_item Hk He.
Qed.

Lemma client_fields_absent device (k : string) (e : exn) :
  k ∈ ["kismet_device_base_manuf"] ->
  getitem device k = Raise e ->
  exists e', client_fields py device = Raise e'.
Proof. intros Hk He. unfold client_fields. absent_item Hk He. Qed.

Lemma client_fields_absent_bssid device (e : exn) :
  bssid_item device = Raise e ->
  exists e', client_fields py device = Raise e'.
Proof.
  intros He. unfold bssid_item in He. unfold client_fields.
  assert (Hk : True) by exact I. absent_item Hk He.
Qed.

Lemma processBluetooth_raise device self (e : exn) :
  bluetooth_fields py device = Raise e ->
  _processBluetooth py device self =
    (self, [(WARNING, "Invalid bluetooth device record specified")]).
Proof. intros H. unfold _processBluetooth. by rewrite H. Qed.

Lemma processWirelessAp_raise device self (e : exn) :
  ap_fields py device = Raise e ->
  _processWirelessAp py device self =
    (self,
     [(WARNING, "Invalid wireless access point device record specified")]).
Proof. intros H. unfold _processWirelessAp. by rewrite H. Qed.

Lemma processWirelessClient_raise device self (e : exn) :
  client_fields py device = Raise e ->
  _processWirelessClient py device self =
    (self, [(WARNING, "Invalid wireless client device record specified")]).
Proof. intros H. unfold _processWirelessClient. by rewrite H. Qed.

(** C3 (as the code has it): when every item of the first [try] block
    is present and well-formed and the hardware address is not empty, a
    first insertion stores the device, logs nothing, and each defaultable
    field whose text is empty holds its default: ["Unknown"] for
    manufacturer, name, authentication and bssid, ["Unknown SSID"] for
    essid.  When the item of a defaultable field is absent, the record is
    logged as invalid and dropped. *)
Theorem empty_field_default device self :
  (forall mac ft lt mf nm,
      bluetooth_fields py device = Ok (mac, ft, lt, mf, nm) ->
      mac ≠ "" ->
      bluetoothDevices self !! mac = None ->
      exists d,
        _processBluetooth py device self = (set_bluetooth self mac d, [])
        /\ (mf = "" -> bt_manufacturer d = "Unknown")
        /\ (nm = "" -> bt_name d = "Unknown"))
  /\ (forall mac ft lt mf ch au es,
      ap_fields py device = Ok (mac, ft, lt, mf, ch, au, es) ->
      mac ≠ "" ->
      wirelessAps self !! mac = None ->
      exists d,
        _processWirelessAp py device self = (set_ap self mac d, [])
        /\ (mf = "" -> ap_manufacturer d = "Unknown")
        /\ (au = "" -> ap_auth d = "Unknown")
        /\ (es = "" -> ap_essid d = "Unknown SSID"))
  /\ (forall mac ft lt mf bs ps,
      client_fields py device = Ok (mac, ft, lt, mf, bs, ps) ->
      mac ≠ "" ->
      wirelessClients self !! mac = None ->
      exists d,
        _processWirelessClient py device self = (set_client self mac d, [])
        /\ (mf = "" -> cl_manufacturer d = "Unknown")
        /\ (bs = "" -> cl_bssid d = "Unknown"))
  /\ ((exists e, getitem device "kismet_device_base_manuf" = Raise e) ->
      _processBluetooth py device self =
        (self, [(WARNING, "Invalid bluetooth device record specified")])
      /\ _processWirelessAp py device self =
        (self,
         [(WARNING, "Invalid wireless access point device record specified")])
      /\ _processWirelessClient py device self =
        (self,
         [(WARNING, "Invalid wireless client device record specified")]))
  /\ ((exists e, getitem device "kismet_device_base_name" = Raise e) ->
      _processBluetooth py device self =
        (self, [(WARNING, "Invalid bluetooth device record specified")]))
  /\ ((exists e, getitem device "kismet_device_base_crypt" = Raise e) ->
      _processWirelessAp py device self =
        (self,
         [(WARNING, "Invalid wireless access point device record specified")]))
  /\ ((exists e, essid_item device = Raise e) ->
      _processWirelessAp py device self =
        (self,
         [(WARNING, "Invalid wireless access point device record specified")]))
  /\ ((exists e, bssid_item device = Raise e) ->
      _processWirelessClient py device self =
        (self,
         [(WARNING, "Invalid wireless client device record specified")])).
Proof.
  split; [|split; [|split; [|split; [|split; [|split; [|split]]]]]].
  - intros mac ft lt mf nm Hf Hm Hl.
    eexists. split; [by apply (processBluetooth_insert py _ _ _ _ _ _ _ Hf)|].
    by split; intros ->.
  - intros mac ft lt mf ch au es Hf Hm Hl.
    eexists. split; [by apply (processWirelessAp_insert py _ _ _ _ _ _ _ _ _ Hf)|].
    by repeat split; intros ->.
  - intros mac ft lt mf bs ps Hf Hm Hl.
    eexists.
    split; [by apply (processWirelessClient_insert py _ _ _ _ _ _ _ _ Hf)|].
    by split; intros ->.
  - intros [e He]. split; [|split].
    + destruct (bluetooth_fields_absent device "kismet_device_base_manuf" e
                  ltac:(set_solver) He) as [e' H].
      by eapply processBluetooth_raise.
    + destruct (ap_fields_absent device "kismet_device_base_manuf" e
                  ltac:(set_solver) He) as [e' H].
      by eapply processWirelessAp_raise.
    + destruct (client_fields_absent device "kismet_device_base_manuf" e
                  ltac:(set_solver) He) as [e' H].
      by eapply processWirelessClient_raise.
  - intros [e He].
    destruct (bluetooth_fields_absent device "kismet_device_base_name" e
                ltac:(set_solver) He) as [e' H].
    by eapply processBluetooth_raise.
  - intros [e He].
    destruct (ap_fields_absent device "kismet_device_base_crypt" e
                ltac:(set_solver) He) as [e' H].
    by eapply processWirelessAp_raise.
  - intros [e He].
    destruct (ap_fields_absent_essid device e He) as [e' H].
    by eapply processWirelessAp_raise.
  - intros [e He].
    destruct (client_fields_absent_bssid device e He) as [e' H].
    by eapply processWirelessClient_raise.
Qed.

End Defaults.

(** ** Merging *)

Section Merge.

Context (py : Builtins).

Implicit Types (device : json) (self : KismetParser) (mac : string).


Lemma best_signal_idem (n e : Z) :
  best_signal n (best_signal n e) = best_signal n e.
Proof.
  unfold best_signal.
  destruct (Z.ltb_spec (Z.abs n) (Z.abs e)) as [H|H].
  - by rewrite Z.ltb_irrefl.
  - by apply Z.ltb_ge in H as ->.
Qed.

Lemma lookup_set_bluetooth self mac d :
  bluetoothDevices (set_bluetooth self mac d) !! mac = Some d.
Proof. apply lookup_insert_eq. Qed.

Lemma lookup_set_ap self mac d :
  wirelessAps (set_ap self mac d) !! mac = Some d.
Proof. apply lookup_insert_eq. Qed.

Lemma lookup_set_client self mac d :
  wirelessClients (set_client self mac d) !! mac = Some d.
Proof. apply lookup_insert_eq. Qed.


Lemma conflict_log (P : Prop) (b : bool) (w : LogRecord) :
  (b = true <-> P) ->
  (P -> (if b then [w] else []) = [w])
  /\ (~ P -> (if b then [w] else []) = []).
Proof.
  intros [H1 H2]. destruct b; split; intros HP; try reflexivity.
  - destruct HP. by apply H1.
  - by specialize (H2 HP).
Qed.

(** C5: merging a valid record into the existing entry [E] of its
    address keeps [E]'s identity fields (manufacturer and name;
    manufacturer, essid, channel and authentication; manufacturer and
    bssid), and the only record logged is the conflict warning naming the
    address, logged exactly when one of these fields of the new record
    differs from [E]'s. *)
Theorem merge_keeps_first_metadata device self :
  (forall mac ft lt mf nm E,
      bluetooth_fields py device = Ok (mac, ft, lt, mf, nm) ->
      mac ≠ "" ->
      bluetoothDevices self !! mac = Some E ->
      let differs :=
        or_default mf "Unknown" ≠ bt_manufacturer E
        \/ or_default nm "Unknown" ≠ bt_name E in
      exists E' log,
        _processBluetooth py device self = (set_bluetooth self mac E', log)
        /\ bt_manufacturer E' = bt_manufacturer E
        /\ bt_name E' = bt_name E
        /\ (differs -> log = [conflict_warning mac])
        /\ (~ differs -> log = []))
  /\ (forall mac ft lt mf ch au es E,
      ap_fields py device = Ok (mac, ft, lt, mf, ch, au, es) ->
      mac ≠ "" ->
      wirelessAps self !! mac = Some E ->
      let differs :=
        or_default mf "Unknown" ≠ ap_manufacturer E
        \/ or_default es "Unknown SSID" ≠ ap_essid E
        \/ ch ≠ ap_channel E
        \/ or_default au "Unknown" ≠ ap_auth E in
      exists E' log,
        _processWirelessAp py device self = (set_ap self mac E', log)
        /\ ap_manufacturer E' = ap_manufacturer E
        /\ ap_essid E' = ap_essid E
        /\ ap_channel E' = ap_channel E
        /\ ap_auth E' = ap_auth E
        /\ (differs -> log = [conflict_warning mac])
        /\ (~ differs -> log = []))
  /\ (forall mac ft lt mf bs ps E,
      client_fields py device = Ok (mac, ft, lt, mf, bs, ps) ->
      mac ≠ "" ->
      wirelessClients self !! mac = Some E ->
      let differs :=
        or_default mf "Unknown" ≠ cl_manufacturer E
        \/ or_default bs "Unknown" ≠ cl_bssid E in
      exists E' log,
        _processWirelessClient py device self = (set_client self mac E', log)
        /\ cl_manufacturer E' = cl_manufacturer E
        /\ cl_bssid E' = cl_bssid E
        /\ (differs -> log = [conflict_warning mac])
        /\ (~ differs -> log = [])).
Proof.
  split; [|split].
  - intros mac ft lt mf nm E Hf Hm Hl differs.
    rewrite (processBluetooth_merge py _ _ _ _ _ _ _ _ Hf Hm Hl).
    do 2 eexists. split; [reflexivity|]. cbn. do 2 (split; [done|]).
    apply conflict_log.
    by rewrite !orb_true_iff, !bool_decide_eq_true.
  - intros mac ft lt mf ch au es E Hf Hm Hl differs.
    rewrite (processWirelessAp_merge py _ _ _ _ _ _ _ _ _ _ Hf Hm Hl).
    do 2 eexists. split; [reflexivity|]. cbn. do 4 (split; [done|]).
    subst differs. apply conflict_log.
    rewrite !orb_true_iff, !bool_decide_eq_true. tauto.
  - intros mac ft lt mf bs ps E Hf Hm Hl differs.
    rewrite (processWirelessClient_merge py _ _ _ _ _ _ _ _ _ Hf Hm Hl).
    do 2 eexists. split; [reflexivity|]. cbn. do 2 (split; [done|]).
    apply conflict_log.
    by rewrite !orb_true_iff, !bool_decide_eq_true.
Qed.

(** C6: two valid records of one class with the same hardware address,
    processed into a store that has no entry for it, leave an entry whose
    [firstTime] is the smaller of the two and whose [lastTime] is the
    larger, in whichever order they are processed. *)
Theorem time_range_commutes (a b : json) self :
  (forall mac fa la mfa nma fb lb mfb nmb,
      bluetooth_fields py a = Ok (mac, fa, la, mfa, nma) ->
      bluetooth_fields py b = Ok (mac, fb, lb, mfb, nmb) ->
      mac ≠ "" ->
      bluetoothDevices self !! mac = None ->
      exists ab ba,
        bluetoothDevices
          (_processBluetooth py b (_processBluetooth py a self).1).1 !! mac
          = Some ab
        /\ bluetoothDevices
          (_processBluetooth py a (_processBluetooth py b self).1).1 !! mac
          = Some ba
        /\ bt_firstTime ab = Z.min fa fb /\ bt_lastTime ab = Z.max la lb
        /\ bt_firstTime ba = Z.min fa fb /\ bt_lastTime ba = Z.max la lb)
  /\ (forall mac fa la mfa cha aua esa fb lb mfb chb aub esb,
      ap_fields py a = Ok (mac, fa, la, mfa, cha, aua, esa) ->
      ap_fields py b = Ok (mac, fb, lb, mfb, chb, aub, esb) ->
      mac ≠ "" ->
      wirelessAps self !! mac = None ->
      exists ab ba,
        wirelessAps
          (_processWirelessAp py b (_processWirelessAp py a self).1).1 !! mac
          = Some ab
        /\ wirelessAps
          (_processWirelessAp py a (_processWirelessAp py b self).1).1 !! mac
          = Some ba
        /\ ap_firstTime ab = Z.min fa fb /\ ap_lastTime ab = Z.max la lb
        /\ ap_firstTime ba = Z.min fa fb /\ ap_lastTime ba = Z.max la lb)
  /\ (forall mac fa la mfa bsa psa fb lb mfb bsb psb,
      client_fields py a = Ok (mac, fa, la, mfa, bsa, psa) ->
      client_fields py b = Ok (mac, fb, lb, mfb, bsb, psb) ->
      mac ≠ "" ->
      wirelessClients self !! mac = None ->
      exists ab ba,
        wirelessClients
          (_processWirelessClient py b
             (_processWirelessClient py a self).1).1 !! mac
          = Some ab
        /\ wirelessClients
          (_processWirelessClient py a
             (_processWirelessClient py b self).1).1 !! mac
          = Some ba
        /\ cl_firstTime ab = Z.min fa fb /\ cl_lastTime ab = Z.max la lb
        /\ cl_firstTime ba = Z.min fa fb /\ cl_lastTime ba = Z.max la lb).
Proof.
  split; [|split].
  - intros mac fa la mfa nma fb lb mfb nmb Ha Hb Hm Hl.
    rewrite (processBluetooth_insert py _ _ _ _ _ _ _ Ha Hm Hl).
    rewrite (processBluetooth_insert py _ _ _ _ _ _ _ Hb Hm Hl).
    cbn [fst].
    rewrite (processBluetooth_merge py _ _ _ _ _ _ _ _ Hb Hm
               (lookup_set_bluetooth _ _ _)).
    rewrite (processBluetooth_merge py _ _ _ _ _ _ _ _ Ha Hm
               (lookup_set_bluetooth _ _ _)).
    cbn [fst]. rewrite !lookup_set_bluetooth.
    do 2 eexists. do 2 (split; [reflexivity|]). cbn. lia.
  - intros mac fa la mfa cha aua esa fb lb mfb chb aub esb Ha Hb Hm Hl.
    rewrite (processWirelessAp_insert py _ _ _ _ _ _ _ _ _ Ha Hm Hl).
    rewrite (processWirelessAp_insert py _ _ _ _ _ _ _ _ _ Hb Hm Hl).
    cbn [fst].
    rewrite (processWirelessAp_merge py _ _ _ _ _ _ _ _ _ _ Hb Hm
               (lookup_set_ap _ _ _)).
    rewrite (processWirelessAp_merge py _ _ _ _ _ _ _ _ _ _ Ha Hm
               (lookup_set_ap _ _ _)).
    cbn [fst]. rewrite !lookup_set_ap.
    do 2 eexists. do 2 (split; [reflexivity|]). cbn. lia.
  - intros mac fa la mfa bsa psa fb lb mfb bsb psb Ha Hb Hm Hl.
    rewrite (processWirelessClient_insert py _ _ _ _ _ _ _ _ Ha Hm Hl).
    rewrite (processWirelessClient_insert py _ _ _ _ _ _ _ _ Hb Hm Hl).
    cbn [fst].
    rewrite (processWirelessClient_merge py _ _ _ _ _ _ _ _ _ Hb Hm
               (lookup_set_client _ _ _)).
    rewrite (processWirelessClient_merge py _ _ _ _ _ _ _ _ _ Ha Hm
               (lookup_set_client _ _ _)).
    cbn [fst]. rewrite !lookup_set_client.
    do 2 eexists. do 2 (split; [reflexivity|]). cbn. lia.
Qed.

End Merge.

(** ** Processing a record twice *)

Section Idempotence.

Context (py : Builtins).

Implicit Types (device : json) (self : KismetParser) (mac : string).

Lemma set_bluetooth_twice self mac (d d' : BluetoothDevice) :
  set_bluetooth (set_bluetooth self mac d) mac d' = set_bluetooth self mac d'.
Proof. unfold set_bluetooth. cbn. by rewrite insert_insert_eq. Qed.

Lemma set_ap_twice self mac (d d' : WirelessAp) :
  set_ap (set_ap self mac d) mac d' = set_ap self mac d'.
Proof. unfold set_ap. cbn. by rewrite insert_insert_eq. Qed.

Lemma set_client_twice self mac (d d' : WirelessClient) :
  set_client (set_client self mac d) mac d' = set_client self mac d'.
Proof. unfold set_client. cbn. by rewrite insert_insert_eq. Qed.

Lemma best_signal_self (r : Z) : best_signal r r = r.
Proof. unfold best_signal. by rewrite Z.ltb_irrefl. Qed.

Lemma same_client_refl (d : WirelessClient) : same_client d d.
Proof. by repeat split. Qed.

Lemma processBluetooth_twice device self :
  (_processBluetooth py device (_processBluetooth py device self).1).1
  = (_processBluetooth py device self).1.
Proof.
  destruct (bluetooth_fields py device)
    as [[[[[mac ft] lt] mf] nm]|e] eqn:Hf.
  2: { unfold _processBluetooth. rewrite Hf. cbn. by rewrite ?Hf. }
  destruct (decide (mac = "")) as [->|Hm].
  { unfold _processBluetooth. rewrite Hf. cbn. by rewrite ?Hf. }
  destruct (bluetoothDevices self !! mac) as [E|] eqn:Hl.
  - rewrite (processBluetooth_merge py _ _ _ _ _ _ _ _ Hf Hm Hl). cbn [fst].
    rewrite (processBluetooth_merge py _ _ _ _ _ _ _ _ Hf Hm
               (lookup_set_bluetooth _ _ _)).
    cbn [fst bt_firstTime bt_lastTime bt_manufacturer bt_name bt_rssi].
    rewrite set_bluetooth_twice. do 2 f_equal; lia.
  - rewrite (processBluetooth_insert py _ _ _ _ _ _ _ Hf Hm Hl). cbn [fst].
    rewrite (processBluetooth_merge py _ _ _ _ _ _ _ _ Hf Hm
               (lookup_set_bluetooth _ _ _)).
    cbn [fst bt_firstTime bt_lastTime bt_manufacturer bt_name bt_rssi].
    rewrite set_bluetooth_twice. do 2 f_equal; lia.
Qed.

Lemma processWirelessAp_twice device self :
  (_processWirelessAp py device (_processWirelessAp py device self).1).1
  = (_processWirelessAp py device self).1.
Proof.
  destruct (ap_fields py device)
    as [[[[[[[mac ft] lt] mf] ch] au] es]|e] eqn:Hf.
  2: { unfold _processWirelessAp. rewrite Hf. cbn. by rewrite ?Hf. }
  destruct (decide (mac = "")) as [->|Hm].
  { unfold _processWirelessAp. rewrite Hf. cbn. by rewrite ?Hf. }
  destruct (wirelessAps self !! mac) as [E|] eqn:Hl.
  - rewrite (processWirelessAp_merge py _ _ _ _ _ _ _ _ _ _ Hf Hm Hl).
    cbn [fst].
    rewrite (processWirelessAp_merge py _ _ _ _ _ _ _ _ _ _ Hf Hm
               (lookup_set_ap _ _ _)).
    cbn [fst ap_firstTime ap_lastTime ap_manufacturer ap_channel ap_auth
         ap_essid ap_rssi].
    rewrite set_ap_twice, best_signal_idem. do 2 f_equal; lia.
  - rewrite (processWirelessAp_insert py _ _ _ _ _ _ _ _ _ Hf Hm Hl).
    cbn [fst].
    rewrite (processWirelessAp_merge py _ _ _ _ _ _ _ _ _ _ Hf Hm
               (lookup_set_ap _ _ _)).
    cbn [fst ap_firstTime ap_lastTime ap_manufacturer ap_channel ap_auth
         ap_essid ap_rssi].
    rewrite set_ap_twice, best_signal_self. do 2 f_equal; lia.
Qed.

Lemma processWirelessClient_twice device self :
  set_semantics py ->
  let s1 := (_processWirelessClient py device self).1 in
  let s2 := (_processWirelessClient py device s1).1 in
  devices s2 = devices s1
  /\ bluetoothDevices s2 = bluetoothDevices s1
  /\ wirelessAps s2 = wirelessAps s1
  /\ forall mac,
      option_Forall2 same_client
        (wirelessClients s2 !! mac) (wirelessClients s1 !! mac).
Proof.
  intros Hset s1 s2.
  assert (Hel : forall l x, x ∈ list_of_set py l <-> x ∈ l)
    by (intros l; apply (Hset l)).
  assert (Hrefl : forall s : KismetParser, forall mac,
             option_Forall2 same_client
               (wirelessClients s !! mac) (wirelessClients s !! mac)).
  { intros s mac. destruct (wirelessClients s !! mac); constructor.
    apply same_client_refl. }
  destruct (client_fields py device)
    as [[[[[[mac ft] lt] mf] bs] ps]|e] eqn:Hf.
  2: { subst s1 s2. unfold _processWirelessClient. rewrite Hf. cbn.
       rewrite ?Hf. cbn. eauto. }
  destruct (decide (mac = "")) as [->|Hm].
  { subst s1 s2. unfold _processWirelessClient. rewrite Hf. cbn.
    rewrite ?Hf. cbn. eauto. }
  assert (Hstep : forall d0,
             s1 = set_client self mac d0 ->
             cl_firstTime d0 <= ft -> lt <= cl_lastTime d0 ->
             best_signal (signal_strength py device) (cl_rssi d0) = cl_rssi d0 ->
             (forall x, x ∈ ps -> x ∈ cl_probedSsids d0) ->
             devices s2 = devices s1
             /\ bluetoothDevices s2 = bluetoothDevices s1
             /\ wirelessAps s2 = wirelessAps s1
             /\ forall mac',
                 option_Forall2 same_client
                   (wirelessClients s2 !! mac') (wirelessClients s1 !! mac')).
  { intros d0 Hs1 Hft Hlt Hr Hps. subst s2. rewrite Hs1.
    rewrite (processWirelessClient_merge py _ _ _ _ _ _ _ _ _ Hf Hm
               (lookup_set_client _ _ _)).
    cbn [fst]. rewrite set_client_twice.
    do 3 (split; [reflexivity|]).
    intros mac'. unfold set_client. cbn [wirelessClients].
    destruct (decide (mac = mac')) as [<-|Hne].
    - rewrite !lookup_insert_eq. constructor.
      unfold same_client. cbn. rewrite Hr.
      repeat split; try lia.
      + intros Hx. apply (proj1 (Hel _ _)) in Hx.
        apply elem_of_app in Hx as [Hx|Hx]; auto.
      + intros Hx. apply (proj2 (Hel _ _)). apply elem_of_app. by right.
    - rewrite !lookup_insert_ne by done. apply Hrefl. }
  destruct (wirelessClients self !! mac) as [E|] eqn:Hl.
  - eapply Hstep.
    + subst s1.
      by rewrite (processWirelessClient_merge py _ _ _ _ _ _ _ _ _ Hf Hm Hl).
    + cbn. lia.
    + cbn. lia.
    + cbn. apply best_signal_idem.
    + cbn. intros x Hx. apply (proj2 (Hel _ _)). apply elem_of_app. by left.
  - eapply Hstep.
    + subst s1.
      by rewrite (processWirelessClient_insert py _ _ _ _ _ _ _ _ Hf Hm Hl).
    + cbn. lia.
    + cbn. lia.
    + cbn. apply best_signal_self.
    + cbn. auto.
Qed.

(** C7: processing the same record a second time right after the first
    changes nothing: the parser is the same for a Bluetooth and for an
    access-point record, and for a client record it is the same up to
    the order in which [probedSsids] lists its set. *)
Theorem process_twice_unchanged device self :
  set_semantics py ->
  (_processBluetooth py device (_processBluetooth py device self).1).1
    = (_processBluetooth py device self).1
  /\ (_processWirelessAp py device (_processWirelessAp py device self).1).1
    = (_processWirelessAp py device self).1
  /\ (let s1 := (_processWirelessClient py device self).1 in
      let s2 := (_processWirelessClient py device s1).1 in
      devices s2 = devices s1
      /\ bluetoothDevices s2 = bluetoothDevices s1
      /\ wirelessAps s2 = wirelessAps s1
      /\ forall mac,
          option_Forall2 same_client
            (wirelessClients s2 !! mac) (wirelessClients s1 !! mac)).
Proof.
  intros Hset. split; [apply processBluetooth_twice|].
  split; [apply processWirelessAp_twice|].
  by apply processWirelessClient_twice.
Qed.

End Idempotence.

(** ** The time range of stored devices *)

Section TimeRange.

Context (py : Builtins).

Implicit Types (device : json) (self : KismetParser) (mac : string).









End TimeRange.

(** ** Report rows *)

Section Report.

Context (py : Builtins).

Implicit Types (device : json) (self : KismetParser) (mac : string).

Lemma insert_row_perm (x : row) (l : list row) : insert_row x l ≡ₚ x :: l.
Proof.
  induction l as [|y l IH]; cbn; [done|].
  destruct (String.ltb (sort_key x) (sort_key y)); [done|].
  rewrite IH. apply Permutation_swap.
Qed.

Lemma sort_rows_perm (rows : list row) : sort_rows rows ≡ₚ rows.
Proof.
  unfold sort_rows.
  assert (H : forall acc,
             fold_left (fun acc x => insert_row x acc) rows acc ≡ₚ rows ++ acc).
  { induction rows as [|x rows IH]; intros acc; cbn; [done|].
    rewrite IH, insert_row_perm. by rewrite Permutation_middle. }
  by rewrite H, app_nil_r.
Qed.

(** The rows handed to [tabulate] are exactly the rows of the stored
    devices. *)
Lemma report_rows_elem {D : Type} (mk : string -> D -> option row)
    (store : gmap string D) (outFile : string) (rows : list row) :
  (report_rows mk store outFile).1 = Ok rows ->
  forall r,
    r ∈ rows <-> exists mac d, store !! mac = Some d /\ mk mac d = Some r.
Proof.
  unfold report_rows.
  destruct (mapM _ (map_to_list store)) as [k|] eqn:Hm; [|discriminate].
  cbn. intros [= <-] r. rewrite sort_rows_perm.
  apply mapM_Some in Hm. split.
  - intros [i Hi]%list_elem_of_lookup_1.
    destruct (Forall2_lookup_r _ _ _ _ _ Hm Hi) as ([mac d] & Hx & Hr).
    exists mac, d. split; [|done].
    apply elem_of_map_to_list. by eapply list_elem_of_lookup_2.
  - intros (mac & d & Hl & Hr).
    apply elem_of_map_to_list in Hl.
    apply list_elem_of_lookup_1 in Hl as [i Hi].
    destruct (Forall2_lookup_l _ _ _ _ _ Hm Hi) as (y & Hy & Hr').
    cbn in Hr'. rewrite Hr in Hr'. injection Hr' as <-.
    by eapply list_elem_of_lookup_2.
Qed.

(** The rows are produced whenever every stored device has one. *)
Lemma report_rows_total {D : Type} (mk : string -> D -> option row)
    (store : gmap string D) (outFile : string) :
  (forall mac d, store !! mac = Some d -> is_Some (mk mac d)) ->
  exists rows, report_rows mk store outFile = (Ok rows, []).
Proof.
  intros H. unfold report_rows.
  destruct (mapM _ (map_to_list store)) as [k|] eqn:Hm; [by eauto|].
  exfalso. assert (Hs : is_Some (mapM (fun kv : string * D => mk kv.1 kv.2)
                                   (map_to_list store))).
  { apply mapM_is_Some. apply Forall_forall. intros [mac d] Hin.
    apply elem_of_map_to_list in Hin. by apply H. }
  rewrite Hm in Hs. by destruct Hs.
Qed.

Lemma rssi_cell_renders (cells : row) (rssi : Z) :
  renders_signal (cells ++ [rssi_cell rssi]) rssi.
Proof.
  unfold renders_signal, rssi_cell. rewrite last_snoc.
  destruct (Z.ltb_spec 255 (Z.abs rssi)); [left|right]; by split.
Qed.

Lemma bluetooth_row_renders mac (d : BluetoothDevice) (r : row) :
  bluetooth_row py mac d = Some r ->
  head r = Some (CStr mac) /\ renders_signal r (bt_rssi d).
Proof.
  unfold bluetooth_row. intros H.
  destruct (_epochToDatetime py (bt_firstTime d)) as [a|]; [|discriminate].
  destruct (_epochToDatetime py (bt_lastTime d)) as [b|]; [|discriminate].
  injection H as <-. split; [done|].
  apply (rssi_cell_renders [_; _; _; _; _]).
Qed.






End Report.

(** ** Bluetooth devices carry no signal *)

Section BluetoothSignal.

Context (py : Builtins).

Implicit Types (device : json) (self : KismetParser) (mac : string).

Lemma processBluetooth_ignores_signal (d1 d2 : json) self :
  (forall k, k ≠ "kismet_device_base_signal" -> getitem d1 k = getitem d2 k) ->
  _processBluetooth py d1 self = _processBluetooth py d2 self.
Proof.
  intros H. unfold _processBluetooth.
  assert (bluetooth_fields py d1 = bluetooth_fields py d2) as ->;
    [|reflexivity].
  unfold bluetooth_fields.
  by rewrite !H by (intros [=]).
Qed.

Lemma processBluetooth_unsignalled device self :
  bluetooth_unsignalled self ->
  bluetooth_unsignalled (_processBluetooth py device self).1.
Proof.
  intros Hinv.
  destruct (bluetooth_fields py device)
    as [[[[[mac ft] lt] mf] nm]|e] eqn:Hf.
  2: { unfold _processBluetooth. by rewrite Hf. }
  destruct (decide (mac = "")) as [->|Hm].
  { unfold _processBluetooth. by rewrite Hf. }
  destruct (bluetoothDevices self !! mac) as [E|] eqn:Hl.
  - rewrite (processBluetooth_merge py _ _ _ _ _ _ _ _ Hf Hm Hl).
    apply map_Forall_insert_2; [|done].
    apply (map_Forall_lookup_1 _ _ _ _ Hinv Hl).
  - rewrite (processBluetooth_insert py _ _ _ _ _ _ _ Hf Hm Hl).
    by apply map_Forall_insert_2.
Qed.

Lemma processWirelessAp_bluetooth device self :
  bluetoothDevices (_processWirelessAp py device self).1
  = bluetoothDevices self.
Proof.
  unfold _processWirelessAp.
  destruct (ap_fields py device)
    as [[[[[[[mac ft] lt] mf] ch] au] es]|e]; [|done].
  destruct (negb (Text.nonempty mac)); [done|].
  by destruct (wirelessAps self !! mac).
Qed.

Lemma processWirelessClient_bluetooth device self :
  bluetoothDevices (_processWirelessClient py device self).1
  = bluetoothDevices self.
Proof.
  unfold _processWirelessClient.
  destruct (client_fields py device)
    as [[[[[[mac ft] lt] mf] bs] ps]|e]; [|done].
  destruct (negb (Text.nonempty mac)); [done|].
  by destruct (wirelessClients self !! mac).
Qed.

Lemma parse_device_unsignalled device self :
  bluetooth_unsignalled self ->
  bluetooth_unsignalled (parse_device py device self).1.1.
Proof.
  intros Hinv. unfold parse_device.
  destruct (getitem device "kismet_device_base_type") as [t|e]; [|done].
  destruct (eq_str t "BTLE"); [by apply processBluetooth_unsignalled|].
  destruct (eq_str t "Wi-Fi AP").
  { unfold bluetooth_unsignalled. cbn [fst].
    by rewrite processWirelessAp_bluetooth. }
  destruct (eq_str t "Wi-Fi Client").
  { unfold bluetooth_unsignalled. cbn [fst].
    by rewrite processWirelessClient_bluetooth. }
  cbn. by destruct t.
Qed.

Lemma parse_loop_unsignalled (ds : list json) :
  forall self,
    bluetooth_unsignalled self ->
    bluetooth_unsignalled (parse_loop py ds self).1.1.
Proof.
  induction ds as [|device ds IH]; intros self Hinv; [done|].
  cbn [parse_loop].
  pose proof (parse_device_unsignalled device self Hinv) as Hstep.
  destruct (parse_device py device self) as [[self' log] [u|e]]; [|done].
  specialize (IH self' Hstep).
  by destruct (parse_loop py ds self') as [[self'' log'] r].
Qed.

Lemma parse_unsignalled self :
  bluetooth_unsignalled self -> bluetooth_unsignalled (parse py self).1.1.
Proof.
  intros Hinv. unfold parse.
  pose proof (parse_loop_unsignalled (devices self) self Hinv) as H.
  by destruct (parse_loop py (devices self) self) as [[self' log] [u|e]].
Qed.

Lemma add_lines_bluetooth (file : string) (lines : list string) :
  forall self,
    bluetoothDevices (add_lines py file lines self).1.1
    = bluetoothDevices self.
Proof.
  induction lines as [|line rest IH]; intros self; [done|].
  cbn [add_lines].
  destruct (Text.nonempty (Text.strip line)); [|apply IH].
  destruct (json_loads py line); [|done].
  by rewrite IH.
Qed.

Lemma addFile_bluetooth (file : string) (content : file_status) self :
  bluetoothDevices (addFile py file content self).1.1
  = bluetoothDevices self.
Proof.
  destruct content as [| |lines]; [done|done|].
  unfold addFile.
  pose proof (add_lines_bluetooth file lines self) as H.
  by destruct (add_lines py file lines self) as [[self' log] [u|e]].
Qed.

Lemma reachable_unsignalled self :
  reachable py self -> bluetooth_unsignalled self.
Proof.
  induction 1 as [|file content self _ IH|self _ IH].
  - apply map_Forall_empty.
  - unfold bluetooth_unsignalled. by rewrite addFile_bluetooth.
  - by apply parse_unsignalled.
Qed.

(** C10: [_processBluetooth] does not depend on the record's signal
    item; a first insertion stores the sentinel 5000 and a merge leaves
    the stored signal as it is; hence in every parser a run can reach,
    each row of the Bluetooth report ends with the text ["Unknown"]. *)
Theorem bluetooth_signal_unknown :
  (forall (d1 d2 : json) self,
      (forall k, k ≠ "kismet_device_base_signal" ->
                 getitem d1 k = getitem d2 k) ->
      _processBluetooth py d1 self = _processBluetooth py d2 self)
  /\ (forall device self mac ft lt mf nm,
      bluetooth_fields py device = Ok (mac, ft, lt, mf, nm) ->
      mac ≠ "" ->
      exists d,
        bluetoothDevices (_processBluetooth py device self).1 !! mac = Some d
        /\ bt_rssi d = match bluetoothDevices self !! mac with
                       | Some E => bt_rssi E
                       | None => 5000
                       end)
  /\ (forall self (outFile : string) (rows : list row),
      reachable py self ->
      (_reportBluetooth_rows py self outFile).1 = Ok rows ->
      forall r, r ∈ rows -> last r = Some (CStr "Unknown")).
Proof.
  split; [|split].
  - apply processBluetooth_ignores_signal.
  - intros device self mac ft lt mf nm Hf Hm.
    destruct (bluetoothDevices self !! mac) as [E|] eqn:Hl.
    + rewrite (processBluetooth_merge py _ _ _ _ _ _ _ _ Hf Hm Hl).
      eexists. split; [apply lookup_set_bluetooth|done].
    + rewrite (processBluetooth_insert py _ _ _ _ _ _ _ Hf Hm Hl).
      eexists. split; [apply lookup_set_bluetooth|done].
  - intros self outFile rows Hreach Hrows r Hr.
    apply (report_rows_elem _ _ _ _ Hrows) in Hr as (mac & d & Hl & Hrow).
    apply bluetooth_row_renders in Hrow as [_ [[_ Hlast]|[Habs _]]];
      [exact Hlast|].
    rewrite (map_Forall_lookup_1 _ _ _ _ (reachable_unsignalled _ Hreach) Hl)
      in Habs.
    unfold sentinel in Habs. lia.
Qed.

End BluetoothSignal.

(** * Examples

    The theorems above, run on concrete records with the instance
    [Sample.py]. *)

Section Examples.

Import Sample.

Lemma sample_set_semantics : set_semantics Sample.py.
Proof.
  intros l. split; [apply NoDup_remove_dups|].
  intros x. apply elem_of_remove_dups.
Defined.




(** C2, the code at the failing input: a record without a declared type
    ahead of a Bluetooth record.  [parse] ends on the [KeyError] of the
    first record: no warning is logged and the second record is never
    processed.  The same happens, with a [TypeError], when the declared
    type is a number. *)
Theorem parse_aborts_without_type :
  let bt := bluetooth_record "aa:bb" 1000 2000 "Acme" "PhoneA" in
  parse Sample.py (set_devices Sample.empty [JDict []; bt])
  = (set_devices Sample.empty [JDict []; bt],
     [(DEBUG, "Initiated parsing of device data")],
     Raise (KeyError "kismet_device_base_type"))
  /\ parse Sample.py
       (set_devices Sample.empty
          [JDict [("kismet_device_base_type", JInt 7)]; bt])
     = (set_devices Sample.empty
          [JDict [("kismet_device_base_type", JInt 7)]; bt],
        [(DEBUG, "Initiated parsing of device data")],
        Raise TypeError).
Proof. split; by vm_compute. Qed.

(** C3, counterexample: a Bluetooth record with every item but the
    manufacturer is dropped as invalid; nothing is stored. *)
Lemma absent_manufacturer_invalid :
  let device :=
    JDict [("kismet_device_base_type", JStr "BTLE");
           ("kismet_device_base_macaddr", JStr "aa:bb");
           ("kismet_device_base_first_time", JInt 1000);
           ("kismet_device_base_last_time", JInt 2000);
           ("kismet_device_base_name", JStr "PhoneA")] in
  getitem device "kismet_device_base_manuf"
    = Raise (KeyError "kismet_device_base_manuf")
  /\ _processBluetooth Sample.py device Sample.empty
     = (Sample.empty,
        [(WARNING, "Invalid bluetooth device record specified")])
  /\ bluetoothDevices (_processBluetooth Sample.py device Sample.empty).1
       !! "AA:BB" = None.
Proof. repeat split; by vm_compute. Qed.

(** C3, the theorem on one record of each class with its defaultable
    fields empty. *)
Lemma empty_field_default_witness :
  (exists d,
      _processBluetooth Sample.py
        (bluetooth_record "aa:bb" 1000 2000 "" "") Sample.empty
      = (set_bluetooth Sample.empty "AA:BB" d, [])
      /\ bt_manufacturer d = "Unknown" /\ bt_name d = "Unknown")
  /\ (exists d,
      _processWirelessAp Sample.py
        (ap_record "aa:bb" 1000 2000 "" (JInt 11) "" "" (signal "dbm" (-40)))
        Sample.empty
      = (set_ap Sample.empty "AA:BB" d, [])
      /\ ap_manufacturer d = "Unknown" /\ ap_auth d = "Unknown"
      /\ ap_essid d = "Unknown SSID")
  /\ (exists d,
      _processWirelessClient Sample.py
        (client_record "aa:bb" 1000 2000 "" "" [] (signal "dbm" (-40)))
        Sample.empty
      = (set_client Sample.empty "AA:BB" d, [])
      /\ cl_manufacturer d = "Unknown" /\ cl_bssid d = "Unknown")
  /\ _processWirelessClient Sample.py
       (JDict [("kismet_device_base_type", JStr "Wi-Fi Client");
               ("kismet_device_base_macaddr", JStr "aa:bb");
               ("kismet_device_base_first_time", JInt 1000);
               ("kismet_device_base_last_time", JInt 2000);
               ("kismet_device_base_manuf", JStr "Acme");
               ("dot11_device", JDict [])])
       Sample.empty
     = (Sample.empty,
        [(WARNING, "Invalid wireless client device record specified")]).
Proof.
  split; [|split; [|split]].
  - destruct (empty_field_default Sample.py
                (bluetooth_record "aa:bb" 1000 2000 "" "") Sample.empty)
      as (H & _).
    destruct (H "AA:BB" 1000 2000 "" "") as (d & Hd & Hm & Hn);
      [by vm_compute|discriminate|by vm_compute|].
    exists d. auto.
  - destruct (empty_field_default Sample.py
                (ap_record "aa:bb" 1000 2000 "" (JInt 11) "" ""
                   (signal "dbm" (-40))) Sample.empty)
      as (_ & H & _).
    destruct (H "AA:BB" 1000 2000 "" 11 "" "") as (d & Hd & Hm & Ha & He);
      [by vm_compute|discriminate|by vm_compute|].
    exists d. auto.
  - destruct (empty_field_default Sample.py
                (client_record "aa:bb" 1000 2000 "" "" []
                   (signal "dbm" (-40))) Sample.empty)
      as (_ & _ & H & _).
    destruct (H "AA:BB" 1000 2000 "" "" []) as (d & Hd & Hm & Hb);
      [by vm_compute|discriminate|by vm_compute|].
    exists d. auto.
  - apply (empty_field_default Sample.py). exists (KeyError "dot11.device.last_bssid").
    vm_compute. reflexivity.
Defined.


(** C5, the theorem on the two Bluetooth records of address
    AA:BB:CC:DD:EE:FF, named PhoneA at epoch 1000 and PhoneB at epoch
    2000: the entry keeps the name PhoneA and the conflict is logged; on
    an access point seen with two ESSIDs; and on a client seen twice with
    the same manufacturer and BSSID, for which nothing is logged. *)
Lemma merge_keeps_first_metadata_witness :
  (let first :=
     bluetooth_record "AA:BB:CC:DD:EE:FF" 1000 1000 "Acme" "PhoneA" in
   let second :=
     bluetooth_record "AA:BB:CC:DD:EE:FF" 2000 2000 "Acme" "PhoneB" in
   let self := (_processBluetooth Sample.py first Sample.empty).1 in
   exists E',
     _processBluetooth Sample.py second self
     = (set_bluetooth self "AA:BB:CC:DD:EE:FF" E',
        [(WARNING, "Conflicting information for AA:BB:CC:DD:EE:FF")])
     /\ bt_manufacturer E' = "Acme"
     /\ bt_name E' = "PhoneA")
  /\ (let first := ap_record "aa:bb" 1000 2000 "Acme" (JInt 11) "WPA2" "home"
                     (signal "dbm" (-40)) in
      let second := ap_record "aa:bb" 1500 2500 "Acme" (JInt 11) "WPA2"
                      "office" (signal "dbm" (-40)) in
      let self := (_processWirelessAp Sample.py first Sample.empty).1 in
      exists E',
        _processWirelessAp Sample.py second self
        = (set_ap self "AA:BB" E',
           [(WARNING, "Conflicting information for AA:BB")])
        /\ ap_essid E' = "home")
  /\ (let first := client_record "aa:bb" 1000 2000 "Acme" "11:22" []
                     (signal "dbm" (-40)) in
      let second := client_record "aa:bb" 1500 2500 "Acme" "11:22"
                      (probed_ssid "cafe") (signal "dbm" (-50)) in
      let self := (_processWirelessClient Sample.py first Sample.empty).1 in
      exists E',
        _processWirelessClient Sample.py second self
        = (set_client self "AA:BB" E', [])
        /\ cl_manufacturer E' = "Acme" /\ cl_bssid E' = "11:22").
Proof.
  split; [|split].
  - intros first second self.
    destruct (merge_keeps_first_metadata Sample.py second self) as (H & _).
    destruct (H "AA:BB:CC:DD:EE:FF" 2000 2000 "Acme" "PhoneB"
                {| bt_firstTime := 1000; bt_lastTime := 1000;
                   bt_manufacturer := "Acme"; bt_name := "PhoneA";
                   bt_rssi := 5000 |})
      as (E' & log & Heq & Hm & Hn & Hlog & _);
      [by vm_compute|discriminate|by vm_compute|].
    exists E'. rewrite Heq, Hlog; [by auto|].
    right. discriminate.
  - intros first second self.
    destruct (merge_keeps_first_metadata Sample.py second self)
      as (_ & H & _).
    destruct (H "AA:BB" 1500 2500 "Acme" 11 "WPA2" "office"
                {| ap_firstTime := 1000; ap_lastTime := 2000;
                   ap_manufacturer := "Acme"; ap_channel := 11;
                   ap_auth := "WPA2"; ap_essid := "home"; ap_rssi := -40 |})
      as (E' & log & Heq & _ & He & _ & _ & Hlog & _);
      [by vm_compute|discriminate|by vm_compute|].
    exists E'. rewrite Heq, Hlog; [by auto|].
    right. left. discriminate.
  - intros first second self.
    destruct (merge_keeps_first_metadata Sample.py second self)
      as (_ & _ & H).
    destruct (H "AA:BB" 1500 2500 "Acme" "11:22" ["cafe"]
                {| cl_firstTime := 1000; cl_lastTime := 2000;
                   cl_manufacturer := "Acme"; cl_bssid := "11:22";
                   cl_probedSsids := []; cl_rssi := -40 |})
      as (E' & log & Heq & Hm & Hb & _ & Hlog);
      [by vm_compute|discriminate|by vm_compute|].
    exists E'. rewrite Heq, Hlog; [by auto|].
    intros [Hd|Hd]; by apply Hd.
Defined.

(** C6, the theorem on two records of each class with the time ranges
    1000..1200 and 900..1100. *)
Lemma time_range_commutes_witness :
  (let a := bluetooth_record "aa:bb" 1000 1200 "Acme" "PhoneA" in
   let b := bluetooth_record "AA:BB" 900 1100 "Acme" "PhoneA" in
   exists ab ba,
     bluetoothDevices
       (_processBluetooth Sample.py b
          (_processBluetooth Sample.py a Sample.empty).1).1 !! "AA:BB"
       = Some ab
     /\ bluetoothDevices
       (_processBluetooth Sample.py a
          (_processBluetooth Sample.py b Sample.empty).1).1 !! "AA:BB"
       = Some ba
     /\ bt_firstTime ab = 900 /\ bt_lastTime ab = 1200
     /\ bt_firstTime ba = 900 /\ bt_lastTime ba = 1200)
  /\ (let a := ap_record "aa:bb" 1000 1200 "Acme" (JInt 11) "WPA2" "home"
                 (signal "dbm" (-40)) in
      let b := ap_record "aa:bb" 900 1100 "Acme" (JInt 11) "WPA2" "home"
                 (signal "dbm" (-60)) in
      exists ab ba,
        wirelessAps
          (_processWirelessAp Sample.py b
             (_processWirelessAp Sample.py a Sample.empty).1).1 !! "AA:BB"
          = Some ab
        /\ wirelessAps
          (_processWirelessAp Sample.py a
             (_processWirelessAp Sample.py b Sample.empty).1).1 !! "AA:BB"
          = Some ba
        /\ ap_firstTime ab = 900 /\ ap_lastTime ab = 1200
        /\ ap_firstTime ba = 900 /\ ap_lastTime ba = 1200)
  /\ (let a := client_record "aa:bb" 1000 1200 "Acme" "11:22" []
                 (signal "dbm" (-40)) in
      let b := client_record "aa:bb" 900 1100 "Acme" "11:22"
                 (probed_ssid "cafe") (signal "dbm" (-60)) in
      exists ab ba,
        wirelessClients
          (_processWirelessClient Sample.py b
             (_processWirelessClient Sample.py a Sample.empty).1).1 !! "AA:BB"
          = Some ab
        /\ wirelessClients
          (_processWirelessClient Sample.py a
             (_processWirelessClient Sample.py b Sample.empty).1).1 !! "AA:BB"
          = Some ba
        /\ cl_firstTime ab = 900 /\ cl_lastTime ab = 1200
        /\ cl_firstTime ba = 900 /\ cl_lastTime ba = 1200).
Proof.
  split; [|split].
  - intros a b.
    destruct (time_range_commutes Sample.py a b Sample.empty) as (H & _).
    destruct (H "AA:BB" 1000 1200 "Acme" "PhoneA" 900 1100 "Acme" "PhoneA")
      as (ab & ba & H1 & H2 & H3 & H4 & H5 & H6);
      [by vm_compute|by vm_compute|discriminate|by vm_compute|].
    exists ab, ba. auto 10.
  - intros a b.
    destruct (time_range_commutes Sample.py a b Sample.empty) as (_ & H & _).
    destruct (H "AA:BB" 1000 1200 "Acme" 11 "WPA2" "home"
                900 1100 "Acme" 11 "WPA2" "home")
      as (ab & ba & H1 & H2 & H3 & H4 & H5 & H6);
      [by vm_compute|by vm_compute|discriminate|by vm_compute|].
    exists ab, ba. auto 10.
  - intros a b.
    destruct (time_range_commutes Sample.py a b Sample.empty) as (_ & _ & H).
    destruct (H "AA:BB" 1000 1200 "Acme" "11:22" []
                900 1100 "Acme" "11:22" ["cafe"])
      as (ab & ba & H1 & H2 & H3 & H4 & H5 & H6);
      [by vm_compute|by vm_compute|discriminate|by vm_compute|].
    exists ab, ba. auto 10.
Defined.

(** C7, the theorem on a client record that probes for an SSID. *)
Lemma process_twice_unchanged_witness :
  let device := client_record "aa:bb" 1000 2000 "Acme" "11:22"
                  (probed_ssid "cafe") (signal "dbm" (-40)) in
  let s1 := (_processWirelessClient Sample.py device Sample.empty).1 in
  let s2 := (_processWirelessClient Sample.py device s1).1 in
  set_semantics Sample.py
  /\ is_Some (wirelessClients s1 !! "AA:BB")
  /\ forall mac,
      option_Forall2 same_client
        (wirelessClients s2 !! mac) (wirelessClients s1 !! mac).
Proof.
  intros device s1 s2. split; [exact sample_set_semantics|].
  split; [vm_compute; eauto|].
  apply (process_twice_unchanged Sample.py device Sample.empty
           sample_set_semantics).
Defined.




(** C10, the theorem on a file of one Bluetooth record that carries a
    signal of -40: the record is added, parsed and reported with an
    unknown signal. *)
Lemma bluetooth_signal_unknown_witness :
  let device :=
    JDict [("kismet_device_base_type", JStr "BTLE");
           ("kismet_device_base_macaddr", JStr "aa:bb");
           ("kismet_device_base_first_time", JInt 1000);
           ("kismet_device_base_last_time", JInt 2000);
           ("kismet_device_base_manuf", JStr "Acme");
           ("kismet_device_base_name", JStr "PhoneA");
           ("kismet_device_base_signal", signal "dbm" (-40))] in
  let added :=
    (addFile Sample.py "in.json" (Readable [line device]) Sample.empty).1.1 in
  let self := (parse Sample.py added).1.1 in
  let rows := [[CStr "AA:BB"; CStr "1970-01-01 00:16:40";
                CStr "1970-01-01 00:33:20"; CStr "Acme"; CStr "PhoneA";
                CStr "Unknown"]] in
  devices added = [device]
  /\ reachable Sample.py self
  /\ (_reportBluetooth_rows Sample.py self "out").1 = Ok rows
  /\ forall r, r ∈ rows -> last r = Some (CStr "Unknown").
Proof.
  intros device added self rows.
  assert (Hreach : reachable Sample.py self).
  { apply reach_parse. apply reach_addFile. apply reach_init. }
  assert (Hrows : (_reportBluetooth_rows Sample.py self "out").1 = Ok rows)
    by (by vm_compute).
  split; [by vm_compute|]. split; [exact Hreach|]. split; [exact Hrows|].
  destruct (bluetooth_signal_unknown Sample.py) as (_ & _ & H).
  exact (H self "out" rows Hreach Hrows).
Defined.

End Examples.

(** * Further properties *)

(** ** Which records are dropped *)

Section Validity.

Context (py : Builtins).

Implicit Types (device : json) (self : KismetParser) (mac : string).

(** Case analysis on every step of a [try] block. *)
Ltac step_fields :=
  repeat (match goal with
          | |- context [getitem ?d ?key] =>
              let H := fresh "Hg" in
              destruct (getitem d key) eqn:H; cbn
          | |- context [int py ?v] =>
              let H := fresh "Hi" in
              destruct (int py v) eqn:H; cbn
          | |- context [in_keys ?k ?d] =>
              let H := fresh "Hk" in
              destruct (in_keys k d) as [[|]|] eqn:H; cbn
          | |- context [if truthy ?v then _ else _] =>
              destruct (truthy v); cbn
          end).

Ltac blame :=
  solve [eauto 6]
  || match goal with
     | |- _ \/ _ => (left; blame) || (right; blame)
     end.

Ltac refute_defect H :=
  repeat match type of H with
    | _ \/ _ => destruct H as [H|H]
    | False => destruct H
    | exists _, _ => destruct H as [? H]
    | _ /\ _ =>
        let H' := fresh in destruct H as [H' H]; try congruence
    end;
  try congruence.

Ltac settle_defect :=
  step_fields;
  (split;
   [ intros [? ?]; try discriminate; blame
   | let H := fresh "H" in
     intros H; try (eexists; reflexivity); exfalso; refute_defect H ]).

Lemma bluetooth_fields_defect device :
  (exists e, bluetooth_fields py device = Raise e) <-> bluetooth_defect py device.
Proof.
  unfold bluetooth_defect, bluetooth_keys, not_an_int, item_missing.
  rewrite !Exists_cons, Exists_nil. unfold bluetooth_fields.
  settle_defect.
Qed.

Lemma ap_fields_defect device :
  (exists e, ap_fields py device = Raise e) <-> ap_defect py device.
Proof.
  unfold ap_defect, ap_keys, not_an_int, item_missing, essid_item.
  rewrite !Exists_cons, Exists_nil. unfold ap_fields.
  settle_defect.
Qed.

Lemma probed_unreadable_dict device (kvs : list (string * json)) :
  getitem device "dot11_device" = Ok (JDict kvs) ->
  probed_unreadable device
  <-> exists r e,
      assoc "dot11.device.last_probed_ssid_record" kvs = Some r
      /\ getitem r "dot11.probedssid.ssid" = Raise e.
Proof.
  intros Hd. unfold probed_unreadable. rewrite Hd. split.
  - intros (d & r & e & [= <-] & Hr & He). cbn in Hr.
    destruct (assoc _ kvs) as [r'|]; [|discriminate].
    injection Hr as ->. eauto.
  - intros (r & e & Hr & He). exists (JDict kvs), r, e.
    split; [done|]. split; [|done]. cbn. by rewrite Hr.
Qed.

Lemma client_fields_defect device :
  (exists e, client_fields py device = Raise e) <-> client_defect py device.
Proof.
  unfold client_defect, client_keys, not_an_int, item_missing, bssid_item.
  rewrite !Exists_cons, Exists_nil. unfold client_fields.
  destruct (getitem device "dot11_device") as [d|e0] eqn:Hd; cbn;
    [|settle_defect].
  destruct d as [| | | | | |kvs]; cbn; try settle_defect.
  rewrite (probed_unreadable_dict _ _ Hd).
  destruct (assoc "dot11.device.last_bssid" kvs) eqn:Hb; cbn;
    destruct (assoc "dot11.device.last_probed_ssid_record" kvs) eqn:Hr; cbn;
    settle_defect.
Qed.

Lemma bluetooth_fields_address device mac ft lt mf nm :
  bluetooth_fields py device = Ok (mac, ft, lt, mf, nm) ->
  address_of py device mac.
Proof.
  unfold bluetooth_fields, address_of. step_fields; intros [=]. eauto.
Qed.

Lemma ap_fields_address device mac ft lt mf ch au es :
  ap_fields py device = Ok (mac, ft, lt, mf, ch, au, es) ->
  address_of py device mac.
Proof.
  unfold ap_fields, address_of. step_fields; intros [=]. eauto.
Qed.

Lemma client_fields_address device mac ft lt mf bs ps :
  client_fields py device = Ok (mac, ft, lt, mf, bs, ps) ->
  address_of py device mac.
Proof.
  unfold client_fields, address_of. step_fields; intros [=]; eauto.
Qed.


(** What a [_process*] method can do to the parser: nothing, or set the
    entry of the record's address in its own store. *)
Lemma processBluetooth_effect device self :
  (_processBluetooth py device self).1 = self
  \/ exists mac d,
      address_of py device mac /\ mac ≠ ""
      /\ (_processBluetooth py device self).1 = set_bluetooth self mac d.
Proof.
  destruct (bluetooth_fields py device)
    as [[[[[mac ft] lt] mf] nm]|e] eqn:Hf.
  2: { left. unfold _processBluetooth. by rewrite Hf. }
  destruct (decide (mac = "")) as [->|Hm].
  { left. unfold _processBluetooth. by rewrite Hf. }
  right. exists mac.
  pose proof (bluetooth_fields_address _ _ _ _ _ _ Hf) as Ha.
  destruct (bluetoothDevices self !! mac) as [E|] eqn:Hl.
  - rewrite (processBluetooth_merge py _ _ _ _ _ _ _ _ Hf Hm Hl). eauto.
  - rewrite (processBluetooth_insert py _ _ _ _ _ _ _ Hf Hm Hl). eauto.
Qed.

Lemma processWirelessAp_effect device self :
  (_processWirelessAp py device self).1 = self
  \/ exists mac d,
      address_of py device mac /\ mac ≠ ""
      /\ (_processWirelessAp py device self).1 = set_ap self mac d.
Proof.
  destruct (ap_fields py device)
    as [[[[[[[mac ft] lt] mf] ch] au] es]|e] eqn:Hf.
  2: { left. unfold _processWirelessAp. by rewrite Hf. }
  destruct (decide (mac = "")) as [->|Hm].
  { left. unfold _processWirelessAp. by rewrite Hf. }
  right. exists mac.
  pose proof (ap_fields_address _ _ _ _ _ _ _ _ Hf) as Ha.
  destruct (wirelessAps self !! mac) as [E|] eqn:Hl.
  - rewrite (processWirelessAp_merge py _ _ _ _ _ _ _ _ _ _ Hf Hm Hl). eauto.
  - rewrite (processWirelessAp_insert py _ _ _ _ _ _ _ _ _ Hf Hm Hl). eauto.
Qed.

Lemma processWirelessClient_effect device self :
  (_processWirelessClient py device self).1 = self
  \/ exists mac d,
      address_of py device mac /\ mac ≠ ""
      /\ (_processWirelessClient py device self).1 = set_client self mac d.
Proof.
  destruct (client_fields py device)
    as [[[[[[mac ft] lt] mf] bs] ps]|e] eqn:Hf.
  2: { left. unfold _processWirelessClient. by rewrite Hf. }
  destruct (decide (mac = "")) as [->|Hm].
  { left. unfold _processWirelessClient. by rewrite Hf. }
  right. exists mac.
  pose proof (client_fields_address _ _ _ _ _ _ _ Hf) as Ha.
  destruct (wirelessClients self !! mac) as [E|] eqn:Hl.
  - rewrite (processWirelessClient_merge py _ _ _ _ _ _ _ _ _ Hf Hm Hl).
    eauto.
  - rewrite (processWirelessClient_insert py _ _ _ _ _ _ _ _ Hf Hm Hl).
    eauto.
Qed.

(** X1: a record is dropped as invalid exactly when an item of the first
    [try] block is missing or a time (or the channel) is not an integer;
    the parser is then left as it was and one warning is logged.  Any
    other record has an address: when its text is empty the record is
    dropped with the warning about the missing address, otherwise the
    store of its class holds an entry under that address afterwards. *)
Theorem record_dropped_or_stored device self :
  ((bluetooth_defect py device ->
    _processBluetooth py device self
    = (self, [(WARNING, "Invalid bluetooth device record specified")]))
   /\ (~ bluetooth_defect py device ->
       exists mac,
         address_of py device mac
         /\ (mac = "" ->
             _processBluetooth py device self = (self, [no_mac_warning]))
         /\ (mac ≠ "" ->
             is_Some (bluetoothDevices (_processBluetooth py device self).1
                        !! mac))))
  /\ ((ap_defect py device ->
       _processWirelessAp py device self
       = (self,
          [(WARNING,
            "Invalid wireless access point device record specified")]))
      /\ (~ ap_defect py device ->
          exists mac,
            address_of py device mac
            /\ (mac = "" ->
                _processWirelessAp py device self = (self, [no_mac_warning]))
            /\ (mac ≠ "" ->
                is_Some (wirelessAps (_processWirelessAp py device self).1
                           !! mac))))
  /\ ((client_defect py device ->
       _processWirelessClient py device self
       = (self,
          [(WARNING, "Invalid wireless client device record specified")]))
      /\ (~ client_defect py device ->
          exists mac,
            address_of py device mac
            /\ (mac = "" ->
                _processWirelessClient py device self
                = (self, [no_mac_warning]))
            /\ (mac ≠ "" ->
                is_Some (wirelessClients
                           (_processWirelessClient py device self).1
                           !! mac)))).
Proof.
  split; [|split]; split.
  - intros [e He]%bluetooth_fields_defect.
    unfold _processBluetooth. by rewrite He.
  - intros Hd.
    destruct (bluetooth_fields py device)
      as [[[[[mac ft] lt] mf] nm]|e] eqn:Hf.
    2: { destruct Hd. apply bluetooth_fields_defect. eauto. }
    exists mac. split; [by eapply bluetooth_fields_address|]. split.
    + intros ->. unfold _processBluetooth. by rewrite Hf.
    + intros Hm. destruct (bluetoothDevices self !! mac) as [E|] eqn:Hl.
      * rewrite (processBluetooth_merge py _ _ _ _ _ _ _ _ Hf Hm Hl).
        cbn [fst]. rewrite lookup_set_bluetooth. eauto.
      * rewrite (processBluetooth_insert py _ _ _ _ _ _ _ Hf Hm Hl).
        cbn [fst]. rewrite lookup_set_bluetooth. eauto.
  - intros [e He]%ap_fields_defect.
    unfold _processWirelessAp. by rewrite He.
  - intros Hd.
    destruct (ap_fields py device)
      as [[[[[[[mac ft] lt] mf] ch] au] es]|e] eqn:Hf.
    2: { destruct Hd. apply ap_fields_defect. eauto. }
    exists mac. split; [by eapply ap_fields_address|]. split.
    + intros ->. unfold _processWirelessAp. by rewrite Hf.
    + intros Hm. destruct (wirelessAps self !! mac) as [E|] eqn:Hl.
      * rewrite (processWirelessAp_merge py _ _ _ _ _ _ _ _ _ _ Hf Hm Hl).
        cbn [fst]. rewrite lookup_set_ap. eauto.
      * rewrite (processWirelessAp_insert py _ _ _ _ _ _ _ _ _ Hf Hm Hl).
        cbn [fst]. rewrite lookup_set_ap. eauto.
  - intros [e He]%client_fields_defect.
    unfold _processWirelessClient. by rewrite He.
  - intros Hd.
    destruct (client_fields py device)
      as [[[[[[mac ft] lt] mf] bs] ps]|e] eqn:Hf.
    2: { destruct Hd. apply client_fields_defect. eauto. }
    exists mac. split; [by eapply client_fields_address|]. split.
    + intros ->. unfold _processWirelessClient. by rewrite Hf.
    + intros Hm. destruct (wirelessClients self !! mac) as [E|] eqn:Hl.
      * rewrite (processWirelessClient_merge py _ _ _ _ _ _ _ _ _ Hf Hm Hl).
        cbn [fst]. rewrite lookup_set_client. eauto.
      * rewrite (processWirelessClient_insert py _ _ _ _ _ _ _ _ Hf Hm Hl).
        cbn [fst]. rewrite lookup_set_client. eauto.
Qed.

Lemma processBluetooth_frame device self :
  let s := (_processBluetooth py device self).1 in
  devices s = devices self
  /\ wirelessAps s = wirelessAps self
  /\ wirelessClients s = wirelessClients self
  /\ forall mac, ~ address_of py device mac ->
                 bluetoothDevices s !! mac = bluetoothDevices self !! mac.
Proof.
  intros s; subst s.
  destruct (processBluetooth_effect device self)
    as [->|(mac & d & Ha & _ & ->)]; [done|].
  do 3 (split; [done|]). intros mac' Hn. cbn.
  apply lookup_insert_ne. by intros <-.
Qed.

Lemma processWirelessAp_frame device self :
  let s := (_processWirelessAp py device self).1 in
  devices s = devices self
  /\ bluetoothDevices s = bluetoothDevices self
  /\ wirelessClients s = wirelessClients self
  /\ forall mac, ~ address_of py device mac ->
                 wirelessAps s !! mac = wirelessAps self !! mac.
Proof.
  intros s; subst s.
  destruct (processWirelessAp_effect device self)
    as [->|(mac & d & Ha & _ & ->)]; [done|].
  do 3 (split; [done|]). intros mac' Hn. cbn.
  apply lookup_insert_ne. by intros <-.
Qed.

Lemma processWirelessClient_frame device self :
  let s := (_processWirelessClient py device self).1 in
  devices s = devices self
  /\ bluetoothDevices s = bluetoothDevices self
  /\ wirelessAps s = wirelessAps self
  /\ forall mac, ~ address_of py device mac ->
                 wirelessClients s !! mac = wirelessClients self !! mac.
Proof.
  intros s; subst s.
  destruct (processWirelessClient_effect device self)
    as [->|(mac & d & Ha & _ & ->)]; [done|].
  do 3 (split; [done|]). intros mac' Hn. cbn.
  apply lookup_insert_ne. by intros <-.
Qed.


End Validity.

(** ** How the stores evolve *)

Section Stores.

Context (py : Builtins).

Implicit Types (device : json) (self : KismetParser) (mac : string).




(** *** A proof principle for the parsers a run can reach *)

Lemma parse_device_preserves (P : KismetParser -> Prop) device self :
  (forall d s, P s -> P (_processBluetooth py d s).1) ->
  (forall d s, P s -> P (_processWirelessAp py d s).1) ->
  (forall d s, P s -> P (_processWirelessClient py d s).1) ->
  P self -> P (parse_device py device self).1.1.
Proof.
  intros Hbt Hap Hcl HP. unfold parse_device.
  destruct (getitem device "kismet_device_base_type") as [t|e]; [|done].
  destruct (eq_str t "BTLE"); [by apply Hbt|].
  destruct (eq_str t "Wi-Fi AP"); [by apply Hap|].
  destruct (eq_str t "Wi-Fi Client"); [by apply Hcl|].
  cbn. by destruct t.
Qed.

Lemma parse_loop_preserves (P : KismetParser -> Prop) (ds : list json) :
  (forall d s, P s -> P (_processBluetooth py d s).1) ->
  (forall d s, P s -> P (_processWirelessAp py d s).1) ->
  (forall d s, P s -> P (_processWirelessClient py d s).1) ->
  forall self, P self -> P (parse_loop py ds self).1.1.
Proof.
  intros Hbt Hap Hcl.
  induction ds as [|device ds IH]; intros self HP; [done|].
  cbn [parse_loop].
  pose proof (parse_device_preserves P device self Hbt Hap Hcl HP) as Hstep.
  destruct (parse_device py device self) as [[self' log] [u|e]]; [|done].
  specialize (IH self' Hstep).
  by destruct (parse_loop py ds self') as [[self'' log'] r].
Qed.

Lemma parse_preserves (P : KismetParser -> Prop) self :
  (forall d s, P s -> P (_processBluetooth py d s).1) ->
  (forall d s, P s -> P (_processWirelessAp py d s).1) ->
  (forall d s, P s -> P (_processWirelessClient py d s).1) ->
  P self -> P (parse py self).1.1.
Proof.
  intros Hbt Hap Hcl HP. unfold parse.
  pose proof (parse_loop_preserves P (devices self) Hbt Hap Hcl self HP) as H.
  by destruct (parse_loop py (devices self) self) as [[self' log] [u|e]].
Qed.




(** *** Entries only grow *)

Lemma parser_grows_refl self : parser_grows self self.
Proof.
  repeat split; intros mac E HE; exists E; (split; [done|]);
    repeat split; (lia || done).
Qed.

Lemma parser_grows_trans (a b c : KismetParser) :
  parser_grows a b -> parser_grows b c -> parser_grows a c.
Proof.
  intros (H1 & H2 & H3) (K1 & K2 & K3). repeat split; intros mac E HE.
  - destruct (H1 _ _ HE) as (E1 & HE1 & G1).
    destruct (K1 _ _ HE1) as (E2 & HE2 & G2).
    exists E2. split; [done|].
    destruct G1 as (?&?&?&?&?), G2 as (?&?&?&?&?).
    repeat split; (congruence || lia).
  - destruct (H2 _ _ HE) as (E1 & HE1 & G1).
    destruct (K2 _ _ HE1) as (E2 & HE2 & G2).
    exists E2. split; [done|].
    destruct G1 as (?&?&?&?&?&?&?), G2 as (?&?&?&?&?&?&?).
    repeat split; (congruence || lia).
  - destruct (H3 _ _ HE) as (E1 & HE1 & G1).
    destruct (K3 _ _ HE1) as (E2 & HE2 & G2).
    exists E2. split; [done|].
    destruct G1 as (?&?&?&?&?&?), G2 as (?&?&?&?&?&?).
    repeat split; try (congruence || lia). auto.
Qed.

Lemma best_signal_le (n e : Z) : Z.abs (best_signal n e) <= Z.abs e.
Proof. unfold best_signal. destruct (Z.ltb_spec (Z.abs n) (Z.abs e)); lia. Qed.

Lemma best_signal_le_new (n e : Z) : Z.abs (best_signal n e) <= Z.abs n.
Proof. unfold best_signal. destruct (Z.ltb_spec (Z.abs n) (Z.abs e)); lia. Qed.

Lemma grows_set_bluetooth self mac (d : BluetoothDevice) :
  (forall E, bluetoothDevices self !! mac = Some E -> bluetooth_grows E d) ->
  parser_grows self (set_bluetooth self mac d).
Proof.
  intros H. destruct (parser_grows_refl self) as (R1 & R2 & R3).
  split; [|by split]. intros mac' E HE. cbn.
  destruct (decide (mac = mac')) as [<-|Hne].
  - rewrite lookup_insert_eq. eauto.
  - rewrite lookup_insert_ne by done. by apply R1.
Qed.

Lemma grows_set_ap self mac (d : WirelessAp) :
  (forall E, wirelessAps self !! mac = Some E -> ap_grows E d) ->
  parser_grows self (set_ap self mac d).
Proof.
  intros H. destruct (parser_grows_refl self) as (R1 & R2 & R3).
  split; [done|split; [|done]]. intros mac' E HE. cbn.
  destruct (decide (mac = mac')) as [<-|Hne].
  - rewrite lookup_insert_eq. eauto.
  - rewrite lookup_insert_ne by done. by apply R2.
Qed.

Lemma grows_set_client self mac (d : WirelessClient) :
  (forall E, wirelessClients self !! mac = Some E -> client_grows E d) ->
  parser_grows self (set_client self mac d).
Proof.
  intros H. destruct (parser_grows_refl self) as (R1 & R2 & R3).
  split; [done|split; [done|]]. intros mac' E HE. cbn.
  destruct (decide (mac = mac')) as [<-|Hne].
  - rewrite lookup_insert_eq. eauto.
  - rewrite lookup_insert_ne by done. by apply R3.
Qed.

Lemma processBluetooth_grows device self :
  parser_grows self (_processBluetooth py device self).1.
Proof.
  destruct (bluetooth_fields py device)
    as [[[[[mac ft] lt] mf] nm]|e] eqn:Hf.
  2: { unfold _processBluetooth. rewrite Hf. apply parser_grows_refl. }
  destruct (decide (mac = "")) as [->|Hm].
  { unfold _processBluetooth. rewrite Hf. apply parser_grows_refl. }
  destruct (bluetoothDevices self !! mac) as [E|] eqn:Hl.
  - rewrite (processBluetooth_merge py _ _ _ _ _ _ _ _ Hf Hm Hl).
    apply grows_set_bluetooth. intros E' HE. rewrite Hl in HE. injection HE as <-.
    repeat split; cbn; (done || lia).
  - rewrite (processBluetooth_insert py _ _ _ _ _ _ _ Hf Hm Hl).
    apply grows_set_bluetooth. intros E' HE. congruence.
Qed.

Lemma processWirelessAp_grows device self :
  parser_grows self (_processWirelessAp py device self).1.
Proof.
  destruct (ap_fields py device)
    as [[[[[[[mac ft] lt] mf] ch] au] es]|e] eqn:Hf.
  2: { unfold _processWirelessAp. rewrite Hf. apply parser_grows_refl. }
  destruct (decide (mac = "")) as [->|Hm].
  { unfold _processWirelessAp. rewrite Hf. apply parser_grows_refl. }
  destruct (wirelessAps self !! mac) as [E|] eqn:Hl.
  - rewrite (processWirelessAp_merge py _ _ _ _ _ _ _ _ _ _ Hf Hm Hl).
    apply grows_set_ap. intros E' HE. rewrite Hl in HE. injection HE as <-.
    repeat split; cbn; try (done || lia). apply best_signal_le.
  - rewrite (processWirelessAp_insert py _ _ _ _ _ _ _ _ _ Hf Hm Hl).
    apply grows_set_ap. intros E' HE. congruence.
Qed.

Lemma processWirelessClient_grows device self :
  set_semantics py ->
  parser_grows self (_processWirelessClient py device self).1.
Proof.
  intros Hset.
  destruct (client_fields py device)
    as [[[[[[mac ft] lt] mf] bs] ps]|e] eqn:Hf.
  2: { unfold _processWirelessClient. rewrite Hf. apply parser_grows_refl. }
  destruct (decide (mac = "")) as [->|Hm].
  { unfold _processWirelessClient. rewrite Hf. apply parser_grows_refl. }
  destruct (wirelessClients self !! mac) as [E|] eqn:Hl.
  - rewrite (processWirelessClient_merge py _ _ _ _ _ _ _ _ _ Hf Hm Hl).
    apply grows_set_client. intros E' HE. rewrite Hl in HE. injection HE as <-.
    repeat split; cbn; try (done || lia); [apply best_signal_le|].
    intros x Hx. apply (proj2 (Hset _)). apply elem_of_app. by right.
  - rewrite (processWirelessClient_insert py _ _ _ _ _ _ _ _ Hf Hm Hl).
    apply grows_set_client. intros E' HE. congruence.
Qed.

(** X4: whatever records [parse] goes through, and whether or not it
    ends on an exception, no entry is ever removed and every entry keeps
    its identity fields; its first time can only decrease, its last time
    only increase, the magnitude of its signal only decrease (a Bluetooth
    signal never changes) and its probed SSIDs only accumulate. *)
Theorem parse_entries_grow self :
  set_semantics py -> parser_grows self (parse py self).1.1.
Proof.
  intros Hset.
  apply (parse_preserves (parser_grows self)).
  - intros d s Hs. eapply parser_grows_trans; [exact Hs|].
    apply processBluetooth_grows.
  - intros d s Hs. eapply parser_grows_trans; [exact Hs|].
    apply processWirelessAp_grows.
  - intros d s Hs. eapply parser_grows_trans; [exact Hs|].
    by apply processWirelessClient_grows.
  - apply parser_grows_refl.
Qed.

(** *** The keys of the stores *)







End Stores.

(** ** What is read from a record *)

Section Extraction.

Context (py : Builtins).

Implicit Types (device : json) (self : KismetParser) (mac : string).

Lemma signal_strength_reading device (r : Z) :
  reading py device r -> signal_strength py device = r.
Proof.
  intros (s & t & m & Hs & Ht & Hn & Hm & Hr).
  unfold signal_strength, signal_fields. rewrite Hs. cbn. rewrite Ht. cbn.
  rewrite bool_decide_eq_false_2 by done. rewrite Hm. cbn.
  by rewrite Hr.
Qed.

Lemma signal_strength_no_reading device :
  (forall r, ~ reading py device r) -> signal_strength py device = sentinel.
Proof.
  intros Hno. unfold signal_strength, signal_fields.
  destruct (getitem device "kismet_device_base_signal") as [s|e] eqn:Hs;
    cbn; [|done].
  destruct (getitem s "kismet.common.signal.type") as [t|e] eqn:Ht;
    cbn; [|done].
  case_bool_decide as Hn; [done|].
  destruct (getitem s "kismet.common.signal.max_signal") as [m|e] eqn:Hm;
    cbn; [|done].
  destruct (int py m) as [r|e] eqn:Hr; [|done].
  destruct (Hno r). exists s, t, m. eauto.
Qed.

Lemma fields_ignore_signal (d1 d2 : json) :
  (forall k, k ≠ "kismet_device_base_signal" -> getitem d1 k = getitem d2 k) ->
  ap_fields py d1 = ap_fields py d2
  /\ client_fields py d1 = client_fields py d2.
Proof.
  intros H. unfold ap_fields, client_fields.
  by rewrite !H by (intros [=]).
Qed.

(** X6: the signal of an access-point or client record never decides
    whether the record is valid: two records that agree on every item but
    the signal item pass or fail the first [try] block alike.  The value
    extracted is the record's reading when it has one, and the sentinel
    5000 in every other case (no signal item, no type, type ["none"], no
    maximum, a maximum that is not an integer). *)
Theorem signal_extraction (d1 d2 : json) device :
  ((forall k, k ≠ "kismet_device_base_signal" ->
              getitem d1 k = getitem d2 k) ->
   ap_fields py d1 = ap_fields py d2
   /\ client_fields py d1 = client_fields py d2)
  /\ (forall r, reading py device r -> signal_strength py device = r)
  /\ ((forall r, ~ reading py device r) -> signal_strength py device = 5000).
Proof.
  split; [apply fields_ignore_signal|].
  split; [apply signal_strength_reading|apply signal_strength_no_reading].
Qed.

Lemma client_fields_probed device mac ft lt mf bs ps :
  client_fields py device = Ok (mac, ft, lt, mf, bs, ps) ->
  match probed_record device with
  | Raise _ => ps = []
  | Ok r =>
      exists v,
        getitem r "dot11.probedssid.ssid" = Ok v
        /\ ps = if truthy v then [str py v] else ["Unknown SSID"]
  end.
Proof.
  unfold client_fields, probed_record.
  destruct (getitem device "kismet_device_base_macaddr"); cbn; [|done].
  destruct (getitem device "kismet_device_base_first_time") as [f|];
    cbn; [|done].
  destruct (int py f); cbn; [|done].
  destruct (getitem device "kismet_device_base_last_time") as [l|];
    cbn; [|done].
  destruct (int py l); cbn; [|done].
  destruct (getitem device "kismet_device_base_manuf"); cbn; [|done].
  destruct (getitem device "dot11_device") as [d|]; cbn; [|done].
  destruct d as [| | | | | |kvs]; cbn; try done.
  destruct (assoc "dot11.device.last_bssid" kvs); cbn; [|done].
  destruct (assoc "dot11.device.last_probed_ssid_record" kvs) as [r|];
    cbn.
  - destruct (getitem r "dot11.probedssid.ssid") as [v|]; cbn; [|done].
    destruct (truthy v) eqn:Hv; intros [= <- <- <- <- <- <-];
      exists v; by rewrite Hv.
  - by intros [= <- <- <- <- <- <-].
Qed.

(** X7: the probed SSIDs of a client.  A valid record without a
    last-probed-SSID record brings none; with one, it brings the text of
    its SSID, or ["Unknown SSID"] when that SSID is empty (or any other
    false value).  A merge stores the SSIDs of the record and those of the
    entry, each once. *)
Theorem probed_ssids device self mac ft lt mf bs ps :
  client_fields py device = Ok (mac, ft, lt, mf, bs, ps) ->
  match probed_record device with
  | Raise _ => ps = []
  | Ok r =>
      exists v,
        getitem r "dot11.probedssid.ssid" = Ok v
        /\ ps = if truthy v then [str py v] else ["Unknown SSID"]
  end
  /\ (mac ≠ "" ->
      wirelessClients self !! mac = None ->
      exists d,
        wirelessClients (_processWirelessClient py device self).1 !! mac
        = Some d
        /\ cl_probedSsids d = ps)
  /\ (set_semantics py ->
      mac ≠ "" ->
      forall E,
        wirelessClients self !! mac = Some E ->
        exists d,
          wirelessClients (_processWirelessClient py device self).1 !! mac
          = Some d
          /\ NoDup (cl_probedSsids d)
          /\ forall x, x ∈ cl_probedSsids d
                       <-> x ∈ ps \/ x ∈ cl_probedSsids E).
Proof.
  intros Hf. split; [by eapply client_fields_probed|]. split.
  - intros Hm Hl.
    rewrite (processWirelessClient_insert py _ _ _ _ _ _ _ _ Hf Hm Hl).
    eexists. split; [apply lookup_set_client|done].
  - intros Hset Hm E Hl.
    rewrite (processWirelessClient_merge py _ _ _ _ _ _ _ _ _ Hf Hm Hl).
    eexists. split; [apply lookup_set_client|]. cbn.
    split; [apply Hset|]. intros x.
    rewrite (proj2 (Hset _) x). apply elem_of_app.
Qed.

End Extraction.

(** ** Adding files and parsing *)

Section Runs.

Context (py : Builtins).

Implicit Types (device : json) (self : KismetParser) (mac : string).

Lemma add_lines_well_formed (file : string) (lines : list string) :
  forall self,
    (forall l, l ∈ lines -> ~ malformed py l) ->
    add_lines py file lines self
    = (set_devices self (devices self ++ omap (decoded py) lines), [], Ok ()).
Proof.
  induction lines as [|line rest IH]; intros self Hok; cbn [add_lines].
  - cbn. by rewrite app_nil_r, set_devices_id.
  - assert (Hrest : forall l, l ∈ rest -> ~ malformed py l).
    { intros l Hl. apply Hok. by right. }
    cbn [omap list_omap]. unfold decoded at 1.
    destruct (Text.nonempty (Text.strip line)) eqn:Hne; [|by apply IH].
    destruct (json_loads py line) as [v|e] eqn:Hl.
    + rewrite (IH _ Hrest). cbn. by rewrite <- app_assoc.
    + destruct (Hok line); [by left|]. split; [|by eauto].
      intros Hs. by rewrite Hs in Hne.
Qed.

(** X8: a file in which every line is blank or decodes is added whole:
    the records of its non-blank lines are appended to [self.devices] in
    the order of the file, the stores are untouched and only the debug
    record of success is logged (an empty file adds nothing).  A file
    that is missing or cannot be read raises the operator error and
    leaves the parser as it was. *)
Theorem addFile_well_formed (file : string) (lines : list string) self :
  ((forall l, l ∈ lines -> ~ malformed py l) ->
   addFile py file (Readable lines) self
   = (set_devices self (devices self ++ omap (decoded py) lines),
      [(DEBUG, "Input file '" +:+ file +:+ "' added successfully")],
      Ok ()))
  /\ addFile py file Missing self
     = (self, [(ERROR, "Input file '" +:+ file +:+ "' does not exist")],
        Raise (Warning ("Input file '" +:+ file +:+ "' does not exist")))
  /\ addFile py file Unreadable self
     = (self, [(ERROR, "Could not read input file '" +:+ file +:+ "'")],
        Raise (Warning ("Could not read input file '" +:+ file +:+ "'"))).
Proof.
  split; [|by split].
  intros Hok. unfold addFile. by rewrite (add_lines_well_formed _ _ _ Hok).
Qed.

Lemma typed_parse_device device self :
  typed device -> exists log, (parse_device py device self).2 = Ok ()
                              /\ (parse_device py device self).1.2 = log.
Proof.
  intros [t Ht]. unfold parse_device. rewrite Ht. cbn.
  repeat (match goal with |- context [if ?b then _ else _] => destruct b end);
    eauto.
Qed.

Lemma untyped_parse_device device self :
  ~ typed device ->
  exists e,
    parse_device py device self = (self, [], Raise e)
    /\ (e = KeyError "kismet_device_base_type" \/ e = TypeError).
Proof.
  intros Hn. unfold parse_device.
  destruct device as [| | | | | |kvs]; try (by eexists; eauto).
  cbn. destruct (assoc "kismet_device_base_type" kvs) as [t|] eqn:Ha;
    [|by eexists; eauto].
  destruct t; try (by eexists; eauto).
  destruct Hn. exists s. cbn. by rewrite Ha.
Qed.

Lemma parse_loop_devices (ds : list json) :
  forall self, devices (parse_loop py ds self).1.1 = devices self.
Proof.
  intros self.
  apply (parse_loop_preserves py (fun s => devices s = devices self)); try done.
  - intros d s <-. apply (processBluetooth_frame py d s).
  - intros d s <-. apply (processWirelessAp_frame py d s).
  - intros d s <-. apply (processWirelessClient_frame py d s).
Qed.

End Runs.

(** ** The [parse] loop *)

Section ParseLoop.

Context (py : Builtins).

Implicit Types (device : json) (self : KismetParser) (mac : string).

Lemma parse_loop_app (pre rest : list json) :
  forall self,
    parse_loop py (pre ++ rest) self
    = match parse_loop py pre self with
      | (s1, log1, Ok _) =>
          match parse_loop py rest s1 with
          | (s2, log2, r) => (s2, log1 ++ log2, r)
          end
      | r => r
      end.
Proof.
  induction pre as [|d pre IH]; intros self; cbn [parse_loop app].
  - by destruct (parse_loop py rest self) as [[s2 log2] r].
  - destruct (parse_device py d self) as [[s' log] [[]|e]]; [|done].
    rewrite IH.
    destruct (parse_loop py pre s') as [[s1 log1] [[]|e]]; [|done].
    destruct (parse_loop py rest s1) as [[s2 log2] r].
    by rewrite app_assoc.
Qed.

Lemma parse_loop_typed (ds : list json) :
  forall self, Forall typed ds -> (parse_loop py ds self).2 = Ok ().
Proof.
  induction ds as [|d ds IH]; intros self Hall; [done|].
  apply Forall_cons in Hall as [Hd Hall]. cbn [parse_loop].
  destruct (typed_parse_device py d self Hd) as (log & Hok & _).
  destruct (parse_device py d self) as [[s' log'] r]. cbn in Hok. subst r.
  specialize (IH s' Hall).
  by destruct (parse_loop py ds s') as [[s'' log''] r].
Qed.

Lemma typed_dec device : typed device \/ ~ typed device.
Proof.
  unfold typed.
  destruct (getitem device "kismet_device_base_type") as [t|e];
    [|right; by intros [t [=]]].
  destruct t; try (right; by intros [t' [=]]). left. eauto.
Qed.

Lemma parse_loop_ok_typed (ds : list json) :
  forall self, (parse_loop py ds self).2 = Ok () -> Forall typed ds.
Proof.
  induction ds as [|d ds IH]; intros self Hok; [constructor|].
  cbn [parse_loop] in Hok.
  destruct (typed_dec d) as [Ht|Hn].
  - constructor; [done|].
    destruct (parse_device py d self) as [[s' log] [[]|e]]; [|done].
    apply (IH s').
    by destruct (parse_loop py ds s') as [[s'' log''] r].
  - destruct (untyped_parse_device py d self Hn) as (e & He & _).
    by rewrite He in Hok.
Qed.

(** X9: [parse] never changes [self.devices].  It returns, after the
    closing debug record, when every record declares its type as a
    string.  Otherwise it ends on the [KeyError] or [TypeError] of the
    first record that does not: the records before it have been
    processed, that record and the ones after it have not. *)
Theorem parse_completion self :
  devices (parse py self).1.1 = devices self
  /\ (Forall typed (devices self) ->
      exists log,
        parse py self
        = ((parse_loop py (devices self) self).1.1,
           (DEBUG, "Initiated parsing of device data") :: log
           ++ [(DEBUG, "Parsing complete")],
           Ok ()))
  /\ (forall pre bad post,
      devices self = pre ++ bad :: post ->
      Forall typed pre ->
      ~ typed bad ->
      exists log e,
        parse py self
        = ((parse_loop py pre self).1.1,
           (DEBUG, "Initiated parsing of device data") :: log,
           Raise e)
        /\ (e = KeyError "kismet_device_base_type" \/ e = TypeError)).
Proof.
  split; [|split].
  - unfold parse. pose proof (parse_loop_devices py (devices self) self) as H.
    by destruct (parse_loop py (devices self) self) as [[s log] [u|e]].
  - intros Hall. unfold parse.
    pose proof (parse_loop_typed _ self Hall) as H.
    destruct (parse_loop py (devices self) self) as [[s log] r].
    cbn in H. subst r. by exists log.
  - intros pre bad post Hds Hpre Hbad. unfold parse.
    rewrite Hds, parse_loop_app.
    pose proof (parse_loop_typed _ self Hpre) as H.
    destruct (parse_loop py pre self) as [[s1 log1] r].
    cbn in H. subst r. cbn [parse_loop].
    destruct (untyped_parse_device py bad s1 Hbad) as (e & -> & He).
    exists (log1 ++ []), e. by split.
Qed.

(** *** Every record processed is accounted for *)

Lemma covered_mono (s s' : KismetParser) device :
  parser_grows s s' -> covered py s device -> covered py s' device.
Proof.
  intros (G1 & G2 & G3) Hc t Ht. destruct (Hc t Ht) as (C1 & C2 & C3).
  split; [|split].
  - intros Hb mac ft lt mf nm Hf Hm.
    destruct (C1 Hb _ _ _ _ _ Hf Hm) as (E & HE & ? & ?).
    destruct (G1 _ _ HE) as (E' & HE' & ? & ? & ? & ? & ?).
    exists E'. split; [done|]. lia.
  - intros Hb mac ft lt mf ch au es Hf Hm.
    destruct (C2 Hb _ _ _ _ _ _ _ Hf Hm) as (E & HE & ? & ? & ?).
    destruct (G2 _ _ HE) as (E' & HE' & ? & ? & ? & ? & ? & ? & ?).
    exists E'. split; [done|]. lia.
  - intros Hb mac ft lt mf bs ps Hf Hm.
    destruct (C3 Hb _ _ _ _ _ _ Hf Hm) as (E & HE & ? & ? & ? & Hp).
    destruct (G3 _ _ HE) as (E' & HE' & ? & ? & ? & ? & ? & Hp').
    exists E'. split; [done|]. repeat split; try lia. auto.
Qed.

Lemma processBluetooth_covers device self :
  bluetooth_covered py device (_processBluetooth py device self).1.
Proof.
  intros mac ft lt mf nm Hf Hm.
  destruct (bluetoothDevices self !! mac) as [E|] eqn:Hl.
  - rewrite (processBluetooth_merge py _ _ _ _ _ _ _ _ Hf Hm Hl).
    eexists. split; [apply lookup_set_bluetooth|]. cbn. lia.
  - rewrite (processBluetooth_insert py _ _ _ _ _ _ _ Hf Hm Hl).
    eexists. split; [apply lookup_set_bluetooth|]. cbn. lia.
Qed.

Lemma processWirelessAp_covers device self :
  ap_covered py device (_processWirelessAp py device self).1.
Proof.
  intros mac ft lt mf ch au es Hf Hm.
  destruct (wirelessAps self !! mac) as [E|] eqn:Hl.
  - rewrite (processWirelessAp_merge py _ _ _ _ _ _ _ _ _ _ Hf Hm Hl).
    eexists. split; [apply lookup_set_ap|]. cbn.
    pose proof (best_signal_le_new (signal_strength py device) (ap_rssi E)).
    lia.
  - rewrite (processWirelessAp_insert py _ _ _ _ _ _ _ _ _ Hf Hm Hl).
    eexists. split; [apply lookup_set_ap|]. cbn. lia.
Qed.

Lemma processWirelessClient_covers device self :
  set_semantics py ->
  client_covered py device (_processWirelessClient py device self).1.
Proof.
  intros Hset mac ft lt mf bs ps Hf Hm.
  destruct (wirelessClients self !! mac) as [E|] eqn:Hl.
  - rewrite (processWirelessClient_merge py _ _ _ _ _ _ _ _ _ Hf Hm Hl).
    eexists. split; [apply lookup_set_client|]. cbn.
    pose proof (best_signal_le_new (signal_strength py device) (cl_rssi E)).
    repeat split; try lia.
    intros x Hx. apply (proj2 (Hset _)). apply elem_of_app. by left.
  - rewrite (processWirelessClient_insert py _ _ _ _ _ _ _ _ Hf Hm Hl).
    eexists. split; [apply lookup_set_client|]. cbn.
    repeat split; (lia || done).
Qed.

Lemma eq_str_true (t : json) (s : string) : eq_str t s = true -> t = JStr s.
Proof.
  destruct t; try discriminate. cbn. by intros ->%String.eqb_eq.
Qed.

Lemma parse_device_covers device self :
  set_semantics py ->
  covered py (parse_device py device self).1.1 device.
Proof.
  intros Hset t Ht. unfold parse_device. rewrite Ht.
  destruct (eq_str t "BTLE") eqn:H1.
  { apply eq_str_true in H1 as ->. cbn.
    split; [intros _; apply processBluetooth_covers|by split]. }
  destruct (eq_str t "Wi-Fi AP") eqn:H2.
  { apply eq_str_true in H2 as ->. cbn.
    split; [done|]. split; [intros _; apply processWirelessAp_covers|done]. }
  destruct (eq_str t "Wi-Fi Client") eqn:H3; [|by repeat split].
  apply eq_str_true in H3 as ->. cbn.
  split; [done|]. split; [done|].
  intros _. by apply processWirelessClient_covers.
Qed.

Lemma parse_device_grows device self :
  set_semantics py -> parser_grows self (parse_device py device self).1.1.
Proof.
  intros Hset. apply (parse_device_preserves py (parser_grows self)).
  - intros d s Hs. eapply parser_grows_trans; [exact Hs|].
    apply processBluetooth_grows.
  - intros d s Hs. eapply parser_grows_trans; [exact Hs|].
    apply processWirelessAp_grows.
  - intros d s Hs. eapply parser_grows_trans; [exact Hs|].
    by apply processWirelessClient_grows.
  - apply parser_grows_refl.
Qed.

Lemma parse_loop_grows (ds : list json) self :
  set_semantics py -> parser_grows self (parse_loop py ds self).1.1.
Proof.
  intros Hset. apply (parse_loop_preserves py (parser_grows self)).
  - intros d s Hs. eapply parser_grows_trans; [exact Hs|].
    apply processBluetooth_grows.
  - intros d s Hs. eapply parser_grows_trans; [exact Hs|].
    apply processWirelessAp_grows.
  - intros d s Hs. eapply parser_grows_trans; [exact Hs|].
    by apply processWirelessClient_grows.
  - apply parser_grows_refl.
Qed.

Lemma parse_loop_covers (ds : list json) :
  set_semantics py ->
  forall self pre rest,
    ds = pre ++ rest ->
    Forall typed pre ->
    Forall (covered py (parse_loop py ds self).1.1) pre.
Proof.
  intros Hset. induction ds as [|d ds IH]; intros self pre rest Hds Hpre.
  - destruct pre; [constructor|discriminate].
  - destruct pre as [|d' pre]; [constructor|].
    injection Hds as <- Hds. apply Forall_cons in Hpre as [Hd Hpre].
    cbn [parse_loop].
    destruct (typed_parse_device py d self Hd) as (log & Hok & _).
    pose proof (parse_device_covers d self Hset) as Hc.
    destruct (parse_device py d self) as [[s' log'] r]. cbn in Hok, Hc.
    subst r.
    pose proof (IH s' pre rest Hds Hpre) as Hrest.
    pose proof (parse_loop_grows ds s' Hset) as Hg.
    destruct (parse_loop py ds s') as [[s'' log''] r]. cbn in *.
    constructor; [|done]. by eapply covered_mono.
Qed.

(** X10: when [parse] returns, every record of [self.devices] is
    accounted for in the store of the class it declares: if the record is
    valid, the entry of its address has a first time no later than the
    record's, a last time no earlier, a signal no larger in magnitude
    than the record's, and probed SSIDs that include the record's. *)
Theorem parse_covers_every_record self :
  set_semantics py ->
  (parse py self).2 = Ok () ->
  Forall (covered py (parse py self).1.1) (devices self).
Proof.
  intros Hset Hok.
  assert (Hall : Forall typed (devices self)).
  { apply (parse_loop_ok_typed _ self). revert Hok. unfold parse.
    by destruct (parse_loop py (devices self) self) as [[s log] [[]|e]]. }
  pose proof (parse_loop_covers (devices self) Hset self (devices self) []
                (eq_sym (app_nil_r _)) Hall) as H.
  unfold parse.
  by destruct (parse_loop py (devices self) self) as [[s log] [u|e]].
Qed.

End ParseLoop.

(** ** Parsing again *)

Section ParseTwice.

Context (py : Builtins).

Implicit Types (device : json) (self : KismetParser) (mac : string).

Lemma same_client_sym (a b : WirelessClient) :
  same_client a b -> same_client b a.
Proof.
  intros (?&?&?&?&?&H). repeat split; try done. all: by apply H.
Qed.

Lemma same_client_trans (a b c : WirelessClient) :
  same_client a b -> same_client b c -> same_client a c.
Proof.
  intros (?&?&?&?&?&H) (?&?&?&?&?&K).
  repeat split; try congruence.
  - intros Hx. by apply K, H.
  - intros Hx. by apply H, K.
Qed.

Lemma same_parser_refl self : same_parser self self.
Proof.
  repeat split. intros mac.
  destruct (wirelessClients self !! mac); constructor.
  apply same_client_refl.
Qed.

Lemma same_parser_sym (a b : KismetParser) :
  same_parser a b -> same_parser b a.
Proof.
  intros (?&?&?&H). repeat split; try done. intros mac.
  specialize (H mac).
  destruct (wirelessClients a !! mac), (wirelessClients b !! mac);
    inversion H; subst; constructor.
  by apply same_client_sym.
Qed.

Lemma same_parser_trans (a b c : KismetParser) :
  same_parser a b -> same_parser b c -> same_parser a c.
Proof.
  intros (?&?&?&H) (?&?&?&K). repeat split; try congruence. intros mac.
  specialize (H mac). specialize (K mac).
  destruct (wirelessClients a !! mac), (wirelessClients b !! mac),
    (wirelessClients c !! mac); inversion H; inversion K; subst;
    constructor.
  by eapply same_client_trans.
Qed.

Lemma covered_same (s s' : KismetParser) device :
  same_parser s s' -> covered py s device -> covered py s' device.
Proof.
  intros (_ & Hbt & Hap & Hcl) Hc t Ht. destruct (Hc t Ht) as (C1 & C2 & C3).
  split; [|split].
  - intros Hb mac ft lt mf nm Hf Hm. rewrite <- Hbt. by eapply C1.
  - intros Hb mac ft lt mf ch au es Hf Hm. rewrite <- Hap. by eapply C2.
  - intros Hb mac ft lt mf bs ps Hf Hm.
    destruct (C3 Hb _ _ _ _ _ _ Hf Hm) as (E & HE & ? & ? & ? & Hp).
    specialize (Hcl mac). rewrite HE in Hcl.
    destruct (wirelessClients s' !! mac) as [E'|]; inversion Hcl as [? ? Hs|];
      subst.
    destruct Hs as (?&?&?&?&?&Hs).
    exists E'. split; [done|]. repeat split; try lia.
    intros x Hx. by apply Hs, Hp.
Qed.

Lemma set_bluetooth_id self mac (E : BluetoothDevice) :
  bluetoothDevices self !! mac = Some E -> set_bluetooth self mac E = self.
Proof.
  intros H. destruct self. unfold set_bluetooth. cbn in *.
  by rewrite insert_id.
Qed.

Lemma set_ap_id self mac (E : WirelessAp) :
  wirelessAps self !! mac = Some E -> set_ap self mac E = self.
Proof.
  intros H. destruct self. unfold set_ap. cbn in *. by rewrite insert_id.
Qed.

Lemma best_signal_keep (n e : Z) : Z.abs e <= Z.abs n -> best_signal n e = e.
Proof. intros H. unfold best_signal. by apply Z.ltb_ge in H as ->. Qed.

Lemma processBluetooth_covered device self :
  bluetooth_covered py device self ->
  (_processBluetooth py device self).1 = self.
Proof.
  intros Hc.
  destruct (bluetooth_fields py device)
    as [[[[[mac ft] lt] mf] nm]|e] eqn:Hf.
  2: { unfold _processBluetooth. by rewrite Hf. }
  destruct (decide (mac = "")) as [->|Hm].
  { unfold _processBluetooth. by rewrite Hf. }
  destruct (Hc _ _ _ _ _ Hf Hm) as (E & HE & H1 & H2).
  rewrite (processBluetooth_merge py _ _ _ _ _ _ _ _ Hf Hm HE). cbn [fst].
  rewrite <- (set_bluetooth_id self mac E HE) at 2. f_equal.
  destruct E. cbn in *. f_equal; lia.
Qed.

Lemma processWirelessAp_covered device self :
  ap_covered py device self ->
  (_processWirelessAp py device self).1 = self.
Proof.
  intros Hc.
  destruct (ap_fields py device)
    as [[[[[[[mac ft] lt] mf] ch] au] es]|e] eqn:Hf.
  2: { unfold _processWirelessAp. by rewrite Hf. }
  destruct (decide (mac = "")) as [->|Hm].
  { unfold _processWirelessAp. by rewrite Hf. }
  destruct (Hc _ _ _ _ _ _ _ Hf Hm) as (E & HE & H1 & H2 & H3).
  rewrite (processWirelessAp_merge py _ _ _ _ _ _ _ _ _ _ Hf Hm HE).
  cbn [fst]. rewrite <- (set_ap_id self mac E HE) at 2. f_equal.
  rewrite (best_signal_keep _ _ H3).
  destruct E. cbn in *. f_equal; lia.
Qed.

Lemma processWirelessClient_covered device self :
  set_semantics py ->
  client_covered py device self ->
  same_parser (_processWirelessClient py device self).1 self.
Proof.
  intros Hset Hc.
  destruct (client_fields py device)
    as [[[[[[mac ft] lt] mf] bs] ps]|e] eqn:Hf.
  2: { unfold _processWirelessClient. rewrite Hf. apply same_parser_refl. }
  destruct (decide (mac = "")) as [->|Hm].
  { unfold _processWirelessClient. rewrite Hf. apply same_parser_refl. }
  destruct (Hc _ _ _ _ _ _ Hf Hm) as (E & HE & H1 & H2 & H3 & Hp).
  rewrite (processWirelessClient_merge py _ _ _ _ _ _ _ _ _ Hf Hm HE).
  cbn [fst]. do 3 (split; [done|]). intros mac'. cbn.
  destruct (decide (mac = mac')) as [<-|Hne].
  - rewrite lookup_insert_eq, HE. constructor.
    rewrite (best_signal_keep _ _ H3).
    repeat split; cbn; try lia.
    + intros Hx. apply (proj1 (proj2 (Hset _) _)) in Hx.
      apply elem_of_app in Hx as [Hx|Hx]; auto.
    + intros Hx. apply (proj2 (Hset _)). apply elem_of_app. by right.
  - rewrite lookup_insert_ne by done.
    destruct (wirelessClients self !! mac'); constructor.
    apply same_client_refl.
Qed.

Lemma parse_device_covered device self :
  set_semantics py ->
  covered py self device ->
  same_parser (parse_device py device self).1.1 self.
Proof.
  intros Hset Hc. unfold parse_device.
  destruct (getitem device "kismet_device_base_type") as [t|e] eqn:Ht;
    [|apply same_parser_refl].
  destruct (Hc t Ht) as (C1 & C2 & C3).
  destruct (eq_str t "BTLE").
  { cbn. rewrite processBluetooth_covered by auto. apply same_parser_refl. }
  destruct (eq_str t "Wi-Fi AP").
  { cbn. rewrite processWirelessAp_covered by auto. apply same_parser_refl. }
  destruct (eq_str t "Wi-Fi Client").
  { cbn. apply processWirelessClient_covered; auto. }
  cbn. destruct t; apply same_parser_refl.
Qed.

Lemma parse_loop_covered (ds : list json) :
  set_semantics py ->
  forall self,
    (forall pre rest,
        ds = pre ++ rest -> Forall typed pre -> Forall (covered py self) pre) ->
    same_parser (parse_loop py ds self).1.1 self.
Proof.
  intros Hset. induction ds as [|d ds IH]; intros self Hc.
  - apply same_parser_refl.
  - cbn [parse_loop]. destruct (typed_dec d) as [Hd|Hn].
    + assert (Hcd : covered py self d).
      { specialize (Hc [d] ds eq_refl (Forall_cons_2 _ _ _ Hd (Forall_nil_2 _))).
        by apply Forall_cons in Hc as [? _]. }
      pose proof (parse_device_covered d self Hset Hcd) as Hsame.
      destruct (parse_device py d self) as [[s' log] [[]|e]]; [|done].
      cbn in Hsame.
      assert (Hrest : forall pre rest,
                 ds = pre ++ rest -> Forall typed pre ->
                 Forall (covered py s') pre).
      { intros pre rest -> Hpre.
        specialize (Hc (d :: pre) rest eq_refl (Forall_cons_2 _ _ _ Hd Hpre)).
        apply Forall_cons in Hc as [_ Hc].
        eapply Forall_impl; [exact Hc|]. intros x Hx.
        eapply covered_same; [|exact Hx]. by apply same_parser_sym. }
      specialize (IH s' Hrest).
      destruct (parse_loop py ds s') as [[s'' log''] r]. cbn in *.
      by eapply same_parser_trans.
    + destruct (untyped_parse_device py d self Hn) as (e & -> & _).
      apply same_parser_refl.
Qed.

(** X11: calling [parse] a second time changes no store: the Bluetooth
    and access-point stores are equal to what the first call left, and
    the client store is equal up to the order of the probed SSIDs,
    whether the calls return or end on the same untyped record. *)
Theorem parse_twice self :
  set_semantics py ->
  same_parser (parse py (parse py self).1.1).1.1 (parse py self).1.1.
Proof.
  intros Hset.
  assert (Hdev : devices (parse py self).1.1 = devices self).
  { unfold parse. pose proof (parse_loop_devices py (devices self) self) as H.
    by destruct (parse_loop py (devices self) self) as [[s log] [u|e]]. }
  assert (Hcov : forall pre rest,
             devices self = pre ++ rest -> Forall typed pre ->
             Forall (covered py (parse py self).1.1) pre).
  { intros pre rest Hds Hpre.
    pose proof (parse_loop_covers py (devices self) Hset self pre rest
                  Hds Hpre) as H.
    unfold parse.
    by destruct (parse_loop py (devices self) self) as [[s log] [u|e]]. }
  set (s1 := (parse py self).1.1) in *.
  unfold parse at 1. rewrite Hdev.
  pose proof (parse_loop_covered (devices self) Hset s1 Hcov) as H.
  by destruct (parse_loop py (devices self) s1) as [[s log] [u|e]].
Qed.

End ParseTwice.

Section Order.

Context (py : Builtins).

Lemma ltb_lt (a b : string) :
  String.ltb a b = true <-> OrderedTypeEx.String_as_OT.lt a b.
Proof.
  rewrite <- OrderedTypeEx.String_as_OT.cmp_lt.
  unfold String.ltb, OrderedTypeEx.String_as_OT.cmp.
  destruct (String.compare a b); split; congruence.
Qed.

Lemma ltb_irrefl (a : string) : String.ltb a a = false.
Proof.
  destruct (String.ltb a a) eqn:H; [|done].
  apply ltb_lt in H.
  by destruct (OrderedTypeEx.String_as_OT.lt_not_eq _ _ H).
Qed.

Lemma ltb_trans (a b c : string) :
  String.ltb a b = true -> String.ltb b c = true -> String.ltb a c = true.
Proof.
  rewrite !ltb_lt. apply OrderedTypeEx.String_as_OT.lt_trans.
Qed.

Lemma ltb_asym (a b : string) :
  String.ltb a b = true -> String.ltb b a = false.
Proof.
  intros H. destruct (String.ltb b a) eqn:H'; [|done].
  by rewrite <- (ltb_irrefl a), <- (ltb_trans _ _ _ H H').
Qed.

Lemma ltb_total (a b : string) :
  String.ltb a b = false -> String.ltb b a = false -> a = b.
Proof.
  unfold String.ltb. intros H1 H2.
  apply OrderedTypeEx.String_as_OT.cmp_eq.
  pose proof (OrderedTypeEx.String_as_OT.cmp_antisym a b) as Ha.
  unfold OrderedTypeEx.String_as_OT.cmp in *.
  destruct (String.compare a b), (String.compare b a);
    cbn in Ha; congruence.
Qed.

Lemma key_le_below (x y z : row) :
  String.ltb (sort_key x) (sort_key y) = true -> key_le y z -> key_le x z.
Proof.
  unfold key_le. intros Hxy Hyz.
  destruct (String.ltb (sort_key z) (sort_key x)) eqn:Hzx; [|done].
  by rewrite <- Hyz, (ltb_trans _ _ _ Hzx Hxy).
Qed.

Lemma insert_row_sorted (x : row) (l : list row) :
  StronglySorted key_le l -> StronglySorted key_le (insert_row x l).
Proof.
  induction 1 as [|y l Hl IH Hy]; cbn.
  - constructor; [constructor|done].
  - destruct (String.ltb (sort_key x) (sort_key y)) eqn:Hxy.
    + constructor; [by constructor|].
      constructor; [by apply ltb_asym|].
      eapply Forall_impl; [exact Hy|].
      intros z Hz. by eapply key_le_below.
    + constructor; [done|].
      apply Forall_forall. intros z Hz.
      rewrite insert_row_perm in Hz.
      apply elem_of_cons in Hz as [->|Hz]; [done|].
      by apply (proj1 (Forall_forall _ _) Hy).
Qed.

Lemma sort_rows_sorted (rows : list row) : StronglySorted key_le (sort_rows rows).
Proof.
  unfold sort_rows.
  assert (H : forall acc, StronglySorted key_le acc ->
                StronglySorted key_le
                  (fold_left (fun acc x => insert_row x acc) rows acc)).
  { induction rows as [|x rows IH]; intros acc Hacc; cbn; [done|].
    by apply IH, insert_row_sorted. }
  apply H. constructor.
Qed.

Lemma report_rows_sorted {D : Type} (mk : string -> D -> option row)
    (store : gmap string D) (outFile : string) (rows : list row) :
  (report_rows mk store outFile).1 = Ok rows ->
  StronglySorted key_le rows /\ length rows = size store.
Proof.
  unfold report_rows.
  destruct (mapM _ (map_to_list store)) as [k|] eqn:Hm; [|discriminate].
  cbn. intros [= <-]. split; [apply sort_rows_sorted|].
  rewrite sort_rows_perm. apply length_mapM in Hm.
  by rewrite <- Hm, length_map_to_list.
Qed.

(** X12: the rows each report hands to [tabulate] are in ascending order
    of their sort key (the text of the signal cell, a space, the hardware
    address), and there is one row for every stored device. *)
Theorem report_sorted (self : KismetParser) (outFile : string)
    (rows : list row) :
  ((_reportBluetooth_rows py self outFile).1 = Ok rows ->
   StronglySorted key_le rows
   /\ length rows = size (bluetoothDevices self))
  /\ ((_reportWirelessAps_rows py self outFile).1 = Ok rows ->
      StronglySorted key_le rows
      /\ length rows = size (wirelessAps self))
  /\ ((_reportWirelessClients_rows py self outFile).1 = Ok rows ->
      StronglySorted key_le rows
      /\ length rows = size (wirelessClients self)).
Proof.
  split; [|split]; intros H; by apply report_rows_sorted in H.
Qed.

(** *** The order of the dict does not show *)

Lemma uint_spaceless (d : Decimal.uint) :
  has_space (NilEmpty.string_of_uint d) = false.
Proof. induction d; cbn; auto. Qed.

Lemma of_int_spaceless (z : Z) : has_space (Text.of_int z) = false.
Proof.
  unfold Text.of_int.
  destruct (Z.to_int z) as [d|d]; cbn; destruct d; cbn;
    auto using uint_spaceless.
Qed.

Lemma rssi_cell_spaceless (rssi : Z) :
  has_space (format_cell (rssi_cell rssi)) = false.
Proof.
  unfold rssi_cell. destruct (255 <? Z.abs rssi); cbn; [done|].
  apply of_int_spaceless.
Qed.

Lemma key_parts (r1 r2 m1 m2 : string) :
  has_space r1 = false -> has_space r2 = false ->
  r1 +:+ String " " m1 = r2 +:+ String " " m2 -> m1 = m2.
Proof.
  revert r2. induction r1 as [|c r1 IH]; intros [|c' r2]; cbn.
  - intros _ _ H. by injection H.
  - intros _ H [= <- _]. by rewrite Ascii.eqb_refl in H.
  - intros H _ [= -> _]. by rewrite Ascii.eqb_refl in H.
  - destruct (Ascii.eqb c " "); [done|].
    destruct (Ascii.eqb c' " "); [done|].
    intros H1 H2 [= _ H]. by apply (IH r2).
Qed.

Lemma last_default {A : Type} (l : list A) (x d : A) :
  last l = Some x -> List.last l d = x.
Proof.
  induction l as [|a [|b l] IH]; [done|by intros [= ->]|].
  intros H. by apply IH.
Qed.

Lemma row_of_key (mac : string) (r : row) :
  row_of mac r ->
  exists rssi,
    sort_key r = format_cell (rssi_cell rssi) +:+ " " +:+ mac.
Proof.
  intros [Hh [rssi Hl]]. exists rssi. unfold sort_key.
  rewrite (last_default _ _ _ Hl).
  destruct r as [|c r]; [done|]. by injection Hh as ->.
Qed.

Lemma row_of_inj (m1 m2 : string) (r1 r2 : row) :
  row_of m1 r1 -> row_of m2 r2 -> sort_key r1 = sort_key r2 -> m1 = m2.
Proof.
  intros [s1 H1]%row_of_key [s2 H2]%row_of_key. rewrite H1, H2.
  apply key_parts; apply rssi_cell_spaceless.
Qed.

Lemma bluetooth_row_of mac (d : BluetoothDevice) (r : row) :
  bluetooth_row py mac d = Some r -> row_of mac r.
Proof.
  unfold bluetooth_row. intros H.
  destruct (_epochToDatetime py (bt_firstTime d)) as [a|]; [|discriminate].
  destruct (_epochToDatetime py (bt_lastTime d)) as [b|]; [|discriminate].
  cbn in H. injection H as <-. split; [done|]. by exists (bt_rssi d).
Qed.

Lemma ap_row_of mac (d : WirelessAp) (r : row) :
  ap_row py mac d = Some r -> row_of mac r.
Proof.
  unfold ap_row. intros H.
  destruct (_epochToDatetime py (ap_firstTime d)) as [a|]; [|discriminate].
  destruct (_epochToDatetime py (ap_lastTime d)) as [b|]; [|discriminate].
  cbn in H. injection H as <-. split; [done|]. by exists (ap_rssi d).
Qed.

Lemma client_row_of mac (d : WirelessClient) (r : row) :
  client_row py mac d = Some r -> row_of mac r.
Proof.
  unfold client_row. intros H.
  destruct (_epochToDatetime py (cl_firstTime d)) as [a|]; [|discriminate].
  destruct (_epochToDatetime py (cl_lastTime d)) as [b|]; [|discriminate].
  cbn in H. injection H as <-. split; [done|]. by exists (cl_rssi d).
Qed.

Lemma sorted_unique (l l' : list row) :
  StronglySorted key_le l -> StronglySorted key_le l' ->
  NoDup (sort_key <$> l) -> l ≡ₚ l' -> l = l'.
Proof.
  intros Hl. revert l'.
  induction Hl as [|a t Ht IH Ha]; intros l' Hl' Hnd Hp.
  - by apply Permutation_nil_l in Hp.
  - destruct Hl' as [|b t' Ht' Hb].
    { by apply Permutation_nil_r in Hp. }
    rewrite fmap_cons in Hnd. apply NoDup_cons in Hnd as [Hnew Hnd].
    assert (a = b) as <-.
    { assert (Hin : a ∈ b :: t') by (rewrite <- Hp; left).
      assert (Hin' : b ∈ a :: t) by (rewrite Hp; left).
      apply elem_of_cons in Hin as [?|Hin]; [done|].
      apply elem_of_cons in Hin' as [?|Hin']; [done|].
      exfalso. apply Hnew.
      rewrite (ltb_total (sort_key a) (sort_key b)).
      - by apply list_elem_of_fmap_2.
      - by apply (proj1 (Forall_forall _ _) Hb).
      - by apply (proj1 (Forall_forall _ _) Ha). }
    f_equal. apply IH; [done|done|]. by apply Permutation_cons_inv in Hp.
Qed.

Lemma mapM_omap {A B : Type} (f : A -> option B) (l : list A) (k : list B) :
  mapM f l = Some k -> omap f l = k.
Proof.
  intros H%mapM_Some. induction H as [|x y l k Hx _ IH]; [done|].
  cbn. by rewrite Hx, IH.
Qed.

Lemma rows_keys_distinct {D : Type} (mk : string -> D -> option row)
    (items : list (string * D)) (rows : list row) :
  (forall mac d r, mk mac d = Some r -> row_of mac r) ->
  NoDup items.*1 ->
  mapM (fun kv => mk kv.1 kv.2) items = Some rows ->
  NoDup (sort_key <$> rows).
Proof.
  intros Hmk Hnd H%mapM_Some.
  induction H as [|[mac d] r items rows Hr Hrest IH]; [constructor|].
  rewrite fmap_cons in Hnd. apply NoDup_cons in Hnd as [Hnew Hnd].
  rewrite fmap_cons. apply NoDup_cons. split; [|by apply IH].
  intros (r' & Hk & [i Hi]%list_elem_of_lookup_1)%list_elem_of_fmap.
  destruct (Forall2_lookup_r _ _ _ _ _ Hrest Hi) as ([mac' d'] & Hx & Hr').
  apply Hnew. cbn in *.
  rewrite (row_of_inj mac mac' r r'); [|by eapply Hmk|by eapply Hmk|done].
  apply list_elem_of_fmap. exists (mac', d'). split; [done|].
  by eapply list_elem_of_lookup_2.
Qed.

Lemma rows_of_traversal {D : Type} (mk : string -> D -> option row)
    (items items' : list (string * D)) :
  (forall mac d r, mk mac d = Some r -> row_of mac r) ->
  NoDup items.*1 -> items ≡ₚ items' ->
  rows_of mk items = rows_of mk items'.
Proof.
  intros Hmk Hnd Hp. unfold rows_of.
  destruct (mapM _ items) as [k|] eqn:Hk;
    destruct (mapM _ items') as [k'|] eqn:Hk'; cbn.
  - f_equal.
    assert (Hkk : k ≡ₚ k').
    { rewrite <- (mapM_omap _ _ _ Hk), <- (mapM_omap _ _ _ Hk').
      by rewrite Hp. }
    apply sorted_unique; try apply sort_rows_sorted.
    + rewrite sort_rows_perm. by eapply rows_keys_distinct.
    + by rewrite !sort_rows_perm.
  - exfalso. assert (Hs : is_Some (mapM (fun kv : string * D => mk kv.1 kv.2)
                                     items')).
    { apply mapM_is_Some. rewrite <- Hp. apply mapM_is_Some. by rewrite Hk. }
    rewrite Hk' in Hs. by destruct Hs.
  - exfalso. assert (Hs : is_Some (mapM (fun kv : string * D => mk kv.1 kv.2)
                                     items)).
    { apply mapM_is_Some. rewrite Hp. apply mapM_is_Some. by rewrite Hk'. }
    rewrite Hk in Hs. by destruct Hs.
  - done.
Qed.

Lemma report_rows_traversal {D : Type} (mk : string -> D -> option row)
    (store : gmap string D) (outFile : string)
    (items : list (string * D)) (rows : list row) :
  (forall mac d r, mk mac d = Some r -> row_of mac r) ->
  traversal store items ->
  (report_rows mk store outFile).1 = Ok rows <-> rows_of mk items = Some rows.
Proof.
  intros Hmk Hp. unfold traversal in Hp.
  rewrite (rows_of_traversal mk items (map_to_list store) Hmk); [|
    rewrite Hp; apply NoDup_fst_map_to_list|done].
  unfold report_rows, rows_of.
  destruct (mapM _ (map_to_list store)) as [k|]; cbn;
    split; congruence.
Qed.

(** X13: the rows of a report do not depend on the order in which the
    dict hands out its items: whatever that order, sorting gives the same
    list of rows, and the rows can be built in one order exactly when they
    can in any other. *)
Theorem report_order_immaterial (self : KismetParser) (outFile : string)
    (rows : list row) :
  (forall items, traversal (bluetoothDevices self) items ->
     (_reportBluetooth_rows py self outFile).1 = Ok rows
     <-> rows_of (bluetooth_row py) items = Some rows)
  /\ (forall items, traversal (wirelessAps self) items ->
        (_reportWirelessAps_rows py self outFile).1 = Ok rows
        <-> rows_of (ap_row py) items = Some rows)
  /\ (forall items, traversal (wirelessClients self) items ->
        (_reportWirelessClients_rows py self outFile).1 = Ok rows
        <-> rows_of (client_row py) items = Some rows).
Proof.
  split; [|split]; intros items Hit.
  - apply report_rows_traversal; [apply bluetooth_row_of|done].
  - apply report_rows_traversal; [apply ap_row_of|done].
  - apply report_rows_traversal; [apply client_row_of|done].
Qed.

End Order.

Section Console.

Context (py : Builtins) (os : System).

Lemma yesNo_skips (stack : nat) (prompt yn : string) (rest : list string) :
  ~ answered yn ->
  _yesNo (S stack) prompt (yn :: rest)
  = ((_yesNo stack prompt rest).1.1,
     Prompt (prompt +:+ " (y/n): ") :: (_yesNo stack prompt rest).1.2,
     (_yesNo stack prompt rest).2).
Proof.
  intros Hn. cbn [_yesNo].
  rewrite !bool_decide_eq_false_2 by (intros H; apply Hn; by constructor).
  by destruct (_yesNo stack prompt rest) as [[? ?] ?].
Qed.

Lemma yesNo_answer (stack : nat) (prompt : string) (junk : list string) :
  Forall (fun yn => ~ answered yn) junk ->
  forall yn rest,
    (length junk < stack)%nat -> answered yn ->
    _yesNo stack prompt (junk ++ yn :: rest)
    = (rest, replicate (S (length junk)) (Prompt (prompt +:+ " (y/n): ")),
       Returns (bool_decide (Text.lower yn = "y"))).
Proof.
  intros Hj yn rest. revert stack.
  induction Hj as [|a junk Ha _ IH]; intros [|stack] Hlen Hyn; cbn in Hlen;
    try lia.
  - cbn. case_bool_decide as Hy; [done|].
    destruct Hyn as [?|Hn]; [done|]. by rewrite bool_decide_eq_true_2.
  - cbn [app]. rewrite yesNo_skips by done.
    rewrite IH by (done || lia). done.
Qed.

Lemma yesNo_eof (stack : nat) (prompt : string) (junk : list string) :
  Forall (fun yn => ~ answered yn) junk ->
  (length junk < stack)%nat ->
  _yesNo stack prompt junk
  = ([], replicate (S (length junk)) (Prompt (prompt +:+ " (y/n): ")),
     Raises EOFError).
Proof.
  intros Hj. revert stack.
  induction Hj as [|a junk Ha _ IH]; intros [|stack] Hlen; cbn in Hlen;
    try lia; [done|].
  rewrite yesNo_skips by done. rewrite IH by lia. done.
Qed.

Lemma yesNo_depth (stack : nat) (prompt : string) (junk rest : list string) :
  Forall (fun yn => ~ answered yn) junk ->
  length junk = stack ->
  _yesNo stack prompt (junk ++ rest)
  = (rest, replicate stack (Prompt (prompt +:+ " (y/n): ")),
     Raises RecursionError).
Proof.
  intros Hj. revert stack.
  induction Hj as [|a junk Ha _ IH]; intros stack <-; [done|].
  cbn [app length]. rewrite yesNo_skips by done. by rewrite IH.
Qed.

(** X14: [_yesNo] asks until a line reads y or n in either case: it
    returns what the first such line says and leaves the lines after it
    unread, having asked once per line.  If the input ends first it
    raises [EOFError]; if the lines that are no answer exhaust the depth
    of calls the interpreter allows, it raises [RecursionError]. *)
Theorem yesNo_first_answer (stack : nat) (prompt : string)
    (junk : list string) :
  Forall (fun yn => ~ answered yn) junk ->
  (forall yn rest,
      (length junk < stack)%nat -> answered yn ->
      _yesNo stack prompt (junk ++ yn :: rest)
      = (rest, replicate (S (length junk)) (Prompt (prompt +:+ " (y/n): ")),
         Returns (bool_decide (Text.lower yn = "y"))))
  /\ ((length junk < stack)%nat ->
      _yesNo stack prompt junk
      = ([], replicate (S (length junk)) (Prompt (prompt +:+ " (y/n): ")),
         Raises EOFError))
  /\ (forall rest,
      length junk = stack ->
      _yesNo stack prompt (junk ++ rest)
      = (rest, replicate stack (Prompt (prompt +:+ " (y/n): ")),
         Raises RecursionError)).
Proof.
  intros Hj. split; [|split].
  - by apply yesNo_answer.
  - by apply yesNo_eof.
  - intros rest. by apply yesNo_depth.
Qed.


(** *** The report methods *)

Ltac write_leaves :=
  destruct (can_open _ _ _); [
    destruct (report_rows _ _ _).1 as [rows|e] eqn:Hrows; [
      destruct (can_write _ _ _ _) |] |].

Ltac all_logged := repeat constructor; by eexists.

Lemma write_report_guards {D : Type} (mk : string -> D -> option row)
    (store : gmap string D) (noun Noun name : string)
    (headings : list string) :
  guards os (write_report os mk store noun Noun name headings) name.
Proof.
  intros stack outputDir filePrefix format overwrite w outFile res.
  subst res outFile. unfold out_file, overwrite_question, write_report.
  set (outFile := joinpath os outputDir (filePrefix +:+ name)).
  destruct (bool_decide (size store = 0%nat)).
  { cbn. split; [done|]. split; [done|]. intros _. split; [done|all_logged]. }
  destruct (bool_decide (is_Some (fs w !! outFile))) eqn:Hex;
    [apply bool_decide_eq_true_1 in Hex|apply bool_decide_eq_false_1 in Hex];
    destruct overwrite; cbn [andb negb].
  - write_leaves; cbn; (split; [|split]);
      first [ intros path Hp; by rewrite ?lookup_insert_ne by done
            | intros _ [=]
            | intros _; split; [done|all_logged] ].
  - destruct (_yesNo _ _ _) as [[input asked] [[|]|f']] eqn:Hyn;
      [write_leaves| |]; cbn; (split; [|split]);
      first [ intros path Hp; by rewrite ?lookup_insert_ne by done
            | intros _ _ Hno; by destruct Hno
            | intros _ _ _; done
            | intros [[=]|Hnone]; rewrite Hnone in Hex; by destruct Hex ].
  - write_leaves; cbn; (split; [|split]);
      first [ intros path Hp; by rewrite ?lookup_insert_ne by done
            | intros _ [=]
            | intros _; split; [done|all_logged] ].
  - write_leaves; cbn; (split; [|split]);
      first [ intros path Hp; by rewrite ?lookup_insert_ne by done
            | intros H; by destruct Hex
            | intros _; split; [done|all_logged] ].
Qed.

Lemma write_report_writes {D : Type} (mk : string -> D -> option row)
    (store : gmap string D) (noun Noun name : string)
    (headings : list string) :
  writes os (write_report os mk store noun Noun name headings) name
    (size store) (fun outFile => (report_rows mk store outFile).1) headings.
Proof.
  intros stack outputDir filePrefix format overwrite w outFile res.
  subst res outFile. unfold out_file, write_error, write_report.
  set (outFile := joinpath os outputDir (filePrefix +:+ name)).
  case_bool_decide as Hsize.
  { cbn. split; [done|]. split; [by left|]. by intros f [=]. }
  split; [done|].
  destruct (bool_decide (is_Some (fs w !! outFile)) && negb overwrite);
    [destruct (_yesNo _ _ _) as [[input asked] [[|]|f']] eqn:Hyn|];
    [write_leaves| | |write_leaves]; cbn; split;
    first [ intros _; by left
          | by intros [=]
          | intros f [= <-]; by left
          | by intros f [=]
          | intros _; right; exists rows; split; [done|];
            by rewrite insert_insert_eq
          | intros f [= <-]; right; split; [done|];
            rewrite ?insert_insert_eq; by eauto ].
Qed.


(** X15: what a report method may touch.  Each of the three methods
    leaves every file but its own as it was; leaves its own file alone
    when the file exists, [overwrite] is unset and the operator does not
    answer yes; and neither reads the console nor prompts when
    [overwrite] is set or the file does not exist. *)
Theorem report_methods_guard (self : KismetParser) :
  guards os (_reportBluetooth py os self) "bluetooth_devices.txt"
  /\ guards os (_reportWirelessAps py os self) "wireless_ap_devices.txt"
  /\ guards os (_reportWirelessClients py os self)
       "wireless_client_devices.txt".
Proof. split; [|split]; apply write_report_guards. Qed.

(** X16: what a report method leaves in its file.  With an empty store
    it changes nothing and returns.  When it returns, either no file was
    touched or its file holds the whole table: [tabulate] of the sorted
    rows of the store under the headings of the class.  When it raises,
    either no file was touched, or the exception is the [Warning] that
    the file could not be written and the file is left empty or with
    what an interrupted write left. *)
Theorem report_methods_write (self : KismetParser) :
  writes os (_reportBluetooth py os self) "bluetooth_devices.txt"
    (size (bluetoothDevices self))
    (fun outFile => (_reportBluetooth_rows py self outFile).1)
    bluetooth_headings
  /\ writes os (_reportWirelessAps py os self) "wireless_ap_devices.txt"
       (size (wirelessAps self))
       (fun outFile => (_reportWirelessAps_rows py self outFile).1)
       ap_headings
  /\ writes os (_reportWirelessClients py os self)
       "wireless_client_devices.txt"
       (size (wirelessClients self))
       (fun outFile => (_reportWirelessClients_rows py self outFile).1)
       client_headings.
Proof. split; [|split]; apply write_report_writes. Qed.

End Console.

Section Main.

Context (py : Builtins) (os : System).

(** *** [report] *)

Lemma report_frame (self : KismetParser) (stack : nat)
    (outputDir filePrefix format : string) (overwrite : bool) (w : World)
    (dir : string) (files : gmap string node) (path : string) :
  resolve os outputDir = Some dir ->
  mkdir os dir (fs w) = (files, true) ->
  path ≠ out_file os "bluetooth_devices.txt" dir filePrefix ->
  path ≠ out_file os "wireless_ap_devices.txt" dir filePrefix ->
  path ≠ out_file os "wireless_client_devices.txt" dir filePrefix ->
  fs (report py os self stack outputDir filePrefix format overwrite w).1.1
  !! path = files !! path.
Proof.
  intros Hres Hmk H1 H2 H3. unfold report. rewrite Hres, Hmk.
  set (w0 := {| fs := files; stdin := stdin w |}).
  pose proof (write_report_guards os (bluetooth_row py)
                (bluetoothDevices self) "bluetooth" "Bluetooth"
                "bluetooth_devices.txt" bluetooth_headings stack dir
                filePrefix format overwrite w0) as (G1 & _).
  fold (_reportBluetooth py os self) in G1.
  destruct (_reportBluetooth py os self stack dir filePrefix format
              overwrite w0) as [[w1 ev1] [u1|f1]]; cbn in G1;
    [|by rewrite G1].
  pose proof (write_report_guards os (ap_row py)
                (wirelessAps self) "wireless access point"
                "Wireless access point" "wireless_ap_devices.txt"
                ap_headings stack dir filePrefix format overwrite w1)
    as (G2 & _).
  fold (_reportWirelessAps py os self) in G2.
  destruct (_reportWirelessAps py os self stack dir filePrefix format
              overwrite w1) as [[w2 ev2] [u2|f2]]; cbn in G2;
    [|by rewrite G2, G1].
  pose proof (write_report_guards os (client_row py)
                (wirelessClients self) "wireless client"
                "Wireless client" "wireless_client_devices.txt"
                client_headings stack dir filePrefix format overwrite w2)
    as (G3 & _).
  fold (_reportWirelessClients py os self) in G3.
  destruct (_reportWirelessClients py os self stack dir filePrefix format
              overwrite w2) as [[w3 ev3] [u3|f3]]; cbn in G3;
    by rewrite G3, G2, G1.
Qed.


(** X17: [report] makes the output directory before anything else.  If
    the directory cannot be resolved or made, it raises the [Warning]
    that names the directory, having logged the error, run no report
    method and left the console alone.  Otherwise no path but those of
    the three report files differs from what [mkdir] left. *)
Theorem report_directory_first (self : KismetParser) (stack : nat)
    (outputDir filePrefix format : string) (overwrite : bool) (w : World) :
  let res := report py os self stack outputDir filePrefix format overwrite w in
  match resolve os outputDir with
  | None =>
      res = (w,
             [Log (DEBUG, "Initiated reporting");
              Log (ERROR, create_error outputDir)],
             Raises (Python (Warning (create_error outputDir))))
  | Some dir =>
      match mkdir os dir (fs w) with
      | (files, false) =>
          res = ({| fs := files; stdin := stdin w |},
                 [Log (DEBUG, "Initiated reporting");
                  Log (ERROR, create_error dir)],
                 Raises (Python (Warning (create_error dir))))
      | (files, true) =>
          forall path,
            path ≠ out_file os "bluetooth_devices.txt" dir filePrefix ->
            path ≠ out_file os "wireless_ap_devices.txt" dir filePrefix ->
            path ≠ out_file os "wireless_client_devices.txt" dir filePrefix ->
            fs res.1.1 !! path = files !! path
      end
  end.
Proof.
  intros res.
  destruct (resolve os outputDir) as [dir|] eqn:Hres.
  - destruct (mkdir os dir (fs w)) as [files []] eqn:Hmk.
    + intros path. by apply report_frame.
    + subst res. unfold report. by rewrite Hres, Hmk.
  - subst res. unfold report. rewrite Hres. by destruct w.
Qed.


(** *** [main] *)

Lemma malformed_dec (line : string) : malformed py line \/ ~ malformed py line.
Proof.
  unfold malformed.
  destruct (decide (Text.strip line = "")) as [He|Hne];
    [right; by intros [? _]|].
  destruct (json_loads py line) as [v|e]; [right|left; by eauto].
  by intros [_ [e' [=]]].
Qed.

Lemma malformed_somewhere (lines : list string) :
  Exists (malformed py) lines \/ Forall (fun l => ~ malformed py l) lines.
Proof.
  induction lines as [|l lines [IH|IH]]; [by right|left; by right|].
  destruct (malformed_dec l); [left; by left|right; by constructor].
Qed.

Lemma add_lines_outcome (file : string) (lines : list string) :
  forall self,
    (Forall (fun l => ~ malformed py l) lines
     /\ add_lines py file lines self
        = (set_devices self (devices self ++ omap (decoded py) lines), [],
           Ok ()))
    \/ (Exists (malformed py) lines
        /\ exists msg, (add_lines py file lines self).2 = Raise (Warning msg)).
Proof.
  intros self.
  destruct (malformed_somewhere lines) as [Hex|Hall].
  - right. split; [done|].
    destruct (add_lines_malformed py file lines self) as
      (pre & bad & post & _ & _ & _ & ->); [|by eexists].
    by apply Exists_exists in Hex.
  - left. split; [done|]. apply add_lines_well_formed.
    intros l Hin. by apply (proj1 (Forall_forall _ _) Hall).
Qed.

Lemma add_files_records (files : list string) (records : list (list json)) :
  forall self,
    Forall2 (records_of py os) files records ->
    exists log,
      add_files py os files self
      = (set_devices self (devices self ++ concat records), log, Returns ()).
Proof.
  intros self H. revert self.
  induction H as [|file vs files records Hf _ IH]; intros self.
  - exists []. cbn. by rewrite app_nil_r, set_devices_id.
  - destruct Hf as (path & lines & Hres & Hread & Hok & ->).
    cbn [add_files]. rewrite Hres, Hread. cbn [addFile].
    rewrite add_lines_well_formed
      by (intros l Hin; by apply (proj1 (Forall_forall _ _) Hok)).
    destruct (IH (set_devices self (devices self ++ omap (decoded py) lines)))
      as [log ->].
    eexists. cbn. by rewrite set_devices_twice, <- app_assoc.
Qed.

Lemma add_files_outcome (files : list string) :
  forall self,
    match (add_files py os files self).2 with
    | Returns _ => exists records, Forall2 (records_of py os) files records
    | Raises f =>
        f = OSError /\ Exists (fun file => resolve os file = None) files
        \/ (exists msg, f = Python (Warning msg))
           /\ Exists (bad_file py os) files
    end.
Proof.
  induction files as [|file files IH]; intros self; cbn [add_files].
  - cbn. exists []. constructor.
  - destruct (resolve os file) as [path|] eqn:Hres;
      [|cbn; left; split; [done|by left]].
    destruct (read_lines os path) as [| |lines] eqn:Hread; cbn.
    + right. split; [by eexists|]. left. exists path. by rewrite Hread.
    + right. split; [by eexists|]. left. exists path. by rewrite Hread.
    + destruct (add_lines_outcome path lines self) as [[Hok ->]|[Hbad [m Hm]]].
      * specialize (IH (set_devices self
                          (devices self ++ omap (decoded py) lines))).
        destruct (add_files py os files _) as [[s log] [u|f]]; cbn in *.
        -- destruct IH as [records IH].
           exists (omap (decoded py) lines :: records).
           constructor; [|done]. by exists path, lines.
        -- destruct IH as [[-> IH]|[Hw IH]]; [left|right];
             (split; [done|by right]).
      * destruct (add_lines py path lines self) as [[s log] [u|e]];
          cbn in Hm; [done|]. injection Hm as ->. cbn.
        right. split; [by eexists|]. left. exists path. by rewrite Hread.
Qed.

Lemma parse_raises (self : KismetParser) (e : exn) :
  (parse py self).2 = Raise e ->
  (e = KeyError "kismet_device_base_type" \/ e = TypeError)
  /\ Exists (fun v => ~ typed v) (devices self).
Proof.
  unfold parse.
  assert (H : forall ds s,
             (parse_loop py ds s).2 = Raise e ->
             (e = KeyError "kismet_device_base_type" \/ e = TypeError)
             /\ Exists (fun v => ~ typed v) ds).
  { induction ds as [|d ds IH]; intros s; cbn [parse_loop]; [done|].
    destruct (typed_dec d) as [Ht|Hn].
    - destruct (typed_parse_device py d s Ht) as (log & Hok & _).
      destruct (parse_device py d s) as [[s' log'] r]. cbn in Hok. subst r.
      specialize (IH s').
      destruct (parse_loop py ds s') as [[s'' log''] r]. cbn in *.
      intros Hr. destruct (IH Hr) as [? ?]. split; [done|by right].
    - destruct (untyped_parse_device py d s Hn) as (e' & -> & He').
      cbn. intros [= <-]. split; [done|by left]. }
  specialize (H (devices self) self).
  destruct (parse_loop py (devices self) self) as [[s log] [u|e']]; [done|].
  cbn in *. exact H.
Qed.

Lemma logged_fmap (log : list LogRecord) : Forall logged (Log <$> log).
Proof. apply Forall_fmap, Forall_forall. intros r _. by exists r. Qed.


(** X20: one record without a usable type stops everything.  If every
    input file is accepted and one of their records has no
    [kismet_device_base_type] item that is a string, [main] ends on an
    uncaught [KeyError] or [TypeError], having changed no file, read
    nothing from the console and produced log records only. *)
Theorem main_untyped_record (args : Args) (stack : nat) (w : World)
    (records : list (list json)) :
  Forall2 (records_of py os) (inputFiles args) records ->
  Exists (fun v => ~ typed v) (concat records) ->
  exists e,
    (main py os args stack w).2 = Crashed (Python e)
    /\ (e = KeyError "kismet_device_base_type" \/ e = TypeError)
    /\ (main py os args stack w).1.1 = w
    /\ Forall logged (main py os args stack w).1.2.
Proof.
  intros Hrec Hun. unfold main.
  destruct init as [kp log0] eqn:Hinit.
  assert (Hnone : devices kp = []) by (by injection Hinit as <- _).
  destruct (add_files_records _ _ kp Hrec) as [log1 ->].
  rewrite Hnone, app_nil_l.
  set (kp1 := set_devices _ _).
  assert (Hdev : devices kp1 = concat records) by done.
  pose proof (parse_raises kp1) as Hr.
  pose proof (parse_loop_ok_typed py (devices kp1) kp1) as Hty.
  unfold parse in *.
  destruct (parse_loop py (devices kp1) kp1) as [[kp2 log2] [[]|e]]; cbn in *.
  - exfalso. specialize (Hty eq_refl).
    apply Exists_exists in Hun as (v & Hin & Hv).
    by apply Hv, (proj1 (Forall_forall _ _) Hty).
  - destruct (Hr e eq_refl) as [He _]. exists e.
    split; [by destruct He as [-> | ->]|].
    split; [done|]. split; [done|]. apply logged_fmap.
Qed.

(** X21: when [main] finishes, every input file was accepted, every
    record of every file had a type, and the stores whose sizes the
    printed summary shows account for every one of these records. *)
Theorem main_finishes (args : Args) (stack : nat) (w : World) :
  set_semantics py ->
  (main py os args stack w).2 = Finished ->
  exists records kp,
    Forall2 (records_of py os) (inputFiles args) records
    /\ Forall typed (concat records)
    /\ Forall (covered py kp) (concat records)
    /\ last (main py os args stack w).1.2
       = Some (Print (newline +:+ "Parsing complete!" +:+ newline
                      +:+ newline +:+ summarise os kp +:+ newline
                      +:+ newline)).
Proof.
  intros Hset Hfin. unfold main in *.
  destruct init as [kp log0] eqn:Hinit.
  assert (Hnone : devices kp = []) by (by injection Hinit as <- _).
  pose proof (add_files_outcome (inputFiles args) kp) as Hadd.
  destruct (add_files py os (inputFiles args) kp) as [[kp1 log1] [u|f]] eqn:Ha;
    [|cbn in Hfin; by destruct f as [[]| | |]].
  cbn in Hadd. destruct Hadd as [records Hrec]. exists records.
  destruct (add_files_records _ _ kp Hrec) as [log1' Ha'].
  assert (Hdev : devices kp1 = concat records).
  { rewrite Ha' in Ha. assert (Hk : set_devices kp (devices kp ++ concat records)
                                    = kp1) by congruence.
    subst kp1. by rewrite Hnone. }
  clear Ha Ha'.
  pose proof (parse_loop_ok_typed py (devices kp1) kp1) as Hty.
  pose proof (parse_loop_covers py (devices kp1) Hset kp1 (devices kp1) []
                (eq_sym (app_nil_r _))) as Hcov.
  unfold parse in *.
  destruct (parse_loop py (devices kp1) kp1) as [[kp2 log2] [[]|e]];
    cbn in Hty, Hcov; [|cbn in Hfin; by destruct e].
  specialize (Hty eq_refl). specialize (Hcov Hty). rewrite Hdev in Hty, Hcov.
  destruct (report py os kp2 stack _ _ _ _ w) as [[w' ev] [[]|f]];
    [|cbn in Hfin; by destruct f as [[]| | |]].
  exists kp2. split; [done|]. split; [done|]. split; [done|].
  cbn [fst snd]. by rewrite !app_assoc, last_snoc.
Qed.


End Main.

(** * Further properties on examples *)

Section FurtherExamples.

Import Sample.

Lemma capture_well_formed :
  Forall (fun l => ~ malformed Sample.py l) Host.capture.
Proof.
  repeat constructor. intros [_ [e He]]. vm_compute in He. discriminate.
Qed.

Lemma untyped_well_formed :
  Forall (fun l => ~ malformed Sample.py l) Host.untyped.
Proof.
  repeat constructor. intros [_ [e He]]. vm_compute in He. discriminate.
Qed.

Lemma capture_records :
  records_of Sample.py Host.os "capture.ekjson"
    [bluetooth_record "aa:bb" 10 20 "Acme" "Tag"].
Proof.
  exists "capture.ekjson", Host.capture.
  split; [reflexivity|]. split; [reflexivity|].
  split; [exact capture_well_formed|]. vm_compute. reflexivity.
Qed.

Lemma untyped_records :
  records_of Sample.py Host.os "untyped.ekjson" [JDict []].
Proof.
  exists "untyped.ekjson", Host.untyped.
  split; [reflexivity|]. split; [reflexivity|].
  split; [exact untyped_well_formed|]. vm_compute. reflexivity.
Qed.

Lemma whole_record_sound :
  ~ bluetooth_defect Sample.py (bluetooth_record "aa:bb" 10 20 "Acme" "Tag").
Proof.
  intros Hd. apply (proj2 (bluetooth_fields_defect Sample.py _)) in Hd.
  destruct Hd as [e He]. vm_compute in He. discriminate.
Qed.

(** X1, the theorem on a Bluetooth record without a manufacturer item
    and on one that has every item. *)
Lemma record_dropped_or_stored_witness :
  let broken :=
    JDict [("kismet_device_base_type", JStr "BTLE");
           ("kismet_device_base_macaddr", JStr "aa:bb");
           ("kismet_device_base_first_time", JInt 10);
           ("kismet_device_base_last_time", JInt 20);
           ("kismet_device_base_name", JStr "Tag")] in
  let whole := bluetooth_record "aa:bb" 10 20 "Acme" "Tag" in
  bluetooth_defect Sample.py broken
  /\ _processBluetooth Sample.py broken Sample.empty
     = (Sample.empty,
        [(WARNING, "Invalid bluetooth device record specified")])
  /\ ~ bluetooth_defect Sample.py whole
  /\ exists mac,
      address_of Sample.py whole mac
      /\ (mac ≠ "" ->
          is_Some (bluetoothDevices
                     (_processBluetooth Sample.py whole Sample.empty).1
                     !! mac)).
Proof.
  intros broken whole.
  assert (Hd : bluetooth_defect Sample.py broken).
  { left. do 3 apply Exists_cons_tl. apply Exists_cons_hd.
    eexists. vm_compute. reflexivity. }
  split; [exact Hd|]. split.
  { by apply (record_dropped_or_stored Sample.py broken Sample.empty). }
  split; [exact whole_record_sound|].
  destruct (record_dropped_or_stored Sample.py whole Sample.empty)
    as ((_ & H) & _).
  destruct (H whole_record_sound) as (mac & Ha & _ & Hs).
  exists mac. by split.
Defined.


(** X4, the theorem on an access point stored at -60 and seen again,
    over a wider time range, at -40. *)
Lemma parse_entries_grow_witness :
  let first := ap_record "aa:bb" 1000 2000 "Acme" (JInt 11) "WPA2" "home"
                 (signal "dbm" (-60)) in
  let second := ap_record "aa:bb" 900 2500 "Acme" (JInt 11) "WPA2" "home"
                  (signal "dbm" (-40)) in
  let self :=
    set_devices (_processWirelessAp Sample.py first Sample.empty).1 [second] in
  set_semantics Sample.py
  /\ parser_grows self (parse Sample.py self).1.1.
Proof.
  intros first second self. split; [exact sample_set_semantics|].
  exact (parse_entries_grow Sample.py self sample_set_semantics).
Defined.


(** X7, the theorem on a client that probes for the SSID cafe. *)
Lemma probed_ssids_witness :
  let device := client_record "aa:bb" 1000 2000 "Acme" "11:22"
                  (probed_ssid "cafe") (signal "dbm" (-40)) in
  client_fields Sample.py device
  = Ok ("AA:BB", 1000, 2000, "Acme", "11:22", ["cafe"])
  /\ exists d,
      wirelessClients (_processWirelessClient Sample.py device Sample.empty).1
        !! "AA:BB" = Some d
      /\ cl_probedSsids d = ["cafe"].
Proof.
  intros device.
  assert (Hf : client_fields Sample.py device
               = Ok ("AA:BB", 1000, 2000, "Acme", "11:22", ["cafe"]))
    by (vm_compute; reflexivity).
  split; [exact Hf|].
  destruct (probed_ssids Sample.py device Sample.empty _ _ _ _ _ _ Hf)
    as (_ & H & _).
  apply H; [discriminate|vm_compute; reflexivity].
Defined.

(** X10, the theorem on a parser holding one Bluetooth record. *)
Lemma parse_covers_every_record_witness :
  let self :=
    set_devices Sample.empty [bluetooth_record "aa:bb" 10 20 "Acme" "Tag"] in
  set_semantics Sample.py
  /\ (parse Sample.py self).2 = Ok ()
  /\ Forall (covered Sample.py (parse Sample.py self).1.1) (devices self).
Proof.
  intros self.
  assert (Hok : (parse Sample.py self).2 = Ok ()) by (vm_compute; reflexivity).
  split; [exact sample_set_semantics|]. split; [exact Hok|].
  exact (parse_covers_every_record Sample.py self sample_set_semantics Hok).
Defined.

(** X11, the theorem on a parser holding a client record that probes
    for an SSID. *)
Lemma parse_twice_witness :
  let self :=
    set_devices Sample.empty
      [client_record "aa:bb" 1000 2000 "Acme" "11:22" (probed_ssid "cafe")
         (signal "dbm" (-40))] in
  set_semantics Sample.py
  /\ same_parser (parse Sample.py (parse Sample.py self).1.1).1.1
       (parse Sample.py self).1.1.
Proof.
  intros self. split; [exact sample_set_semantics|].
  exact (parse_twice Sample.py self sample_set_semantics).
Defined.

(** X14, the theorem on an operator who types maybe, an empty line and
    then Y. *)
Lemma yesNo_first_answer_witness :
  Forall (fun yn => ~ answered yn) ["maybe"; ""]
  /\ _yesNo 5 "overwrite?" (["maybe"; ""] ++ "Y" :: ["later"])
     = (["later"], replicate 3 (Prompt "overwrite? (y/n): "), Returns true)
  /\ _yesNo 5 "overwrite?" ["maybe"; ""]
     = ([], replicate 3 (Prompt "overwrite? (y/n): "), Raises EOFError)
  /\ _yesNo 2 "overwrite?" (["maybe"; ""] ++ ["Y"])
     = (["Y"], replicate 2 (Prompt "overwrite? (y/n): "),
        Raises RecursionError).
Proof.
  assert (Hj : Forall (fun yn => ~ answered yn) ["maybe"; ""]).
  { repeat constructor; intros [H|H]; vm_compute in H; discriminate. }
  split; [exact Hj|].
  destruct (yesNo_first_answer 5 "overwrite?" ["maybe"; ""] Hj)
    as (Hans & Heof & _).
  destruct (yesNo_first_answer 2 "overwrite?" ["maybe"; ""] Hj)
    as (_ & _ & Hdepth).
  split; [|split].
  - apply (Hans "Y" ["later"]); [cbn; lia|left; vm_compute; reflexivity].
  - apply Heof. cbn. lia.
  - apply (Hdepth ["Y"]). reflexivity.
Defined.



(** X20, the theorem on a run given a good file and a file whose record
    declares no type. *)
Lemma main_untyped_record_witness :
  let args := Host.args ["capture.ekjson"; "untyped.ekjson"] false in
  let w := Host.world ∅ [] in
  let records :=
    [[bluetooth_record "aa:bb" 10 20 "Acme" "Tag"]; [JDict []]] in
  Forall2 (records_of Sample.py Host.os) (inputFiles args) records
  /\ Exists (fun v => ~ typed v) (concat records)
  /\ exists e,
      (main Sample.py Host.os args 5 w).2 = Crashed (Python e)
      /\ (e = KeyError "kismet_device_base_type" \/ e = TypeError)
      /\ (main Sample.py Host.os args 5 w).1.1 = w
      /\ Forall logged (main Sample.py Host.os args 5 w).1.2.
Proof.
  intros args w records.
  assert (Hrec : Forall2 (records_of Sample.py Host.os) (inputFiles args)
                   records).
  { constructor; [exact capture_records|].
    constructor; [exact untyped_records|constructor]. }
  assert (Hun : Exists (fun v => ~ typed v) (concat records)).
  { right. left. intros [t Ht]. vm_compute in Ht. discriminate. }
  split; [exact Hrec|]. split; [exact Hun|].
  exact (main_untyped_record Sample.py Host.os args 5 w records Hrec Hun).
Defined.

(** X21, the theorem on a run given one good file and an empty output
    directory. *)
Lemma main_finishes_witness :
  let args := Host.args ["capture.ekjson"] false in
  let w := Host.world ∅ [] in
  set_semantics Sample.py
  /\ (main Sample.py Host.os args 5 w).2 = Finished
  /\ exists records kp,
      Forall2 (records_of Sample.py Host.os) (inputFiles args) records
      /\ Forall typed (concat records)
      /\ Forall (covered Sample.py kp) (concat records)
      /\ last (main Sample.py Host.os args 5 w).1.2
         = Some (Print (newline +:+ "Parsing complete!" +:+ newline
                        +:+ newline +:+ summarise Host.os kp +:+ newline
                        +:+ newline)).
Proof.
  intros args w.
  assert (Hfin : (main Sample.py Host.os args 5 w).2 = Finished)
    by (vm_compute; reflexivity).
  split; [exact sample_set_semantics|]. split; [exact Hfin|].
  exact (main_finishes Sample.py Host.os args 5 w sample_set_semantics Hfin).
Defined.


End FurtherExamples.
